(** * chad-finance: allocation engine and monthly portfolio simulation

    A shallow embedding of [src/utils/stock-market-simulator.ts]
    (classes [StockMarketSimulator], [PortfolioCalculator] and
    [AdvancedPortfolioSimulator]) and of the bank simulator of
    [src/q1.ts].

    Numbers.  A JavaScript [number] is embedded as a real number: every
    arithmetic operation of the source is read as the exact operation on
    [R] ([Math.sqrt] as [sqrt], [Math.log] as [ln], [Math.cos] as [cos],
    [Math.max]/[Math.min] as [Rmax]/[Rmin]).  Rounding error, overflow and
    NaN of IEEE doubles are outside this model; the only rounding that is
    modelled is the explicit one of the source, [toFixed].  Two
    consequences are kept in sight in the statements:
    - [Math.sqrt] of a negative number is [NaN], where [sqrt] is [0].  The
      one root the source can take of a negative number is that of the
      variance in [calculateBasketMetrics]; [varianceNotNegative] names
      the inputs where it is not negative, and the properties of values
      that come out of that root are stated for those inputs;
    - a sum that the source accumulates in doubles can fall on the other
      side of a rounding tie than the exact sum, so a recorded (rounded)
      value is compared with a closed form up to half a unit of the last
      recorded digit.

    Objects used as dictionaries ([{ [name: string]: number }]) are finite
    maps from strings to reals, the own properties of the object; an
    assignment to the key ["__proto__"] adds none.  Sums over
    [Object.values] are folds over the map; addition on [R] being
    commutative and associative, the key order of the fold is immaterial.

    [Math.random()] is an explicit tape of uniform draws that the code
    consumes from the front. *)

From Stdlib Require Import Reals Lra Lia ZArith.
From stdpp Require Import gmap strings list fin_maps.

Open Scope R_scope.

(** ** Comparisons of numbers, as decidable propositions *)

#[global] Instance Rlt_decision (x y : R) : Decision (x < y) := Rlt_dec x y.
#[global] Instance Rle_decision (x y : R) : Decision (x <= y) := Rle_dec x y.
#[global] Instance Req_decision : EqDecision R := Req_dec_T.

(** ** Outcome of a call that may throw *)

Inductive Result (E A : Type) : Type :=
| Ok (a : A)
| Thrown (e : E).
Arguments Ok {E A} a.
Arguments Thrown {E A} e.

Definition bind {E A B} (r : Result E A) (k : A -> Result E B) : Result E B :=
  match r with
  | Ok a => k a
  | Thrown e => Thrown e
  end.

Notation "'do' x <- r ; k" := (bind r (fun x => k))
  (at level 10, x name, r at level 100, k at level 200).

(** ** [Number.prototype.toFixed(2)] followed by [parseFloat] *)

Module JsNumber.

(** [toFixed] on a non-negative argument: above [10^21] the decimal string
    of the number itself, otherwise the integer [n] with [n / 100] closest
    to [x], the larger one on a tie. *)
Definition toFixed2_nonneg (x : R) : R :=
  if decide (10 ^ 21 <= x) then x
  else IZR (Zfloor (x * 100 + / 2)) / 100.

(** A negative argument is printed as the sign followed by the digits of
    its absolute value. *)
Definition toFixed2 (x : R) : R :=
  if decide (x < 0) then - toFixed2_nonneg (- x) else toFixed2_nonneg x.

(** [parseFloat(x.toFixed(2))]. *)
Definition round2 (x : R) : R := toFixed2 x.

(** A number with at most two decimal places. *)
Definition two_decimals (x : R) : Prop := exists n : Z, x = IZR n / 100.

(** [Number.isInteger(x)]. *)
Definition isInteger (x : R) : Prop := IZR (Zfloor x) = x.

End JsNumber.

#[global] Instance isInteger_decision (x : R) :
  Decision (JsNumber.isInteger x) := Req_decision _ _.

(** ** Data model *)

Inductive ScenarioType : Set := BEST | AVERAGE | WORST.

Record Stock : Type := mkStock {
  name : string;
  geometricMean : R;
  volatility : R
}.

Record BankAccount : Type := mkBank {
  bankName : string;
  interestRate : R
}.

Record MonthlySimulatedPortfolioState : Type := mkState {
  month : nat;
  stockValues : gmap string R;
  bankValue : R;
  totalPortfolioValue : R;
  totalCapitalInvested : R
}.

(** ** The allocation engine *)

Module PortfolioCalculator.

Record StockAllocationResult : Type := mkStockAlloc {
  allocName : string;
  amount : R;
  weightInBasket : R;
  weightInTotal : R
}.

Record BankAllocation : Type := mkBankAlloc {
  bankAllocName : string;
  bankAmount : R;
  bankWeightInTotal : R
}.

(** The optional [sharpeRatio] of the basket may be [Infinity] or
    [-Infinity]. *)
Inductive SharpeValue : Type :=
| Finite (r : R)
| PlusInfinity
| MinusInfinity.

Record BasketMetrics : Type := mkMetrics {
  expectedReturn : R;
  basketVolatility : R;
  sharpeRatio : SharpeValue
}.

Record PortfolioAllocationResult : Type := mkAllocation {
  stocks : list StockAllocationResult;
  bankAllocation : BankAllocation;
  basketMetrics : BasketMetrics;
  targetPortfolioVolatility : R;
  totalInvestment : R
}.

Definition MIN_INTEREST_RATE : R := 0.01.
Definition MAX_INTEREST_RATE : R := 0.076.
Definition DEFAULT_CORRELATION : R := 0.6.

(** The source throws [Error] objects that differ only by their message;
    one constructor per [throw] statement. *)
Inductive AllocationError : Type :=
| NegativeTotalAmount
| NonPositiveVolatility (stockName : string)
| InvalidStockData (stockName : string)
| InterestRateOutOfRange
| NegativeTargetVolatility
| CorrelationOutOfRange
| UnachievableVolatilityNoStocks
| UnachievableVolatilityZeroBasket
| DegenerateSharpeWeights.

(** The spec's three error conditions. *)
Definition isInvalidAllocationInput (e : AllocationError) : Prop :=
  match e with
  | NegativeTotalAmount | NonPositiveVolatility _ | InvalidStockData _
  | InterestRateOutOfRange | NegativeTargetVolatility
  | CorrelationOutOfRange => True
  | _ => False
  end.

Definition isUnachievableVolatility (e : AllocationError) : Prop :=
  match e with
  | UnachievableVolatilityNoStocks | UnachievableVolatilityZeroBasket => True
  | _ => False
  end.

(** [stocks.forEach(stock => { ... })] of [validateInputs]: the first
    offending stock throws.  The [typeof] tests always pass on a typed
    record; [!stock.name] holds for the empty string. *)
Fixpoint validateStocks (stocks : list Stock) : Result AllocationError unit :=
  match stocks with
  | [] => Ok tt
  | stock :: rest =>
      if decide (volatility stock <= 0) then
        Thrown (NonPositiveVolatility (name stock))
      else if decide (name stock = EmptyString) then
        Thrown (InvalidStockData (name stock))
      else validateStocks rest
  end.

Definition validateInputs (totalAmount : R) (stocks : list Stock)
    (bankAccount : BankAccount) (targetPortfolioVolatility correlation : R)
    : Result AllocationError unit :=
  if decide (totalAmount < 0) then Thrown NegativeTotalAmount
  else
    do _ <- validateStocks stocks;
    if decide (interestRate bankAccount < MIN_INTEREST_RATE
               \/ interestRate bankAccount > MAX_INTEREST_RATE) then
      Thrown InterestRateOutOfRange
    else if decide (targetPortfolioVolatility < 0) then
      Thrown NegativeTargetVolatility
    else if decide (correlation < -1 \/ correlation > 1) then
      Thrown CorrelationOutOfRange
    else Ok tt.

(** Sharpe ratio of one stock.  The source has a branch for
    [stock.volatility === 0] that returns [Infinity], [-Infinity] or [0];
    [validateInputs] has rejected every volatility [<= 0] before this
    function is called, so the ratio is the quotient. *)
Definition calculateStockSharpeRatios (stocks : list Stock) (riskFreeRate : R)
    : list R :=
  map (fun stock => (geometricMean stock - riskFreeRate) / volatility stock)
      stocks.

(** [reduce((sum, ratio) => sum + ratio, 0)]. *)
Definition sumList (l : list R) : R := fold_left Rplus l 0.

(** The second parameter of the source, [stockNames], is not used by its
    body and is left out. *)
Definition calculateBasketWeights (stockSharpeRatios : list R)
    : Result AllocationError (list R) :=
  let positiveSharpeRatios := filter (fun r => r > 0) stockSharpeRatios in
  let sumPositiveSharpe := sumList positiveSharpeRatios in
  if decide (sumPositiveSharpe = 0) then
    if decide (Forall (fun ratio => ratio <= 0) stockSharpeRatios) then
      Ok (map (fun _ => 1 / INR (length stockSharpeRatios)) stockSharpeRatios)
    else Thrown DegenerateSharpeWeights
  else
    Ok (map (fun ratio => if decide (ratio > 0)
                          then ratio / sumPositiveSharpe else 0)
            stockSharpeRatios).

(** [basketWeights[index]] beside [stocks[index]]: the two arrays have the
    same length, and are walked together. *)
Definition weighted (stocks : list Stock) (basketWeights : list R)
    : list (Stock * R) :=
  zip stocks basketWeights.

(** Inner loop [for (j = i + 1; ...)] of the variance. *)
Fixpoint crossTerms (wi vi correlation : R) (later : list (Stock * R))
    (basketVariance : R) : R :=
  match later with
  | [] => basketVariance
  | (sj, wj) :: rest =>
      crossTerms wi vi correlation rest
        (basketVariance + 2 * wi * wj * vi * volatility sj * correlation)
  end.

(** Outer loop [for (i = 0; ...)] of the variance. *)
Fixpoint varianceLoop (sw : list (Stock * R)) (correlation : R)
    (basketVariance : R) : R :=
  match sw with
  | [] => basketVariance
  | (si, wi) :: rest =>
      varianceLoop rest correlation
        (crossTerms wi (volatility si) correlation rest
           (basketVariance + wi ^ 2 * volatility si ^ 2))
  end.

(** [Math.sqrt(basketVariance)] is read as [sqrt]: the two agree when the
    variance is not negative.  A negative variance (three assets or more
    and a correlation below 0) gives [NaN] in the source and [0] here. *)
Definition calculateBasketMetrics (stocks : list Stock)
    (basketWeights : list R) (riskFreeRate correlation : R) : BasketMetrics :=
  let sw := weighted stocks basketWeights in
  let basketExpectedReturn :=
    fold_left (fun sum '(stock, w) => sum + w * geometricMean stock) sw 0 in
  let basketVariance := varianceLoop sw correlation 0 in
  let basketVolatility := sqrt basketVariance in
  let basketSharpeRatio :=
    if decide (basketVolatility > 0) then
      Finite ((basketExpectedReturn - riskFreeRate) / basketVolatility)
    else if decide (basketExpectedReturn - riskFreeRate = 0) then Finite 0
    else if decide (basketExpectedReturn > riskFreeRate) then PlusInfinity
    else MinusInfinity in
  mkMetrics basketExpectedReturn basketVolatility basketSharpeRatio.

(** The local [basketWeightInPortfolio] of [calculateAllocation]. *)
Definition basketWeightInPortfolio (metrics : BasketMetrics)
    (riskFreeRate targetPortfolioVolatility : R) : Result AllocationError R :=
  if decide (basketVolatility metrics = 0) then
    if decide (targetPortfolioVolatility = 0) then
      Ok (if decide (expectedReturn metrics > riskFreeRate) then 1 else 0)
    else Thrown UnachievableVolatilityZeroBasket
  else Ok (targetPortfolioVolatility / basketVolatility metrics).

Definition calculateAllocation (totalAmount : R) (stocks : list Stock)
    (bankAccount : BankAccount) (targetPortfolioVolatility correlation : R)
    : Result AllocationError PortfolioAllocationResult :=
  do _ <- validateInputs totalAmount stocks bankAccount
            targetPortfolioVolatility correlation;
  match stocks with
  | [] =>
      if decide (targetPortfolioVolatility = 0) then
        Ok (mkAllocation []
              (mkBankAlloc (bankName bankAccount) totalAmount
                 (if decide (totalAmount > 0) then 100 else 0))
              (mkMetrics 0 0 (Finite 0))
              0
              totalAmount)
      else Thrown UnachievableVolatilityNoStocks
  | _ :: _ =>
      let riskFreeRate := interestRate bankAccount in
      let stockSharpeRatios := calculateStockSharpeRatios stocks riskFreeRate in
      do basketWeights <- calculateBasketWeights stockSharpeRatios;
      let metrics :=
        calculateBasketMetrics stocks basketWeights riskFreeRate correlation in
      do basketWeight <-
        basketWeightInPortfolio metrics riskFreeRate targetPortfolioVolatility;
      let bankWeightInPortfolio := 1 - basketWeight in
      let totalAllocatedToBasket := totalAmount * basketWeight in
      let totalAllocatedToBank := totalAmount * bankWeightInPortfolio in
      let stockAllocationResults :=
        map (fun '(stock, w) =>
               mkStockAlloc (name stock) (totalAllocatedToBasket * w)
                 (w * 100) (w * basketWeight * 100))
            (weighted stocks basketWeights) in
      Ok (mkAllocation stockAllocationResults
            (mkBankAlloc (bankName bankAccount) totalAllocatedToBank
               (bankWeightInPortfolio * 100))
            (mkMetrics (expectedReturn metrics * 100)
               (basketVolatility metrics * 100) (sharpeRatio metrics))
            (targetPortfolioVolatility * 100)
            totalAmount)
  end.

End PortfolioCalculator.

(** ** The monthly simulation *)

Module AdvancedPortfolioSimulator.

Import PortfolioCalculator.

Definition BEST_CASE_RETURN_MULTIPLIER : R := 1.5.
Definition BEST_CASE_VOL_MULTIPLIER : R := 0.6.
Definition WORST_CASE_RETURN_MULTIPLIER : R := 0.3.
Definition WORST_CASE_ADDITIONAL_NEGATIVE_BIAS : R := -0.0075.
Definition WORST_CASE_VOL_MULTIPLIER : R := 1.25.

(** [while (u === 0) u = Math.random();] on the tape of uniform draws:
    zeros are skipped, the first non-zero draw is kept.  [None] when the
    tape ends first. *)
Fixpoint nextNonZero (tape : list R) : option (R * list R) :=
  match tape with
  | [] => None
  | u :: rest => if decide (u = 0) then nextNonZero rest else Some (u, rest)
  end.

Definition generateStandardNormalRandom (tape : list R)
    : option (R * list R) :=
  '(u, tape1) ← nextNonZero tape;
  '(v, tape2) ← nextNonZero tape1;
  let num := sqrt (-2.0 * ln u) * cos (2.0 * PI * v) in
  Some (Rmax (-3.5) (Rmin 3.5 num), tape2).

(** The value of [actualMonthlyReturn] after [Math.max(-1, ...)]. *)
Definition actualMonthlyReturn (scenario : ScenarioType) (stock : Stock)
    (randomFactor : R) : R :=
  let monthlyExpectedReturn := geometricMean stock / 12 in
  let monthlyVolatility := volatility stock / sqrt 12 in
  let actual :=
    match scenario with
    | BEST =>
        let bestMean := monthlyExpectedReturn * BEST_CASE_RETURN_MULTIPLIER in
        let bestVol := monthlyVolatility * BEST_CASE_VOL_MULTIPLIER in
        bestMean + Rabs randomFactor * bestVol
    | WORST =>
        let worstMean := monthlyExpectedReturn * WORST_CASE_RETURN_MULTIPLIER
                         + WORST_CASE_ADDITIONAL_NEGATIVE_BIAS in
        let worstVol := monthlyVolatility * WORST_CASE_VOL_MULTIPLIER in
        worstMean + randomFactor * worstVol
    | AVERAGE => monthlyExpectedReturn + randomFactor * monthlyVolatility
    end in
  Rmax (-1) actual.

(** [Object.values(h).reduce((a, b) => a + b, 0)]. *)
Definition sumValues (h : gmap string R) : R :=
  map_fold (fun _ b a => a + b) 0 h.

(** [obj[key] = v] with a number [v], on an object that was created by
    [{}].  The key ["__proto__"] is the accessor of [Object.prototype]:
    its setter ignores a value that is not an object, so the assignment
    adds no property and the object stays as it was.  Every other key
    becomes, or stays, an own property. *)
Definition setProperty (key : string) (v : R) (obj : gmap string R)
    : gmap string R :=
  if decide (key = "__proto__") then obj else <[key := v]> obj.

(** [stocks.forEach(s => currentStockHoldings[s.name] = 0)]. *)
Definition zeroHoldings (stocks : list Stock) (h : gmap string R)
    : gmap string R :=
  fold_left (fun h s => setProperty (name s) 0 h) stocks h.

(** [alloc.stocks.forEach(sAlloc => { currentStockHoldings[sAlloc.name] =
    sAlloc.amount; })]. *)
Definition applyAllocation (allocated : list StockAllocationResult)
    (h : gmap string R) : gmap string R :=
  fold_left (fun h sAlloc => setProperty (allocName sAlloc) (amount sAlloc) h)
            allocated h.

(** [for (const stock of stocks)]: one normal sample per stock, written to
    [grownStockHoldings[stock.name]]; [(h[name] || 0)] reads an absent key
    as [0].  For the name ["__proto__"] the source reads the prototype
    object instead of a number; the product is then written to the same
    name, where [setProperty] drops it. *)
Fixpoint growStocks (scenario : ScenarioType)
    (currentStockHoldings : gmap string R) (stocks : list Stock)
    (grownStockHoldings : gmap string R) (tape : list R)
    : option (gmap string R * list R) :=
  match stocks with
  | [] => Some (grownStockHoldings, tape)
  | stock :: rest =>
      '(randomFactor, tape') ← generateStandardNormalRandom tape;
      growStocks scenario currentStockHoldings rest
        (setProperty (name stock)
           (default 0 (currentStockHoldings !! name stock)
            * (1 + actualMonthlyReturn scenario stock randomFactor))
           grownStockHoldings)
        tape'
  end.

(** The variables carried from one month to the next. *)
Record Holdings : Type := mkHoldings {
  currentStockHoldings : gmap string R;
  currentBankHolding : R;
  cumulativeCapitalInvested : R
}.

(** Month 0. *)
Definition initialHoldings (initialInvestment : R) (stocks : list Stock)
    (bankAccount : BankAccount) (targetOverallVolatility correlation : R)
    : Holdings :=
  let start := zeroHoldings stocks ∅ in
  if decide (initialInvestment > 0) then
    match calculateAllocation initialInvestment stocks bankAccount
            targetOverallVolatility correlation with
    | Ok initialAlloc =>
        mkHoldings (applyAllocation (PortfolioCalculator.stocks initialAlloc) start)
                   (bankAmount (bankAllocation initialAlloc))
                   initialInvestment
    | Thrown _ =>
        mkHoldings (zeroHoldings stocks start) initialInvestment
                   initialInvestment
    end
  else mkHoldings start 0 0.

(** The state pushed for month 0: nothing is rounded. *)
Definition initialRecord (h : Holdings) : MonthlySimulatedPortfolioState :=
  mkState 0 (currentStockHoldings h) (currentBankHolding h)
          (sumValues (currentStockHoldings h) + currentBankHolding h)
          (cumulativeCapitalInvested h).

(** Step 4 of the loop body: rebalance, or one of the two fallbacks. *)
Definition rebalance (totalCapitalForReallocation : R) (stocks : list Stock)
    (bankAccount : BankAccount) (targetOverallVolatility correlation : R)
    (currentStockHoldings grownStockHoldings : gmap string R)
    : gmap string R * R :=
  if decide (totalCapitalForReallocation > 0) then
    match calculateAllocation totalCapitalForReallocation stocks bankAccount
            targetOverallVolatility correlation with
    | Ok newAlloc =>
        (applyAllocation (PortfolioCalculator.stocks newAlloc)
           currentStockHoldings,
         bankAmount (bankAllocation newAlloc))
    | Thrown _ =>
        let sumOfGrownStocks := sumValues grownStockHoldings in
        (grownStockHoldings, totalCapitalForReallocation - sumOfGrownStocks)
    end
  else (zeroHoldings stocks currentStockHoldings, totalCapitalForReallocation).

(** What one iteration of the loop computes: the intermediate values the
    properties speak of, the variables carried on, and the state pushed
    to [history]. *)
Record MonthOutcome : Type := mkOutcome {
  grownStockHoldings : gmap string R;
  totalCapitalForReallocation : R;
  carried : Holdings;
  recorded : MonthlySimulatedPortfolioState
}.

Definition monthStep (m : nat) (monthlyDeposit : R) (stocks : list Stock)
    (bankAccount : BankAccount) (targetOverallVolatility : R)
    (scenario : ScenarioType) (correlation : R) (h : Holdings)
    (tape : list R) : option (MonthOutcome * list R) :=
  '(grown, tape') ← growStocks scenario (currentStockHoldings h) stocks ∅ tape;
  let monthlyBankRate := interestRate bankAccount / 12 in
  let grownBankHolding := currentBankHolding h * (1 + monthlyBankRate) in
  let valueAfterGrowth := sumValues grown + grownBankHolding in
  let cumulative := cumulativeCapitalInvested h + monthlyDeposit in
  let total := valueAfterGrowth + monthlyDeposit in
  let '(rebalanced, bank) :=
    rebalance total stocks bankAccount targetOverallVolatility correlation
              (currentStockHoldings h) grown in
  let clamped := Rmax 0 <$> rebalanced in
  let currentTotalValue := sumValues clamped + bank in
  Some (mkOutcome grown total
          (mkHoldings clamped bank cumulative)
          (mkState m clamped (JsNumber.round2 bank)
             (JsNumber.round2 currentTotalValue)
             (JsNumber.round2 cumulative)),
        tape').

(** [for (let m = 1; m <= durationInMonths; m++)], with [remaining] the
    number of iterations still to run. *)
Fixpoint monthsLoop (remaining m : nat) (monthlyDeposit : R)
    (stocks : list Stock) (bankAccount : BankAccount)
    (targetOverallVolatility : R) (scenario : ScenarioType) (correlation : R)
    (h : Holdings) (tape : list R) : option (list MonthOutcome) :=
  match remaining with
  | O => Some []
  | S remaining' =>
      '(out, tape') ← monthStep m monthlyDeposit stocks bankAccount
                        targetOverallVolatility scenario correlation h tape;
      outs ← monthsLoop remaining' (S m) monthlyDeposit stocks bankAccount
               targetOverallVolatility scenario correlation (carried out)
               tape';
      Some (out :: outs)
  end.

(** The four [throw]s at the head of [simulateInvestmentStrategy];
    [RandomSourceExhausted] is the model's outcome when the tape of draws
    ends before the run does. *)
Inductive SimulationError : Type :=
| NegativeInitialInvestment
| NegativeMonthlyDeposit
| InvalidDuration
| NoStocksForTargetVolatility
| RandomSourceExhausted.

(** Past the third check [durationInMonths] is an integer that is not
    negative, and the loop runs that many times. *)
Definition simulateTrace (initialInvestment monthlyDeposit : R)
    (stocks : list Stock) (bankAccount : BankAccount)
    (targetOverallVolatility : R) (durationInMonths : R)
    (scenario : ScenarioType) (correlation : R) (tape : list R)
    : Result SimulationError (Holdings * list MonthOutcome) :=
  if decide (initialInvestment < 0) then Thrown NegativeInitialInvestment
  else if decide (monthlyDeposit < 0) then Thrown NegativeMonthlyDeposit
  else if decide (durationInMonths < 0
                  \/ ~ JsNumber.isInteger durationInMonths) then
    Thrown InvalidDuration
  else if decide (length stocks = 0%nat /\ targetOverallVolatility > 0) then
    Thrown NoStocksForTargetVolatility
  else
    let h0 := initialHoldings initialInvestment stocks bankAccount
                targetOverallVolatility correlation in
    match monthsLoop (Z.to_nat (Zfloor durationInMonths)) 1 monthlyDeposit
            stocks bankAccount targetOverallVolatility scenario correlation
            h0 tape
    with
    | Some outs => Ok (h0, outs)
    | None => Thrown RandomSourceExhausted
    end.

(** The returned [history]: the state of month 0, then the state pushed by
    each iteration. *)
Definition simulateInvestmentStrategy (initialInvestment monthlyDeposit : R)
    (stocks : list Stock) (bankAccount : BankAccount)
    (targetOverallVolatility : R) (durationInMonths : R)
    (scenario : ScenarioType) (correlation : R) (tape : list R)
    : Result SimulationError (list MonthlySimulatedPortfolioState) :=
  do run <- simulateTrace initialInvestment monthlyDeposit stocks bankAccount
              targetOverallVolatility durationInMonths scenario correlation
              tape;
  Ok (initialRecord (fst run) :: map recorded (snd run)).

End AdvancedPortfolioSimulator.

(** ** [Number.prototype.toFixed(digits)] for any number of digits *)

Module JsFixed.

(** As [JsNumber.toFixed2_nonneg], with [digits] decimals. *)
Definition toFixed_nonneg (digits : nat) (x : R) : R :=
  if decide (10 ^ 21 <= x) then x
  else IZR (Zfloor (x * 10 ^ digits + / 2)) / 10 ^ digits.

Definition toFixed (digits : nat) (x : R) : R :=
  if decide (x < 0) then - toFixed_nonneg digits (- x)
  else toFixed_nonneg digits x.

(** [parseFloat(x.toFixed(4))]. *)
Definition round4 (x : R) : R := toFixed 4 x.

End JsFixed.

(** ** The single-asset simulator

    Class [StockMarketSimulator] of [src/utils/stock-market-simulator.ts]. *)

Module StockMarketSimulator.

Record MonthlyStockValue : Type := mkMonthly {
  month : nat;
  portfolioValue : R;
  totalAmountInvested : R;
  monthlyReturnApplied : R
}.

Definition BEST_CASE_RETURN_MULTIPLIER : R := 1.5.
Definition BEST_CASE_VOL_MULTIPLIER : R := 0.6.
Definition WORST_CASE_RETURN_MULTIPLIER : R := 0.3.
Definition WORST_CASE_ADDITIONAL_NEGATIVE_BIAS : R := -0.0075.
Definition WORST_CASE_VOL_MULTIPLIER : R := 1.25.

(** The method has the same body as the one of
    [AdvancedPortfolioSimulator]. *)
Definition generateStandardNormalRandom (tape : list R)
    : option (R * list R) :=
  '(u, tape1) ← AdvancedPortfolioSimulator.nextNonZero tape;
  '(v, tape2) ← AdvancedPortfolioSimulator.nextNonZero tape1;
  let num := sqrt (-2.0 * ln u) * cos (2.0 * PI * v) in
  Some (Rmax (-3.5) (Rmin 3.5 num), tape2).

(** The four [throw]s of [simulateInvestment];
    [RandomSourceExhausted] is the model's outcome when the tape of draws
    ends before the run does. *)
Inductive SimulationError : Type :=
| NegativeInitialInvestment
| NegativeMonthlyInvestment
| NegativeVolatility
| InvalidDuration
| RandomSourceExhausted.

(** The [switch (scenario)] followed by [Math.max(-1, ...)]. *)
Definition actualMonthlyReturn (scenario : ScenarioType)
    (monthlyExpectedReturn monthlyVolatility randomFactor : R) : R :=
  let actual :=
    match scenario with
    | BEST =>
        let bestCaseMean :=
          monthlyExpectedReturn * BEST_CASE_RETURN_MULTIPLIER in
        let bestCaseVol := monthlyVolatility * BEST_CASE_VOL_MULTIPLIER in
        bestCaseMean + Rabs randomFactor * bestCaseVol
    | WORST =>
        let worstCaseMean :=
          monthlyExpectedReturn * WORST_CASE_RETURN_MULTIPLIER
          + WORST_CASE_ADDITIONAL_NEGATIVE_BIAS in
        let worstCaseVol := monthlyVolatility * WORST_CASE_VOL_MULTIPLIER in
        worstCaseMean + randomFactor * worstCaseVol
    | AVERAGE => monthlyExpectedReturn + randomFactor * monthlyVolatility
    end in
  Rmax (-1) actual.

(** The two variables carried from one month to the next. *)
Record Running : Type := mkRunning {
  runningValue : R;
  runningInvested : R
}.

(** One iteration of the loop: the deposit, the draw, the return, the
    growth, the floor at 0 and the record pushed. *)
Definition monthStep (m : nat) (monthlyInvestmentAmount : R)
    (monthlyExpectedReturn monthlyVolatility : R) (scenario : ScenarioType)
    (r : Running) (tape : list R)
    : option (MonthlyStockValue * Running * list R) :=
  let portfolioValue1 := runningValue r + monthlyInvestmentAmount in
  let totalAmountInvested := runningInvested r + monthlyInvestmentAmount in
  '(randomFactor, tape') ← generateStandardNormalRandom tape;
  let actual := actualMonthlyReturn scenario monthlyExpectedReturn
                  monthlyVolatility randomFactor in
  let growthAmount := portfolioValue1 * actual in
  let portfolioValue2 := portfolioValue1 + growthAmount in
  let portfolioValue3 := Rmax 0 portfolioValue2 in
  Some (mkMonthly m (JsNumber.round2 portfolioValue3)
          (JsNumber.round2 totalAmountInvested) (JsFixed.round4 actual),
        mkRunning portfolioValue3 totalAmountInvested,
        tape').

Fixpoint monthsLoop (remaining m : nat) (monthlyInvestmentAmount : R)
    (monthlyExpectedReturn monthlyVolatility : R) (scenario : ScenarioType)
    (r : Running) (tape : list R) : option (list MonthlyStockValue) :=
  match remaining with
  | O => Some []
  | S remaining' =>
      '(rec, r', tape') ← monthStep m monthlyInvestmentAmount
                            monthlyExpectedReturn monthlyVolatility scenario
                            r tape;
      rest ← monthsLoop remaining' (S m) monthlyInvestmentAmount
               monthlyExpectedReturn monthlyVolatility scenario r' tape';
      Some (rec :: rest)
  end.

(** Past the fourth check [investmentDurationInMonths] is an integer that
    is not negative, and the loop runs that many times. *)
Definition simulateInvestment (initialInvestmentAmount : R)
    (monthlyInvestmentAmount annualExpectedReturn annualVolatility : R)
    (investmentDurationInMonths : R) (scenario : ScenarioType)
    (tape : list R) : Result SimulationError (list MonthlyStockValue) :=
  if decide (initialInvestmentAmount < 0) then
    Thrown NegativeInitialInvestment
  else if decide (monthlyInvestmentAmount < 0) then
    Thrown NegativeMonthlyInvestment
  else if decide (annualVolatility < 0) then Thrown NegativeVolatility
  else if decide (investmentDurationInMonths < 0
                  \/ ~ JsNumber.isInteger investmentDurationInMonths) then
    Thrown InvalidDuration
  else
    let monthlyExpectedReturn := annualExpectedReturn / 12 in
    let monthlyVolatility := annualVolatility / sqrt 12 in
    let first :=
      mkMonthly 0 (JsNumber.round2 initialInvestmentAmount)
                (JsNumber.round2 initialInvestmentAmount) 0 in
    match monthsLoop (Z.to_nat (Zfloor investmentDurationInMonths)) 1
            monthlyInvestmentAmount monthlyExpectedReturn monthlyVolatility
            scenario
            (mkRunning initialInvestmentAmount initialInvestmentAmount) tape
    with
    | Some rest => Ok (first :: rest)
    | None => Thrown RandomSourceExhausted
    end.

End StockMarketSimulator.

(** ** The bank-only simulator

    Class [BankInvestmentSimulatorWithMonthlyDeposits] of [src/q1.ts]. *)

Module BankInvestmentSimulator.

Record MonthlyInvestmentValue : Type := mkMonthlyValue {
  month : nat;
  value : R;
  totalAmountInvested : R
}.

Definition MIN_ANNUAL_INTEREST_RATE : R := 0.01.
Definition MAX_ANNUAL_INTEREST_RATE : R := 0.0776.

Inductive SimulationError : Type :=
| NegativePrincipal
| NegativeDeposit
| InterestRateOutOfRange
| InvalidNumberOfMonths.

(** [for (let month = 1; month <= numberOfMonths; month++)]. *)
Fixpoint monthsLoop (remaining month : nat)
    (monthlyDepositAmount monthlyInterestRate : R)
    (currentValue totalInvested : R) : list MonthlyInvestmentValue :=
  match remaining with
  | O => []
  | S remaining' =>
      let currentValue1 := currentValue + monthlyDepositAmount in
      let totalInvested1 := totalInvested + monthlyDepositAmount in
      let currentValue2 := currentValue1 * (1 + monthlyInterestRate) in
      mkMonthlyValue month (JsNumber.round2 currentValue2)
                     (JsNumber.round2 totalInvested1)
      :: monthsLoop remaining' (S month) monthlyDepositAmount
           monthlyInterestRate currentValue2 totalInvested1
  end.

(** Past the fourth check [numberOfMonths] is an integer that is not
    negative, and the loop runs that many times. *)
Definition simulateInvestment (initialPrincipalAmount : R)
    (monthlyDepositAmount annualInterestRate : R) (numberOfMonths : R)
    : Result SimulationError (list MonthlyInvestmentValue) :=
  if decide (initialPrincipalAmount < 0) then Thrown NegativePrincipal
  else if decide (monthlyDepositAmount < 0) then Thrown NegativeDeposit
  else if decide (annualInterestRate < MIN_ANNUAL_INTEREST_RATE
                  \/ annualInterestRate > MAX_ANNUAL_INTEREST_RATE) then
    Thrown InterestRateOutOfRange
  else if decide (numberOfMonths < 0 \/ ~ JsNumber.isInteger numberOfMonths)
  then Thrown InvalidNumberOfMonths
  else
    let monthlyInterestRate := annualInterestRate / 12 in
    Ok (mkMonthlyValue 0 (JsNumber.round2 initialPrincipalAmount)
                       (JsNumber.round2 initialPrincipalAmount)
        :: monthsLoop (Z.to_nat (Zfloor numberOfMonths)) 1 monthlyDepositAmount
             monthlyInterestRate initialPrincipalAmount
             initialPrincipalAmount).

End BankInvestmentSimulator.

(** * Vocabulary of the properties

    The definitions below are not part of the source: they name the
    preconditions, the shapes of results and the invariants that the
    properties are stated with, and the sample inputs they are evaluated
    on. *)

Import PortfolioCalculator.
Import AdvancedPortfolioSimulator.

(** ** Allocation *)

(** The preconditions of [calculateAllocation], as the spec lists them. *)
Definition validStock (s : Stock) : Prop :=
  0 < volatility s /\ name s <> EmptyString.

Definition validAllocationInput (totalAmount : R) (stocks : list Stock)
    (bankAccount : BankAccount) (targetPortfolioVolatility correlation : R)
    : Prop :=
  0 <= totalAmount /\ Forall validStock stocks
  /\ MIN_INTEREST_RATE <= interestRate bankAccount <= MAX_INTEREST_RATE
  /\ 0 <= targetPortfolioVolatility
  /\ -1 <= correlation <= 1.

(** The Sharpe ratio of an asset as the spec defines it: the excess of
    its return over the risk-free rate, divided by its volatility. *)
Definition sharpeRatioOf (riskFreeRate : R) (s : Stock) : R :=
  (geometricMean s - riskFreeRate) / volatility s.

(** The weights the comments of [calculateBasketWeights] describe. *)
Definition equalWeights (ratios : list R) : list R :=
  map (fun _ => 1 / INR (length ratios)) ratios.

Definition positiveSharpeWeights (ratios : list R) : list R :=
  map (fun r => if decide (r > 0)
                then r / sumList (filter (fun r => r > 0) ratios) else 0)
      ratios.

(** The result built at the end of [calculateAllocation] from the basket
    weights [ws] and the basket's weight in the portfolio [bw]. *)
Definition allocationWith (totalAmount : R) (stocks : list Stock)
    (bankAccount : BankAccount) (target correlation : R) (ws : list R)
    (bw : R) : PortfolioAllocationResult :=
  let metrics := calculateBasketMetrics stocks ws (interestRate bankAccount)
                   correlation in
  mkAllocation
    (map (fun '(stock, w) =>
            mkStockAlloc (name stock) (totalAmount * bw * w) (w * 100)
                         (w * bw * 100))
         (weighted stocks ws))
    (mkBankAlloc (bankName bankAccount) (totalAmount * (1 - bw))
                 ((1 - bw) * 100))
    (mkMetrics (expectedReturn metrics * 100) (basketVolatility metrics * 100)
               (sharpeRatio metrics))
    (target * 100)
    totalAmount.

(** The result of the empty-list branch: everything in the risk-free
    account, no per-asset entry. *)
Definition riskFreeOnly (bankAccount : BankAccount) (totalAmount weight : R)
    : PortfolioAllocationResult :=
  mkAllocation [] (mkBankAlloc (bankName bankAccount) totalAmount weight)
               (mkMetrics 0 0 (Finite 0)) 0 totalAmount.

(** The allocation call fails, whatever the amount. *)
Definition allocationFails (stocks : list Stock) (bankAccount : BankAccount)
    (targetOverallVolatility correlation : R) : Prop :=
  exists e, forall t, 0 <= t ->
    calculateAllocation t stocks bankAccount targetOverallVolatility
      correlation = Thrown e.

(** The target volatility exceeds the volatility of the basket: the
    basket's weight in the portfolio is above 1 and the risk-free weight
    negative. *)
Definition leveraged (stocks : list Stock) (bankAccount : BankAccount)
    (targetOverallVolatility correlation : R) : Prop :=
  exists ws,
    calculateBasketWeights
      (calculateStockSharpeRatios stocks (interestRate bankAccount)) = Ok ws
    /\ 0 < basketVolatility
             (calculateBasketMetrics stocks ws (interestRate bankAccount)
                correlation)
         < targetOverallVolatility.

(** [Math.sqrt] of a negative number is [NaN], where [sqrt] is [0].  The
    variance that [calculateBasketMetrics] accumulates can be negative
    (three assets or more and a negative correlation), and the source then
    goes on with [NaN]; the embedding follows the source when that
    variance is not negative.  It does not depend on the amount
    allocated. *)
Definition varianceNotNegative (stocks : list Stock)
    (bankAccount : BankAccount) (correlation : R) : Prop :=
  forall ws,
    calculateBasketWeights
      (calculateStockSharpeRatios stocks (interestRate bankAccount)) = Ok ws ->
    0 <= varianceLoop (weighted stocks ws) correlation 0.

(** ** Rounding and draws *)

(** What [toFixed(2)] prints: two decimals, or the number itself from
    [10^21] on. *)
Definition roundedTo2 (v : R) : Prop :=
  JsNumber.two_decimals v \/ 10 ^ 21 <= Rabs v.

(** The number of draws of the tape that the rejection loops keep. *)
Definition nonZeroDraws (tape : list R) : nat :=
  length (filter (fun u => u <> 0) tape).

(** ** Holdings and runs *)

Definition nonnegHoldings (h : gmap string R) : Prop :=
  map_Forall (fun _ v => 0 <= v) h.
Definition zeroedHoldings (h : gmap string R) : Prop :=
  map_Forall (fun _ v => v = 0) h.

(** What the holdings satisfy at the start of every month. *)
Definition holdingsInvariant (stocks : list Stock) (bankAccount : BankAccount)
    (targetOverallVolatility correlation : R) (h : Holdings) : Prop :=
  nonnegHoldings (currentStockHoldings h)
  /\ (allocationFails stocks bankAccount targetOverallVolatility correlation
      -> zeroedHoldings (currentStockHoldings h)).

(** The value of [totalCapitalForReallocation] from the grown holdings. *)
Definition capitalAfterGrowth (monthlyDeposit : R) (bankAccount : BankAccount)
    (h : Holdings) (grown : gmap string R) : R :=
  sumValues grown
  + currentBankHolding h * (1 + interestRate bankAccount / 12)
  + monthlyDeposit.

(** The preconditions of the simulation.  The source rejects an empty
    asset list only together with a positive target volatility. *)
Definition validSimulationInput (initialInvestment monthlyDeposit : R)
    (stocks : list Stock) (targetOverallVolatility : R)
    (durationInMonths : Z) : Prop :=
  0 <= initialInvestment /\ 0 <= monthlyDeposit /\ (0 <= durationInMonths)%Z
  /\ (stocks = [] -> targetOverallVolatility <= 0).

(** The tape holds the draws the run consumes: two kept draws per asset
    and month. *)
Definition enoughDraws (stocks : list Stock) (durationInMonths : Z)
    (tape : list R) : Prop :=
  (2 * length stocks * Z.to_nat durationInMonths <= nonZeroDraws tape)%nat.

(** ** The scenario table of the spec

    Mean, volatility and shock after the scenario's adjustment. *)
Definition adjustedMean (scenario : ScenarioType) (monthlyExpectedReturn : R)
    : R :=
  match scenario with
  | BEST => monthlyExpectedReturn * 1.5
  | WORST => monthlyExpectedReturn * 0.3 - 0.0075
  | AVERAGE => monthlyExpectedReturn
  end.

Definition adjustedVolatility (scenario : ScenarioType)
    (monthlyVolatility : R) : R :=
  match scenario with
  | BEST => monthlyVolatility * 0.6
  | WORST => monthlyVolatility * 1.25
  | AVERAGE => monthlyVolatility
  end.

Definition shock (scenario : ScenarioType) (randomFactor : R) : R :=
  match scenario with
  | BEST => Rabs randomFactor
  | WORST | AVERAGE => randomFactor
  end.

(** What the loop over the assets leaves in [grownStockHoldings] when
    [samples] pairs every asset with the normal sample drawn for it: each
    asset in turn is assigned its holding times one plus its return. *)
Definition grownWith (scenario : ScenarioType) (held : gmap string R)
    (samples : list (Stock * R)) (grown : gmap string R) : gmap string R :=
  fold_left
    (fun g '(s, z) =>
       setProperty (name s)
         (default 0 (held !! name s)
          * (1 + actualMonthlyReturn scenario s z)) g)
    samples grown.

(** The holdings that month [k + 1] starts from: those of month 0 for the
    first month, those carried by the month before for a later one. *)
Definition heldBefore (start : Holdings) (outs : list MonthOutcome)
    (k : nat) : Holdings :=
  match k with
  | O => start
  | S j => default start (carried <$> outs !! j)
  end.

(** ** Sample inputs *)

(** One stock with a return above the bank's rate, and the bank. *)
Definition sampleStock : Stock := mkStock "SMP500" 0.10 0.2.
Definition sampleBank : BankAccount := mkBank "My Savings" 0.03.

(** A stock whose return is below the bank's rate. *)
Definition laggingStock : Stock := mkStock "BONDS" 0.01 0.05.

(** A second stock above the bank's rate, and a second one below it. *)
Definition growthStock : Stock := mkStock "TECH" 0.13 0.4.
Definition decliningStock : Stock := mkStock "CASHX" 0.02 0.1.

(** Three stocks alike, for a call with a negative correlation. *)
Definition alikeStocks : list Stock :=
  [mkStock "ALPHA" 0.10 0.5; mkStock "BETA" 0.10 0.5;
   mkStock "GAMMA" 0.10 0.5].

(** A bank account whose rate is outside the accepted range: every
    allocation call throws and the run falls back month after month. *)
Definition rejectedBank : BankAccount := mkBank "Offshore" 0.2.

(** Draws for two samples; each sample is 0, [cos (2 * PI * 0.25)] being
    0. *)
Definition sampleTape : list R := [0.5; 0.25; 0.5; 0.25].

(** A stock with a negative volatility: [calculateAllocation] rejects it,
    and the simulation, which checks no volatility, falls back month after
    month. *)
Definition shortedStock : Stock := mkStock "SHORT" 0.12 (-0.2).

(** ** Statements of the spec that the code does not satisfy *)

(** In the BEST scenario the return applied to an asset is at least its
    boosted mean. *)
Definition best_return_claim : Prop :=
  forall (stock : Stock) (randomFactor : R),
    -3.5 <= randomFactor <= 3.5 ->
    geometricMean stock / 12 * 1.5
    <= actualMonthlyReturn BEST stock randomFactor.

(** The recorded cumulative capital of month [N] is
    [initialInvestment + N * monthlyDeposit] exactly. *)
Definition capital_exact_claim : Prop :=
  forall (initialInvestment monthlyDeposit : R) (stocks : list Stock)
         (bankAccount : BankAccount) (target : R) (duration : Z)
         (scenario : ScenarioType) (correlation : R) (tape : list R)
         (history : list MonthlySimulatedPortfolioState) (N : nat)
         (st : MonthlySimulatedPortfolioState),
    0 <= initialInvestment -> 0 <= monthlyDeposit -> (0 <= duration)%Z ->
    (stocks = [] -> target = 0) ->
    simulateInvestmentStrategy initialInvestment monthlyDeposit stocks
      bankAccount target (IZR duration) scenario correlation tape
    = Ok history ->
    (N <= Z.to_nat duration)%nat ->
    history !! N = Some st ->
    totalCapitalInvested st = initialInvestment + INR N * monthlyDeposit.


(** No per-asset holding is negative, and a negative risk-free holding at
    month [N] comes after a negative [totalCapitalForReallocation] in one
    of the months up to [N]. *)
Definition negative_bank_claim : Prop :=
  forall (initialInvestment monthlyDeposit : R) (stocks : list Stock)
         (bankAccount : BankAccount) (target : R) (duration : Z)
         (scenario : ScenarioType) (correlation : R) (tape : list R)
         (start : Holdings) (outs : list MonthOutcome) (N : nat)
         (st : MonthlySimulatedPortfolioState),
    0 <= initialInvestment -> 0 <= monthlyDeposit -> (0 <= duration)%Z ->
    (stocks = [] -> target = 0) ->
    simulateTrace initialInvestment monthlyDeposit stocks bankAccount target
      (IZR duration) scenario correlation tape = Ok (start, outs) ->
    (initialRecord start :: map recorded outs) !! N = Some st ->
    map_Forall (fun _ v => 0 <= v) (stockValues st)
    /\ (bankValue st < 0 ->
        exists (k : nat) (out : MonthOutcome),
          (k < N)%nat /\ outs !! k = Some out
          /\ totalCapitalForReallocation out < 0).

(** ** Further vocabulary *)

(** The products [w_i * sigma_i] that the variance is a quadratic form
    of. *)
Definition weightedVolatilities (stocks : list Stock) (ws : list R)
    : list R :=
  map (fun '(stock, w) => w * volatility stock) (weighted stocks ws).

Definition sumSquares (l : list R) : R := sumList (map (fun a => a * a) l).

(** The keys of a holdings object are names of the assets, and
    ["__proto__"] is never one of them. *)
Definition keysAmong (stocks : list Stock) (h : gmap string R) : Prop :=
  forall k v, h !! k = Some v -> k ∈ map name stocks /\ k <> "__proto__".

(** [1 + q + ... + q^(n-1)]. *)
Fixpoint geometricSum (q : R) (n : nat) : R :=
  match n with
  | O => 0
  | S n' => 1 + q * geometricSum q n'
  end.

(** A balance [b] after [m] months at the monthly factor [q], with a
    deposit [d] added at the end of each month. *)
Definition balanceDepositLast (b d q : R) (m : nat) : R :=
  b * q ^ m + d * geometricSum q m.

(** The same with the deposit added at the start of each month, so that it
    earns the month's interest. *)
Definition balanceDepositFirst (b d q : R) (m : nat) : R :=
  b * q ^ m + d * q * geometricSum q m.

(** Holdings that stay at zero while the bank compounds: the state at
    the start of month [m]. *)
Definition bankOnlyHoldings (initialInvestment monthlyDeposit : R)
    (bankAccount : BankAccount) (m : nat) (h : Holdings) : Prop :=
  zeroedHoldings (currentStockHoldings h)
  /\ currentBankHolding h
     = balanceDepositLast initialInvestment monthlyDeposit
         (1 + interestRate bankAccount / 12) (m - 1).

(** The preconditions of the single-asset simulator and of the bank-only
    simulator. *)
Definition validSingleAssetInput (initialInvestmentAmount : R)
    (monthlyInvestmentAmount annualVolatility : R)
    (investmentDurationInMonths : Z) : Prop :=
  0 <= initialInvestmentAmount /\ 0 <= monthlyInvestmentAmount
  /\ 0 <= annualVolatility /\ (0 <= investmentDurationInMonths)%Z.

Definition validBankInput (initialPrincipalAmount monthlyDepositAmount : R)
    (annualInterestRate : R) (numberOfMonths : Z) : Prop :=
  0 <= initialPrincipalAmount /\ 0 <= monthlyDepositAmount
  /\ BankInvestmentSimulator.MIN_ANNUAL_INTEREST_RATE <= annualInterestRate
     <= BankInvestmentSimulator.MAX_ANNUAL_INTEREST_RATE
  /\ (0 <= numberOfMonths)%Z.

(** The single-asset run has the draws it consumes: two kept draws per
    month. *)
Definition enoughDrawsSingle (durationInMonths : Z) (tape : list R) : Prop :=
  (2 * Z.to_nat durationInMonths <= nonZeroDraws tape)%nat.


(** * Properties of the allocation engine *)

(** ** Durations that pass the integer check *)

Section Durations.

Lemma isInteger_IZR (n : Z) : JsNumber.isInteger (IZR n).
Proof. unfold JsNumber.isInteger. rewrite ZfloorZ. reflexivity. Qed.

(** A duration that is an integer and not negative passes the check. *)
Lemma integer_duration (n : Z) :
  (0 <= n)%Z -> ~ (IZR n < 0 \/ ~ JsNumber.isInteger (IZR n)).
Proof.
  intros Hn [Hneg|Hint].
  - apply lt_IZR in Hneg. lia.
  - apply Hint, isInteger_IZR.
Qed.

End Durations.

(** ** Sums of lists of numbers *)

Section Sums.

Lemma fold_left_Rplus_acc (l : list R) (a : R) :
  fold_left Rplus l a = a + sumList l.
Proof.
  unfold sumList. revert a.
  induction l as [|x l IH]; intros a; simpl.
  - lra.
  - rewrite (IH (a + x)), (IH (0 + x)). lra.
Qed.

Lemma sumList_nil : sumList [] = 0.
Proof. reflexivity. Qed.

Lemma sumList_cons (x : R) (l : list R) : sumList (x :: l) = x + sumList l.
Proof.
  unfold sumList at 1. simpl. rewrite fold_left_Rplus_acc. lra.
Qed.

Lemma sumList_map_scale (c : R) (l : list R) :
  sumList (map (fun w => c * w) l) = c * sumList l.
Proof.
  induction l as [|x l IH]; simpl.
  - rewrite sumList_nil. lra.
  - rewrite !sumList_cons, IH. lra.
Qed.

Lemma sumList_map_const {A} (c : R) (l : list A) :
  sumList (map (fun _ => c) l) = INR (length l) * c.
Proof.
  induction l as [|x l IH].
  - simpl. rewrite sumList_nil. lra.
  - cbn [map length]. rewrite sumList_cons, IH, S_INR. lra.
Qed.

Lemma sumList_positive_nonneg (l : list R) :
  0 <= sumList (filter (fun r => r > 0) l).
Proof.
  induction l as [|x l IH].
  - rewrite filter_nil, sumList_nil. lra.
  - rewrite filter_cons. case_decide.
    + rewrite sumList_cons. lra.
    + exact IH.
Qed.

(** The sum of the positive entries vanishes exactly when there is no
    positive entry. *)
Lemma sumList_positive_zero_iff (l : list R) :
  sumList (filter (fun r => r > 0) l) = 0 <-> Forall (fun r => r <= 0) l.
Proof.
  induction l as [|x l IH].
  - split; [constructor | reflexivity].
  - rewrite filter_cons. case_decide as Hx.
    + rewrite sumList_cons.
      pose proof (sumList_positive_nonneg l). split.
      * intros. lra.
      * intros HF. inversion HF; subst. lra.
    + rewrite IH. split.
      * intros HF. constructor; [lra | exact HF].
      * intros HF. inversion HF; subst. assumption.
Qed.

Lemma sumList_map_normalized (S : R) (l : list R) :
  sumList (map (fun r => if decide (r > 0) then r / S else 0) l)
  = sumList (filter (fun r => r > 0) l) / S.
Proof.
  induction l as [|x l IH].
  - cbn [map]. rewrite filter_nil, sumList_nil. lra.
  - cbn [map]. rewrite filter_cons, sumList_cons, IH. cbv beta.
    destruct (decide (x > 0)); [rewrite sumList_cons|]; lra.
Qed.

End Sums.

(** ** Basket weights *)

Section BasketWeights.

Lemma calculateBasketWeights_cases (ratios : list R) :
  calculateBasketWeights ratios =
    Ok (if decide (Forall (fun r => r <= 0) ratios)
        then equalWeights ratios else positiveSharpeWeights ratios).
Proof.
  unfold calculateBasketWeights.
  destruct (decide (sumList (filter (fun r => r > 0) ratios) = 0)) as [H0|H0].
  - apply sumList_positive_zero_iff in H0.
    destruct (decide (Forall (fun r => r <= 0) ratios)); [reflexivity|tauto].
  - rewrite sumList_positive_zero_iff in H0.
    destruct (decide (Forall (fun r => r <= 0) ratios)); [tauto|reflexivity].
Qed.

Lemma degenerate_weights_dead (stocks : list Stock) (riskFreeRate : R) :
  exists ws,
    calculateBasketWeights (calculateStockSharpeRatios stocks riskFreeRate)
    = Ok ws.
Proof. rewrite calculateBasketWeights_cases. eauto. Qed.

Lemma calculateBasketWeights_length (ratios ws : list R) :
  calculateBasketWeights ratios = Ok ws -> length ws = length ratios.
Proof.
  rewrite calculateBasketWeights_cases. intros [= <-].
  case_decide; unfold equalWeights, positiveSharpeWeights;
    apply length_map.
Qed.

Lemma calculateBasketWeights_sum (ratios ws : list R) :
  ratios <> [] ->
  calculateBasketWeights ratios = Ok ws -> sumList ws = 1.
Proof.
  intros Hne. rewrite calculateBasketWeights_cases. intros [= <-].
  case_decide as HF.
  - unfold equalWeights. rewrite sumList_map_const.
    assert (INR (length ratios) <> 0).
    { apply not_0_INR. destruct ratios; [congruence | discriminate]. }
    field. assumption.
  - unfold positiveSharpeWeights. rewrite sumList_map_normalized.
    rewrite <- sumList_positive_zero_iff in HF. field. assumption.
Qed.

Lemma calculateBasketWeights_nonneg (ratios ws : list R) :
  calculateBasketWeights ratios = Ok ws -> Forall (fun w => 0 <= w) ws.
Proof.
  rewrite calculateBasketWeights_cases. intros [= <-].
  case_decide as HF.
  - unfold equalWeights. apply Forall_forall. intros w Hw.
    apply list_elem_of_In, in_map_iff in Hw. destruct Hw as (_ & <- & _).
    unfold Rdiv. rewrite Rmult_1_l.
    destruct (length ratios) as [|n].
    + simpl. rewrite Rinv_0. lra.
    + left. apply Rinv_0_lt_compat, lt_0_INR. lia.
  - unfold positiveSharpeWeights.
    pose proof (sumList_positive_nonneg ratios) as Hs.
    rewrite <- sumList_positive_zero_iff in HF.
    apply Forall_forall. intros w Hw.
    apply list_elem_of_In, in_map_iff in Hw. destruct Hw as (r & <- & _).
    case_decide; [|lra].
    apply Rlt_le, Rdiv_lt_0_compat; lra.
Qed.

End BasketWeights.

(** ** Validation *)

Section Validation.

Lemma validateStocks_ok (stocks : list Stock) :
  validateStocks stocks = Ok tt <-> Forall validStock stocks.
Proof.
  induction stocks as [|s stocks IH]; simpl.
  - split; [constructor | reflexivity].
  - unfold validStock at 1.
    destruct (decide (volatility s <= 0)).
    { split; [discriminate|]. intros HF. inversion HF as [|? ? [? ?]]. lra. }
    destruct (decide (name s = EmptyString)).
    { split; [discriminate|]. intros HF. inversion HF as [|? ? [? ?]]. tauto. }
    rewrite IH. split.
    + intros HF. constructor; [split; [lra | assumption] | assumption].
    + intros HF. inversion HF. assumption.
Qed.

Lemma validateInputs_ok (totalAmount : R) (stocks : list Stock)
    (bankAccount : BankAccount) (targetPortfolioVolatility correlation : R) :
  validateInputs totalAmount stocks bankAccount targetPortfolioVolatility
    correlation = Ok tt
  <-> validAllocationInput totalAmount stocks bankAccount
        targetPortfolioVolatility correlation.
Proof.
  unfold validateInputs, validAllocationInput.
  rewrite <- validateStocks_ok.
  destruct (decide (totalAmount < 0)).
  { split; [discriminate | intros [? _]; lra]. }
  destruct (validateStocks stocks) as [[]|e]; simpl.
  2:{ split; [discriminate | intros (_ & ? & _); discriminate]. }
  destruct (decide _) as [Hr|Hr].
  { split; [discriminate | intros (_ & _ & ? & _); lra]. }
  destruct (decide (targetPortfolioVolatility < 0)).
  { split; [discriminate | intros (_ & _ & _ & ? & _); lra]. }
  destruct (decide _) as [Hc|Hc].
  { split; [discriminate | intros (_ & _ & _ & _ & ?); lra]. }
  split; [|reflexivity]. intros _.
  repeat split; try reflexivity; lra.
Qed.

(** Validation throws nothing but invalid-input errors. *)
Lemma validateStocks_thrown (stocks : list Stock) (e : AllocationError) :
  validateStocks stocks = Thrown e -> isInvalidAllocationInput e.
Proof.
  induction stocks as [|s l IH]; simpl; [discriminate|].
  destruct (decide _); [intros [= <-]; exact I|].
  destruct (decide _); [intros [= <-]; exact I|]. exact IH.
Qed.

Lemma validateInputs_thrown totalAmount stocks bankAccount target correlation
    (e : AllocationError) :
  validateInputs totalAmount stocks bankAccount target correlation = Thrown e ->
  isInvalidAllocationInput e.
Proof.
  unfold validateInputs.
  destruct (decide _); [intros [= <-]; exact I|].
  destruct (validateStocks stocks) as [[]|e'] eqn:Hs; cbn [bind].
  - destruct (decide _); [intros [= <-]; exact I|].
    destruct (decide _); [intros [= <-]; exact I|].
    destruct (decide _); [intros [= <-]; exact I|]. discriminate.
  - intros [= <-]. eapply validateStocks_thrown; eassumption.
Qed.

(** A call that returns has passed validation. *)
Lemma calculateAllocation_validated totalAmount stocks bankAccount
    targetPortfolioVolatility correlation alloc :
  calculateAllocation totalAmount stocks bankAccount
    targetPortfolioVolatility correlation = Ok alloc ->
  validAllocationInput totalAmount stocks bankAccount
    targetPortfolioVolatility correlation.
Proof.
  intros H. apply validateInputs_ok.
  unfold calculateAllocation in H.
  destruct (validateInputs _ _ _ _ _) as [[]|e]; [reflexivity|discriminate].
Qed.

(** Whether validation passes does not depend on the amount, as long as
    the amount is not negative. *)
Lemma validateInputs_amount t1 t2 stocks bankAccount target correlation :
  0 <= t1 -> 0 <= t2 ->
  validateInputs t1 stocks bankAccount target correlation
  = validateInputs t2 stocks bankAccount target correlation.
Proof.
  intros H1 H2. unfold validateInputs.
  destruct (decide (t1 < 0)); [lra|].
  destruct (decide (t2 < 0)); [lra|]. reflexivity.
Qed.

End Validation.

(** ** The shape of a successful allocation *)

Section Allocation.

Implicit Types (totalAmount target correlation bw : R) (stocks : list Stock)
               (bankAccount : BankAccount) (ws : list R).

(** On a non-empty validated list the call is decided by
    [basketWeightInPortfolio] alone. *)
Lemma calculateAllocation_nonempty totalAmount stocks bankAccount target
    correlation ws :
  stocks <> [] ->
  validAllocationInput totalAmount stocks bankAccount target correlation ->
  calculateBasketWeights
    (calculateStockSharpeRatios stocks (interestRate bankAccount)) = Ok ws ->
  calculateAllocation totalAmount stocks bankAccount target correlation
  = match basketWeightInPortfolio
            (calculateBasketMetrics stocks ws (interestRate bankAccount)
               correlation)
            (interestRate bankAccount) target with
    | Ok bw => Ok (allocationWith totalAmount stocks bankAccount target
                     correlation ws bw)
    | Thrown e => Thrown e
    end.
Proof.
  intros Hne Hv Hws. apply validateInputs_ok in Hv.
  unfold calculateAllocation. rewrite Hv. cbn [bind].
  destruct stocks as [|s rest]; [congruence|].
  rewrite Hws. cbn [bind].
  destruct (basketWeightInPortfolio _ _ _) as [bw|e]; cbn [bind];
    [|reflexivity].
  unfold allocationWith. reflexivity.
Qed.

Lemma amounts_of_allocationWith totalAmount stocks bankAccount target
    correlation ws bw :
  length ws = length stocks ->
  map amount (PortfolioCalculator.stocks
                (allocationWith totalAmount stocks bankAccount target
                   correlation ws bw))
  = map (fun w => totalAmount * bw * w) ws.
Proof.
  unfold allocationWith, weighted. cbn. rewrite map_map.
  revert ws. induction stocks as [|s l IH]; intros [|w ws] Hlen;
    try discriminate; [reflexivity|].
  cbn. f_equal. apply IH. simpl in Hlen. lia.
Qed.

Lemma weightsInBasket_of_allocationWith totalAmount stocks bankAccount target
    correlation ws bw :
  length ws = length stocks ->
  map weightInBasket (PortfolioCalculator.stocks
                        (allocationWith totalAmount stocks bankAccount target
                           correlation ws bw))
  = map (fun w => w * 100) ws.
Proof.
  unfold allocationWith, weighted. cbn. rewrite map_map.
  revert ws. induction stocks as [|s l IH]; intros [|w ws] Hlen;
    try discriminate; [reflexivity|].
  cbn. f_equal. apply IH. simpl in Hlen. lia.
Qed.

(** The basket weights behind a returned allocation. *)
Lemma calculateAllocation_weightInBasket totalAmount stocks bankAccount target
    correlation alloc :
  calculateAllocation totalAmount stocks bankAccount target correlation
  = Ok alloc ->
  exists ws,
    calculateBasketWeights
      (calculateStockSharpeRatios stocks (interestRate bankAccount)) = Ok ws
    /\ map weightInBasket (PortfolioCalculator.stocks alloc)
       = map (fun w => w * 100) ws.
Proof.
  intros Hcall.
  pose proof (calculateAllocation_validated _ _ _ _ _ _ Hcall) as Hv.
  destruct (degenerate_weights_dead stocks (interestRate bankAccount))
    as [ws Hws].
  exists ws. split; [exact Hws|].
  destruct stocks as [|s rest].
  - unfold calculateAllocation in Hcall.
    apply validateInputs_ok in Hv. rewrite Hv in Hcall. cbn [bind] in Hcall.
    destruct (decide _); [|discriminate]. injection Hcall as <-.
    apply calculateBasketWeights_length in Hws.
    destruct ws; [reflexivity | discriminate].
  - rewrite (calculateAllocation_nonempty _ _ _ _ _ ws) in Hcall;
      [| discriminate | exact Hv | exact Hws].
    destruct (basketWeightInPortfolio _ _ _) as [bw|e]; [|discriminate].
    injection Hcall as <-.
    apply weightsInBasket_of_allocationWith.
    rewrite (calculateBasketWeights_length _ _ Hws).
    unfold calculateStockSharpeRatios. apply length_map.
Qed.

End Allocation.

(** ** Claims about the allocation engine *)

Section AllocationClaims.

Implicit Types (totalAmount target correlation bw : R) (stocks : list Stock)
               (bankAccount : BankAccount) (ws : list R).

(** C4.  For every asset list that [calculateAllocation] lets through to
    the weight computation (every volatility is positive), the computation
    returns one weight per asset, in order.  With the Sharpe ratio of an
    asset being its excess return over the risk-free rate divided by its
    volatility: when every ratio is [<= 0] each weight is [1/n]; otherwise
    an asset whose ratio is positive has its ratio divided by the sum of
    the positive ratios, and an asset whose ratio is not positive has
    weight exactly [0].  These weights are what a returned allocation
    reports, on the 0-100 scale, as [weightInBasket]. *)
Theorem basket_weights_by_sharpe_ratio stocks bankAccount :
  Forall (fun s => 0 < volatility s) stocks ->
  let ratio := sharpeRatioOf (interestRate bankAccount) in
  let sumPositive := sumList (filter (fun r => r > 0) (map ratio stocks)) in
  let noneAttractive := Forall (fun s => ratio s <= 0) stocks in
  exists ws,
    calculateBasketWeights
      (calculateStockSharpeRatios stocks (interestRate bankAccount)) = Ok ws
    /\ length ws = length stocks
    /\ (forall (i : nat) (s : Stock) (w : R),
          stocks !! i = Some s -> ws !! i = Some w ->
          (noneAttractive -> w = 1 / INR (length stocks))
          /\ (~ noneAttractive -> ratio s > 0 -> w = ratio s / sumPositive)
          /\ (~ noneAttractive -> ratio s <= 0 -> w = 0))
    /\ forall totalAmount target correlation alloc,
         calculateAllocation totalAmount stocks bankAccount target
           correlation = Ok alloc ->
         map weightInBasket (PortfolioCalculator.stocks alloc)
         = map (fun w => w * 100) ws.
Proof.
  intros _ ratio sumPositive noneAttractive.
  assert (Hratios : calculateStockSharpeRatios stocks (interestRate bankAccount)
                    = map ratio stocks) by reflexivity.
  assert (Hall : Forall (fun r => r <= 0) (map ratio stocks)
                 <-> noneAttractive).
  { unfold noneAttractive. change (map ratio stocks) with (ratio <$> stocks).
    apply Forall_fmap. }
  assert (Hlook : forall (f : R -> R) (i : nat) (s : Stock) (w : R),
            stocks !! i = Some s ->
            map f (map ratio stocks) !! i = Some w -> w = f (ratio s)).
  { intros f i s w Hs Hw.
    change (map f (map ratio stocks)) with (f <$> (ratio <$> stocks)) in Hw.
    rewrite !list_lookup_fmap, Hs in Hw. injection Hw as <-. reflexivity. }
  rewrite calculateBasketWeights_cases, Hratios.
  eexists. split; [reflexivity|].
  destruct (decide (Forall (fun r => r <= 0) (map ratio stocks)))
    as [Hnone|Hsome].
  - split; [unfold equalWeights; rewrite !length_map; reflexivity|]. split.
    + intros i s w Hs Hw. unfold equalWeights in Hw.
      apply (Hlook _ _ _ _ Hs) in Hw. rewrite length_map in Hw.
      split; [intros _; exact Hw|]. apply Hall in Hnone.
      split; intros Hn; contradiction.
    + intros totalAmount target correlation alloc Hcall.
      destruct (calculateAllocation_weightInBasket _ _ _ _ _ _ Hcall)
        as (ws & Hws & Hmap).
      rewrite calculateBasketWeights_cases, Hratios in Hws.
      destruct (decide _); [|contradiction].
      injection Hws as <-. exact Hmap.
  - split; [unfold positiveSharpeWeights; rewrite !length_map; reflexivity|].
    split.
    + intros i s w Hs Hw. unfold positiveSharpeWeights in Hw.
      apply (Hlook _ _ _ _ Hs) in Hw. fold sumPositive in Hw.
      split; [intros Hn; exfalso; apply Hsome, Hall, Hn|].
      cbv beta in Hw.
      split; intros _ Hr; destruct (decide (ratio s > 0)); try lra;
        exact Hw.
    + intros totalAmount target correlation alloc Hcall.
      destruct (calculateAllocation_weightInBasket _ _ _ _ _ _ Hcall)
        as (ws & Hws & Hmap).
      rewrite calculateBasketWeights_cases, Hratios in Hws.
      destruct (decide _); [contradiction|].
      injection Hws as <-. exact Hmap.
Qed.

(** C10.  The [DegenerateSharpeWeights] branch is dead: the sum of the
    positive Sharpe ratios is zero exactly when no ratio is positive, all
    ratios are then [<= 0] and the equal weights are returned; the weight
    computation returns for every asset list and [calculateAllocation]
    never throws that error.  (A Sharpe ratio is a real number here, which
    is what the validated precondition [volatility > 0] provides.) *)
Theorem degenerate_sharpe_weights_unreachable totalAmount stocks bankAccount
    target correlation :
  let ratios :=
    calculateStockSharpeRatios stocks (interestRate bankAccount) in
  let sumPositive := sumList (filter (fun r => r > 0) ratios) in
  (sumPositive = 0 <-> Forall (fun r => ~ r > 0) ratios)
  /\ (sumPositive = 0 ->
      Forall (fun r => r <= 0) ratios
      /\ calculateBasketWeights ratios
         = Ok (map (fun _ => 1 / INR (length ratios)) ratios))
  /\ (exists ws, calculateBasketWeights ratios = Ok ws)
  /\ calculateAllocation totalAmount stocks bankAccount target correlation
     <> Thrown DegenerateSharpeWeights.
Proof.
  intros ratios sumPositive. split; [|split; [|split]].
  - unfold sumPositive. rewrite sumList_positive_zero_iff.
    split; intros H; (eapply Forall_impl; [exact H|]);
      intros r Hr; simpl in Hr; simpl; lra.
  - intros H. apply sumList_positive_zero_iff in H. split; [exact H|].
    rewrite calculateBasketWeights_cases.
    destruct (decide _); [reflexivity | tauto].
  - rewrite calculateBasketWeights_cases. eauto.
  - unfold calculateAllocation.
    destruct (validateInputs _ _ _ _ _) as [[]|e] eqn:Hv; cbn [bind].
    2:{ intros [= ->]. apply validateInputs_thrown in Hv. exact Hv. }
    destruct stocks as [|s rest].
    + destruct (decide _); discriminate.
    + rewrite calculateBasketWeights_cases. cbn [bind].
      unfold basketWeightInPortfolio.
      repeat (destruct (decide _); cbn [bind]; try discriminate).
Qed.

(** C6.  With an empty asset list that passes validation: target
    volatility 0 puts the whole amount in the risk-free account, with
    weight 100 when the amount is positive and 0 when it is zero, and no
    per-asset entry; a positive target volatility fails with the
    unachievable-volatility error. *)
Theorem empty_asset_list totalAmount bankAccount target correlation :
  validAllocationInput totalAmount [] bankAccount target correlation ->
  (target = 0 -> totalAmount > 0 ->
   calculateAllocation totalAmount [] bankAccount target correlation
   = Ok (riskFreeOnly bankAccount totalAmount 100))
  /\ (target = 0 -> totalAmount = 0 ->
      calculateAllocation totalAmount [] bankAccount target correlation
      = Ok (riskFreeOnly bankAccount totalAmount 0))
  /\ (target > 0 ->
      exists e,
        calculateAllocation totalAmount [] bankAccount target correlation
        = Thrown e
        /\ isUnachievableVolatility e).
Proof.
  intros Hv. apply validateInputs_ok in Hv.
  unfold calculateAllocation. rewrite Hv. cbn [bind].
  repeat split.
  - intros -> Ht. destruct (decide (0 = 0)); [|lra].
    destruct (decide (totalAmount > 0)); [reflexivity|lra].
  - intros -> ->. destruct (decide (0 = 0)); [|lra].
    destruct (decide (0 > 0)); [lra|reflexivity].
  - intros Ht. destruct (decide (target = 0)); [lra|].
    eexists; split; [reflexivity | exact I].
Qed.

Lemma empty_asset_list_witness :
  validAllocationInput 1000 [] (mkBank "Savings" 0.03) 0 0.6
  /\ calculateAllocation 1000 [] (mkBank "Savings" 0.03) 0 0.6
     = Ok (riskFreeOnly (mkBank "Savings" 0.03) 1000 100).
Proof.
  assert (Hv : validAllocationInput 1000 [] (mkBank "Savings" 0.03) 0 0.6).
  { unfold validAllocationInput, MIN_INTEREST_RATE, MAX_INTEREST_RATE. simpl.
    repeat split; try lra. constructor. }
  split; [exact Hv|].
  apply (empty_asset_list 1000 (mkBank "Savings" 0.03) 0 0.6 Hv);
    [reflexivity | lra].
Defined.

(** C5.  On a non-empty validated asset list: when the basket volatility
    is positive the basket's weight in the portfolio is
    [target / basketVolatility] (it may exceed 1); when the basket
    volatility is 0 and the target is 0 the weight is 1 if the basket's
    expected return exceeds the risk-free rate and 0 otherwise; when the
    basket volatility is 0 and the target is not, the call fails with the
    unachievable-volatility error.  The risk-free weight of a returned
    allocation is 1 minus the basket's weight. *)
Theorem basket_weight_in_portfolio totalAmount stocks bankAccount target
    correlation :
  stocks <> [] ->
  validAllocationInput totalAmount stocks bankAccount target correlation ->
  exists ws,
    calculateBasketWeights
      (calculateStockSharpeRatios stocks (interestRate bankAccount)) = Ok ws
    /\ let metrics := calculateBasketMetrics stocks ws
                        (interestRate bankAccount) correlation in
       let call := calculateAllocation totalAmount stocks bankAccount target
                     correlation in
       let returns bw :=
         call = Ok (allocationWith totalAmount stocks bankAccount target
                      correlation ws bw)
         /\ bankWeightInTotal
              (bankAllocation
                 (allocationWith totalAmount stocks bankAccount target
                    correlation ws bw)) = (1 - bw) * 100 in
       (basketVolatility metrics > 0 ->
        returns (target / basketVolatility metrics))
       /\ (basketVolatility metrics = 0 -> target = 0 ->
           expectedReturn metrics > interestRate bankAccount -> returns 1)
       /\ (basketVolatility metrics = 0 -> target = 0 ->
           expectedReturn metrics <= interestRate bankAccount -> returns 0)
       /\ (basketVolatility metrics = 0 -> target <> 0 ->
           exists e, call = Thrown e /\ isUnachievableVolatility e).
Proof.
  intros Hne Hv.
  destruct (degenerate_weights_dead stocks (interestRate bankAccount))
    as [ws Hws].
  exists ws. split; [exact Hws|]. cbv zeta.
  rewrite (calculateAllocation_nonempty _ _ _ _ _ ws Hne Hv Hws).
  unfold basketWeightInPortfolio.
  repeat split.
  - destruct (decide _); [lra | reflexivity].
  - destruct (decide _); [|lra].
    destruct (decide _); [|lra].
    destruct (decide _); [reflexivity|lra].
  - destruct (decide _); [|lra].
    destruct (decide _); [|lra].
    destruct (decide _); [lra|reflexivity].
  - destruct (decide _); [|lra].
    destruct (decide _); [lra|].
    eexists; split; [reflexivity | exact I].
Qed.

End AllocationClaims.

(** ** A basket of one stock *)

Section SingleStock.

Lemma calculateBasketWeights_single (r : R) :
  calculateBasketWeights [r] = Ok [1].
Proof.
  destruct (calculateBasketWeights [r]) as [ws|e] eqn:H.
  - pose proof (calculateBasketWeights_length _ _ H) as Hlen.
    assert (Hsum : sumList ws = 1).
    { apply (calculateBasketWeights_sum [r]); [discriminate | exact H]. }
    destruct ws as [|w [|w' ws]]; try discriminate.
    rewrite sumList_cons, sumList_nil in Hsum.
    do 2 f_equal. lra.
  - rewrite calculateBasketWeights_cases in H. discriminate.
Qed.

Lemma single_stock_metrics (s : Stock) (riskFreeRate correlation : R) :
  0 <= volatility s ->
  expectedReturn (calculateBasketMetrics [s] [1] riskFreeRate correlation)
  = geometricMean s
  /\ basketVolatility
       (calculateBasketMetrics [s] [1] riskFreeRate correlation)
     = volatility s.
Proof.
  intros Hv. unfold calculateBasketMetrics, weighted. cbn. split.
  - lra.
  - replace (0 + 1 * (1 * 1) * (volatility s * (volatility s * 1)))
      with (volatility s * volatility s) by lra.
    apply sqrt_square. exact Hv.
Qed.

(** The allocation of an amount between one valid stock and the bank. *)
Lemma single_stock_allocation (totalAmount : R) (s : Stock)
    (bankAccount : BankAccount) (target correlation : R) :
  validAllocationInput totalAmount [s] bankAccount target correlation ->
  calculateAllocation totalAmount [s] bankAccount target correlation
  = Ok (allocationWith totalAmount [s] bankAccount target correlation [1]
          (target / volatility s)).
Proof.
  intros Hv.
  assert (Hs : 0 < volatility s).
  { destruct Hv as (_ & HF & _). inversion HF as [|? ? [? ?]]. assumption. }
  rewrite (calculateAllocation_nonempty _ _ _ _ _ [1]);
    [| discriminate | exact Hv | apply calculateBasketWeights_single].
  unfold basketWeightInPortfolio.
  destruct (single_stock_metrics s (interestRate bankAccount) correlation)
    as [_ Hvol]; [lra|].
  rewrite Hvol.
  destruct (decide (volatility s = 0)); [lra|]. reflexivity.
Qed.

End SingleStock.

(** ** Sums of a returned allocation *)

Section AllocationSums.

(** The sums of a returned allocation.  When the variance of the basket
    is not negative and [calculateAllocation] returns (its preconditions
    then hold), the per-asset amounts sum to [totalAmount] times the
    basket's weight in the portfolio, and the per-asset amounts plus the
    risk-free amount sum to [totalAmount]; both hold exactly in real
    arithmetic, hence within the tolerances 1e-6 (relative) and 1e-6.
    With no asset there is no basket and the amounts sum to 0. *)
Theorem allocation_amounts_sum (totalAmount : R) (stocks : list Stock)
    (bankAccount : BankAccount) (target correlation : R)
    (alloc : PortfolioAllocationResult) :
  varianceNotNegative stocks bankAccount correlation ->
  calculateAllocation totalAmount stocks bankAccount target correlation
  = Ok alloc ->
  validAllocationInput totalAmount stocks bankAccount target correlation
  /\ exists basketWeight : R,
       let stockTotal :=
         sumList (map amount (PortfolioCalculator.stocks alloc)) in
       (match stocks with
        | [] => basketWeight = 0
        | _ :: _ =>
            exists ws,
              calculateBasketWeights
                (calculateStockSharpeRatios stocks (interestRate bankAccount))
              = Ok ws
              /\ basketWeightInPortfolio
                   (calculateBasketMetrics stocks ws
                      (interestRate bankAccount) correlation)
                   (interestRate bankAccount) target
                 = Ok basketWeight
        end)
       /\ stockTotal = totalAmount * basketWeight
       /\ Rabs (stockTotal - totalAmount * basketWeight)
          <= 1e-6 * Rabs (totalAmount * basketWeight)
       /\ stockTotal + bankAmount (bankAllocation alloc) = totalAmount
       /\ Rabs (stockTotal + bankAmount (bankAllocation alloc) - totalAmount)
          <= 1e-6.
Proof.
  intros _ Hcall.
  pose proof (calculateAllocation_validated _ _ _ _ _ _ Hcall) as Hv.
  split; [exact Hv|].
  assert (Hexact : forall x y : R, x = y -> Rabs (x - y) <= 1e-6 * Rabs y).
  { intros x y ->. replace (y - y) with 0 by lra. rewrite Rabs_R0.
    pose proof (Rabs_pos y). nra. }
  assert (Hexact' : forall x y : R, x = y -> Rabs (x - y) <= 1e-6).
  { intros x y ->. replace (y - y) with 0 by lra. rewrite Rabs_R0. lra. }
  destruct stocks as [|s rest].
  - exists 0. unfold calculateAllocation in Hcall.
    apply validateInputs_ok in Hv. rewrite Hv in Hcall. cbn [bind] in Hcall.
    destruct (decide _); [|discriminate]. injection Hcall as <-.
    cbn [PortfolioCalculator.stocks bankAllocation bankAmount map].
    rewrite sumList_nil.
    assert (E1 : 0 = totalAmount * 0) by lra.
    assert (E2 : 0 + totalAmount = totalAmount) by lra.
    auto 10.
  - destruct (degenerate_weights_dead (s :: rest) (interestRate bankAccount))
      as [ws Hws].
    rewrite (calculateAllocation_nonempty _ _ _ _ _ ws) in Hcall;
      [| discriminate | exact Hv | exact Hws].
    destruct (basketWeightInPortfolio _ _ _) as [bw|e] eqn:Hbw;
      [|discriminate].
    injection Hcall as <-. exists bw. cbv zeta.
    split; [exists ws; split; [exact Hws | exact Hbw]|].
    assert (Hlen : length ws = length (s :: rest)).
    { rewrite (calculateBasketWeights_length _ _ Hws).
      unfold calculateStockSharpeRatios. apply length_map. }
    assert (Hsum : sumList ws = 1).
    { eapply calculateBasketWeights_sum; [|exact Hws].
      unfold calculateStockSharpeRatios. discriminate. }
    rewrite (amounts_of_allocationWith _ _ _ _ _ _ _ Hlen).
    rewrite sumList_map_scale, Hsum.
    assert (E1 : totalAmount * bw * 1 = totalAmount * bw) by lra.
    assert (E2 : totalAmount * bw * 1
                 + bankAmount
                     (bankAllocation
                        (allocationWith totalAmount (s :: rest) bankAccount
                           target correlation ws bw)) = totalAmount).
    { cbn. lra. }
    auto 10.
Qed.

Lemma sample_inputs_valid (totalAmount target : R) :
  0 <= totalAmount -> 0 <= target ->
  validAllocationInput totalAmount [sampleStock] sampleBank target 0.6.
Proof.
  intros Ht Hv.
  unfold validAllocationInput, validStock, MIN_INTEREST_RATE,
    MAX_INTEREST_RATE. simpl.
  repeat split; try lra.
  constructor; [|constructor]. split; [simpl; lra | discriminate].
Qed.

(** The variance of a basket of one asset is a square. *)
Lemma single_stock_variance (s : Stock) (bankAccount : BankAccount)
    (correlation : R) :
  varianceNotNegative [s] bankAccount correlation.
Proof.
  intros ws Hws.
  assert (E : calculateBasketWeights
                (calculateStockSharpeRatios [s] (interestRate bankAccount))
              = Ok [1]) by apply calculateBasketWeights_single.
  assert (ws = [1]) as -> by congruence.
  cbn. nra.
Qed.

(** C1 fails on the code at this input.  Three assets of volatility 0.5
    and a correlation of -0.6 pass every check of [validateInputs]; each
    asset has the basket weight 1/3, and the variance accumulated by the
    double loop of [calculateBasketMetrics] is -1/60.  The source hands
    it to [Math.sqrt], and every amount it returns is [NaN]. *)
Theorem negative_variance_input :
  validAllocationInput 1000 alikeStocks sampleBank 0.1 (-0.6)
  /\ validateInputs 1000 alikeStocks sampleBank 0.1 (-0.6) = Ok tt
  /\ calculateBasketWeights
       (calculateStockSharpeRatios alikeStocks (interestRate sampleBank))
     = Ok [1 / 3; 1 / 3; 1 / 3]
  /\ varianceLoop (weighted alikeStocks [1 / 3; 1 / 3; 1 / 3]) (-0.6) 0
     = - (1 / 60)
  /\ ~ varianceNotNegative alikeStocks sampleBank (-0.6).
Proof.
  assert (Hv : validAllocationInput 1000 alikeStocks sampleBank 0.1 (-0.6)).
  { unfold validAllocationInput, validStock, MIN_INTEREST_RATE,
      MAX_INTEREST_RATE, alikeStocks. simpl.
    repeat split; try lra.
    repeat constructor; simpl; try lra; discriminate. }
  assert (Hw : calculateBasketWeights
                 (calculateStockSharpeRatios alikeStocks
                    (interestRate sampleBank))
               = Ok [1 / 3; 1 / 3; 1 / 3]).
  { rewrite calculateBasketWeights_cases.
    unfold calculateStockSharpeRatios, alikeStocks.
    cbn [map geometricMean volatility interestRate sampleBank].
    destruct (decide _) as [HF|_].
    { exfalso. inversion HF as [|? ? H1 _]. lra. }
    unfold positiveSharpeWeights.
    rewrite filter_cons. destruct (decide _) as [_|H]; [|exfalso; lra].
    rewrite filter_cons. destruct (decide _) as [_|H]; [|exfalso; lra].
    rewrite filter_cons. destruct (decide _) as [_|H]; [|exfalso; lra].
    rewrite filter_nil, !sumList_cons, sumList_nil. cbn [map].
    destruct (decide _) as [_|H]; [|exfalso; lra].
    do 2 f_equal; [lra|]. f_equal; [lra|]. f_equal. lra. }
  assert (Hvar : varianceLoop (weighted alikeStocks [1 / 3; 1 / 3; 1 / 3])
                   (-0.6) 0 = - (1 / 60)).
  { unfold alikeStocks, weighted. cbn. lra. }
  split; [exact Hv|]. split; [apply validateInputs_ok, Hv|].
  split; [exact Hw|]. split; [exact Hvar|].
  intros Hnn. specialize (Hnn _ Hw). rewrite Hvar in Hnn. lra.
Qed.

Lemma basket_weights_by_sharpe_ratio_witness :
  Forall (fun s => 0 < volatility s) [sampleStock; growthStock; laggingStock]
  /\ Forall (fun s => 0 < volatility s) [laggingStock; decliningStock]
  /\ (exists ws,
     calculateBasketWeights
       (calculateStockSharpeRatios [sampleStock; growthStock; laggingStock]
          (interestRate sampleBank)) = Ok ws
     /\ ws = [7 / 12; 5 / 12; 0])
  /\ exists ws,
       calculateBasketWeights
         (calculateStockSharpeRatios [laggingStock; decliningStock]
            (interestRate sampleBank)) = Ok ws
       /\ ws = [1 / 2; 1 / 2].
Proof.
  assert (Hv1 : Forall (fun s => 0 < volatility s)
                  [sampleStock; growthStock; laggingStock])
    by (repeat constructor; simpl; lra).
  assert (Hv2 : Forall (fun s => 0 < volatility s)
                  [laggingStock; decliningStock])
    by (repeat constructor; simpl; lra).
  split; [exact Hv1|]. split; [exact Hv2|]. split.
  - destruct (basket_weights_by_sharpe_ratio
                [sampleStock; growthStock; laggingStock] sampleBank Hv1)
      as (ws & Hws & Hlen & Hw & _).
    exists ws. split; [exact Hws|].
    destruct ws as [|w1 [|w2 [|w3 [|w4 ws]]]]; try discriminate Hlen.
    assert (Hsome : ~ Forall (fun s => sharpeRatioOf (interestRate sampleBank)
                                          s <= 0)
                      [sampleStock; growthStock; laggingStock]).
    { intros HF. inversion HF as [|? ? H1 _]. unfold sharpeRatioOf in H1.
      simpl in H1. lra. }
    assert (Hsum : sumList
                     (filter (fun r => r > 0)
                        (map (sharpeRatioOf (interestRate sampleBank))
                           [sampleStock; growthStock; laggingStock]))
                   = 0.35 + 0.25).
    { unfold sharpeRatioOf. cbn [map geometricMean volatility interestRate
                                 sampleStock growthStock laggingStock
                                 sampleBank].
      rewrite filter_cons. destruct (decide _) as [_|H]; [|exfalso; lra].
      rewrite filter_cons. destruct (decide _) as [_|H]; [|exfalso; lra].
      rewrite filter_cons. destruct (decide _) as [H|_]; [exfalso; lra|].
      rewrite filter_nil, !sumList_cons, sumList_nil. lra. }
    destruct (Hw 0%nat sampleStock w1 eq_refl eq_refl) as (_ & H1 & _).
    destruct (Hw 1%nat growthStock w2 eq_refl eq_refl) as (_ & H2 & _).
    destruct (Hw 2%nat laggingStock w3 eq_refl eq_refl) as (_ & _ & H3).
    rewrite Hsum in H1, H2.
    assert (E1 : w1 = 7 / 12).
    { rewrite H1; [| exact Hsome | unfold sharpeRatioOf; simpl; lra].
      unfold sharpeRatioOf.
      cbn [geometricMean volatility interestRate sampleStock sampleBank].
      lra. }
    assert (E2 : w2 = 5 / 12).
    { rewrite H2; [| exact Hsome | unfold sharpeRatioOf; simpl; lra].
      unfold sharpeRatioOf.
      cbn [geometricMean volatility interestRate growthStock sampleBank].
      lra. }
    assert (E3 : w3 = 0).
    { apply H3; [exact Hsome | unfold sharpeRatioOf; simpl; lra]. }
    rewrite E1, E2, E3. reflexivity.
  - destruct (basket_weights_by_sharpe_ratio [laggingStock; decliningStock]
                sampleBank Hv2) as (ws & Hws & Hlen & Hw & _).
    exists ws. split; [exact Hws|].
    destruct ws as [|w1 [|w2 [|w3 ws]]]; try discriminate Hlen.
    assert (Hnone : Forall (fun s => sharpeRatioOf (interestRate sampleBank)
                                       s <= 0)
                      [laggingStock; decliningStock]).
    { repeat constructor; unfold sharpeRatioOf; simpl; lra. }
    destruct (Hw 0%nat laggingStock w1 eq_refl eq_refl) as (H1 & _).
    destruct (Hw 1%nat decliningStock w2 eq_refl eq_refl) as (H2 & _).
    rewrite (H1 Hnone), (H2 Hnone).
    change (INR (length [laggingStock; decliningStock])) with (1 + 1).
    replace (1 / (1 + 1)) with (1 / 2) by lra. reflexivity.
Defined.

Lemma basket_weight_in_portfolio_witness :
  [sampleStock] <> []
  /\ validAllocationInput 1000 [sampleStock] sampleBank 0.1 0.6
  /\ calculateAllocation 1000 [sampleStock] sampleBank 0.1 0.6
     = Ok (allocationWith 1000 [sampleStock] sampleBank 0.1 0.6 [1]
             (0.1 / 0.2)).
Proof.
  assert (Hne : [sampleStock] <> []) by discriminate.
  assert (Hv : validAllocationInput 1000 [sampleStock] sampleBank 0.1 0.6)
    by (apply sample_inputs_valid; lra).
  split; [exact Hne|]. split; [exact Hv|].
  destruct (basket_weight_in_portfolio 1000 [sampleStock] sampleBank 0.1 0.6
              Hne Hv) as (ws & Hws & Hpos & _).
  assert (E : calculateBasketWeights
                (calculateStockSharpeRatios [sampleStock]
                   (interestRate sampleBank)) = Ok [1])
    by apply calculateBasketWeights_single.
  assert (ws = [1]) as -> by congruence.
  destruct (single_stock_metrics sampleStock (interestRate sampleBank) 0.6)
    as [_ Hvol]; [simpl; lra|].
  rewrite Hvol in Hpos. apply Hpos. simpl. lra.
Defined.

Lemma degenerate_sharpe_weights_unreachable_witness :
  sumList (filter (fun r => r > 0)
             (calculateStockSharpeRatios [laggingStock]
                (interestRate sampleBank))) = 0
  /\ calculateBasketWeights
       (calculateStockSharpeRatios [laggingStock] (interestRate sampleBank))
     = Ok [1 / INR 1].
Proof.
  assert (H0 : sumList (filter (fun r => r > 0)
                          (calculateStockSharpeRatios [laggingStock]
                             (interestRate sampleBank))) = 0).
  { cbn [calculateStockSharpeRatios map]. rewrite filter_cons.
    destruct (decide _) as [Hpos|_]; [simpl in Hpos; lra|].
    rewrite filter_nil. apply sumList_nil. }
  split; [exact H0|].
  destruct (degenerate_sharpe_weights_unreachable 1000 [laggingStock]
              sampleBank 0.1 0.6) as (_ & Hequal & _).
  destruct (Hequal H0) as [_ Hw]. exact Hw.
Defined.

End AllocationSums.

(** * Properties of the simulation *)

(** ** Rounding to two decimals *)

Section Rounding.

Import JsNumber.

Lemma toFixed2_nonneg_nonneg (x : R) : 0 <= x -> 0 <= toFixed2_nonneg x.
Proof.
  intros Hx. unfold toFixed2_nonneg. destruct (decide _); [exact Hx|].
  assert (H : (0 <= Zfloor (x * 100 + / 2))%Z) by (apply Zfloor_lub; lra).
  apply IZR_le in H. lra.
Qed.

Lemma round2_nonneg (x : R) : 0 <= x -> 0 <= round2 x.
Proof.
  intros Hx. unfold round2, toFixed2. destruct (decide _); [lra|].
  apply toFixed2_nonneg_nonneg. exact Hx.
Qed.

(** A rounded value is negative only if the value was. *)
Lemma round2_negative (x : R) : round2 x < 0 -> x < 0.
Proof.
  intros H. destruct (Rlt_le_dec x 0) as [Hx|Hx]; [exact Hx|].
  pose proof (round2_nonneg x Hx). lra.
Qed.

Lemma toFixed2_nonneg_hundredth (n : Z) :
  toFixed2_nonneg (IZR n / 100) = IZR n / 100.
Proof.
  unfold toFixed2_nonneg. destruct (decide _); [reflexivity|].
  rewrite (Zfloor_eq n); [reflexivity|]. lra.
Qed.

(** Rounding leaves a number with at most two decimals unchanged. *)
Lemma round2_two_decimals (x : R) : two_decimals x -> round2 x = x.
Proof.
  intros [n ->]. unfold round2, toFixed2. destruct (decide _).
  - replace (- (IZR n / 100)) with (IZR (- n) / 100)
      by (rewrite opp_IZR; lra).
    rewrite toFixed2_nonneg_hundredth, opp_IZR. lra.
  - apply toFixed2_nonneg_hundredth.
Qed.

Lemma toFixed2_nonneg_rounded (x : R) :
  0 <= x -> two_decimals (toFixed2_nonneg x) \/ 10 ^ 21 <= toFixed2_nonneg x.
Proof.
  intros Hx. unfold toFixed2_nonneg. destruct (decide _); [right; assumption|].
  left. eexists. reflexivity.
Qed.

Lemma round2_rounded (x : R) : roundedTo2 (round2 x).
Proof.
  unfold roundedTo2, round2, toFixed2. destruct (decide (x < 0)) as [Hx|Hx].
  - destruct (toFixed2_nonneg_rounded (- x)) as [[n Hn]|H]; [lra | |].
    + left. exists (- n)%Z. rewrite Hn, opp_IZR. lra.
    + right. rewrite Rabs_Ropp, Rabs_pos_eq; [exact H|].
      apply toFixed2_nonneg_nonneg. lra.
  - destruct (toFixed2_nonneg_rounded x) as [H|H]; [lra | left; exact H |].
    right. rewrite Rabs_pos_eq; [exact H|].
    apply toFixed2_nonneg_nonneg. lra.
Qed.

(** Evaluation of the rounding on a given number. *)
Lemma round2_eval (n : Z) (x : R) :
  0 <= x -> x < 10 ^ 21 -> IZR n <= x * 100 + / 2 < IZR n + 1 ->
  round2 x = IZR n / 100.
Proof.
  intros H0 H21 Hn. unfold round2, toFixed2, toFixed2_nonneg.
  destruct (decide (x < 0)); [lra|].
  destruct (decide (10 ^ 21 <= x)); [lra|].
  rewrite (Zfloor_eq n); [reflexivity | exact Hn].
Qed.


End Rounding.

(** ** Monotonicity and error of the rounding *)

Section MoreRounding.

Import JsNumber JsFixed.

Lemma pow10_pos (d : nat) : 0 < 10 ^ d.
Proof. apply pow_lt. lra. Qed.

Lemma toFixed_nonneg_nonneg (d : nat) (x : R) :
  0 <= x -> 0 <= toFixed_nonneg d x.
Proof.
  intros Hx. unfold toFixed_nonneg. destruct (decide _); [exact Hx|].
  pose proof (pow10_pos d) as Hp.
  assert (H : (0 <= Zfloor (x * 10 ^ d + / 2))%Z).
  { apply Zfloor_lub. assert (0 <= x * 10 ^ d) by (apply Rmult_le_pos; lra).
    lra. }
  apply IZR_le in H. apply Rmult_le_pos; [exact H|].
  apply Rlt_le, Rinv_0_lt_compat, Hp.
Qed.

Lemma toFixed_nonneg_mono (d : nat) (x y : R) :
  0 <= x -> x <= y -> toFixed_nonneg d x <= toFixed_nonneg d y.
Proof.
  intros Hx Hxy. unfold toFixed_nonneg.
  pose proof (pow10_pos d) as Hp.
  destruct (decide (10 ^ 21 <= x)) as [Hbx|Hbx];
    destruct (decide (10 ^ 21 <= y)) as [Hby|Hby]; try lra.
  - (* x below the threshold, y above *)
    apply Rle_trans with (10 ^ 21); [|exact Hby].
    assert (Hz : (Zfloor (x * 10 ^ d + / 2)
                  <= 10 ^ Z.of_nat (21 + d))%Z).
    { rewrite <- (Zfloor_eq (10 ^ Z.of_nat (21 + d))
                    (10 ^ 21 * 10 ^ d + / 2)).
      - apply Zfloor_le. apply Rplus_le_compat_r.
        apply Rmult_le_compat_r; lra.
      - rewrite <- pow_IZR, pow_add. lra. }
    apply IZR_le in Hz. rewrite <- pow_IZR, pow_add in Hz.
    apply (Rmult_le_reg_r (10 ^ d)); [exact Hp|].
    unfold Rdiv. rewrite Rmult_assoc, Rinv_l by lra. lra.
  - apply Rmult_le_compat_r; [apply Rlt_le, Rinv_0_lt_compat, Hp|].
    apply IZR_le, Zfloor_le. apply Rplus_le_compat_r.
    apply Rmult_le_compat_r; lra.
Qed.

(** [toFixed] never reverses the order of two numbers. *)
Lemma toFixed_mono (d : nat) (x y : R) :
  x <= y -> toFixed d x <= toFixed d y.
Proof.
  intros Hxy. unfold toFixed.
  destruct (decide (x < 0)) as [Hx|Hx]; destruct (decide (y < 0)) as [Hy|Hy].
  - apply Ropp_le_contravar, toFixed_nonneg_mono; lra.
  - pose proof (toFixed_nonneg_nonneg d (- x) ltac:(lra)).
    pose proof (toFixed_nonneg_nonneg d y ltac:(lra)). lra.
  - lra.
  - apply toFixed_nonneg_mono; lra.
Qed.

Lemma round2_toFixed (x : R) : round2 x = toFixed 2 x.
Proof.
  unfold round2, toFixed2, toFixed, toFixed2_nonneg, toFixed_nonneg.
  assert (E : 10 ^ 2 = 100) by lra. rewrite E. reflexivity.
Qed.

Lemma round2_mono (x y : R) : x <= y -> round2 x <= round2 y.
Proof. intros H. rewrite !round2_toFixed. apply toFixed_mono, H. Qed.

Lemma toFixed_nonneg_error (d : nat) (x : R) :
  0 <= x -> Rabs (toFixed_nonneg d x - x) <= / 2 / 10 ^ d.
Proof.
  intros Hx. unfold toFixed_nonneg.
  pose proof (pow10_pos d) as Hp.
  assert (Hh : 0 < / 2 / 10 ^ d).
  { apply Rmult_lt_0_compat; [lra | apply Rinv_0_lt_compat, Hp]. }
  destruct (decide _).
  - replace (x - x) with 0 by lra. rewrite Rabs_R0. lra.
  - pose proof (Zfloor_bound (x * 10 ^ d + / 2)) as [Hl Hu].
    set (fl := IZR (Zfloor (x * 10 ^ d + / 2))) in *.
    assert (E : fl / 10 ^ d - x = (fl - x * 10 ^ d) / 10 ^ d)
      by (field; lra).
    rewrite E. unfold Rdiv at 1. rewrite Rabs_mult.
    rewrite (Rabs_pos_eq (/ 10 ^ d))
      by (apply Rlt_le, Rinv_0_lt_compat, Hp).
    apply Rmult_le_compat_r; [apply Rlt_le, Rinv_0_lt_compat, Hp|].
    apply Rabs_le. lra.
Qed.

(** [toFixed(digits)] moves a number by at most half a unit of the last
    digit kept. *)
Lemma toFixed_error (d : nat) (x : R) :
  Rabs (toFixed d x - x) <= / 2 / 10 ^ d.
Proof.
  unfold toFixed. destruct (decide (x < 0)).
  - replace (- toFixed_nonneg d (- x) - x)
      with (- (toFixed_nonneg d (- x) - - x)) by lra.
    rewrite Rabs_Ropp. apply toFixed_nonneg_error. lra.
  - apply toFixed_nonneg_error. lra.
Qed.

Lemma round2_error (x : R) : Rabs (round2 x - x) <= 0.005.
Proof.
  rewrite round2_toFixed.
  pose proof (toFixed_error 2 x) as H.
  replace (/ 2 / 10 ^ 2) with 0.005 in H by lra. exact H.
Qed.

Lemma round4_minus_one : round4 (-1) = -1.
Proof.
  unfold round4, toFixed, toFixed_nonneg.
  destruct (decide (-1 < 0)); [|lra].
  destruct (decide _); [lra|].
  rewrite (Zfloor_eq 10000); lra.
Qed.

Lemma round4_zero : round4 0 = 0.
Proof.
  unfold round4, toFixed, toFixed_nonneg.
  destruct (decide (0 < 0)); [lra|].
  destruct (decide _); [lra|].
  rewrite (Zfloor_eq 0); lra.
Qed.

End MoreRounding.

(** ** The tape of uniform draws *)

Section Tape.

Lemma nextNonZero_draws (tape tape' : list R) (u : R) :
  nextNonZero tape = Some (u, tape') ->
  u <> 0 /\ nonZeroDraws tape = S (nonZeroDraws tape').
Proof.
  unfold nonZeroDraws. induction tape as [|x tape IH]; simpl; [discriminate|].
  rewrite filter_cons.
  destruct (decide (x = 0)) as [Hx|Hx].
  - destruct (decide (x <> 0)); [tauto|]. exact IH.
  - intros [= -> ->]. destruct (decide (u <> 0)); [|tauto].
    split; [assumption | reflexivity].
Qed.

Lemma nextNonZero_enough (tape : list R) :
  (1 <= nonZeroDraws tape)%nat ->
  exists u tape', nextNonZero tape = Some (u, tape').
Proof.
  unfold nonZeroDraws. induction tape as [|x tape IH]; simpl.
  - lia.
  - rewrite filter_cons.
    destruct (decide (x = 0)) as [Hx|Hx].
    + destruct (decide (x <> 0)); [tauto|]. exact IH.
    + eauto.
Qed.

Lemma generateStandardNormalRandom_draws (tape tape' : list R) (z : R) :
  generateStandardNormalRandom tape = Some (z, tape') ->
  nonZeroDraws tape = S (S (nonZeroDraws tape')).
Proof.
  unfold generateStandardNormalRandom.
  destruct (nextNonZero tape) as [[u t1]|] eqn:H1; simpl; [|discriminate].
  destruct (nextNonZero t1) as [[v t2]|] eqn:H2; simpl; [|discriminate].
  intros [= _ <-].
  apply nextNonZero_draws in H1, H2. lia.
Qed.

Lemma generateStandardNormalRandom_enough (tape : list R) :
  (2 <= nonZeroDraws tape)%nat ->
  exists z tape', generateStandardNormalRandom tape = Some (z, tape').
Proof.
  intros H. unfold generateStandardNormalRandom.
  destruct (nextNonZero_enough tape) as (u & t1 & H1); [lia|].
  rewrite H1. simpl.
  pose proof (nextNonZero_draws _ _ _ H1) as [_ Hd].
  destruct (nextNonZero_enough t1) as (v & t2 & H2); [lia|].
  rewrite H2. simpl. eauto.
Qed.

(** Every sample is clipped to [-3.5, 3.5]. *)
Lemma generateStandardNormalRandom_range (tape tape' : list R) (z : R) :
  generateStandardNormalRandom tape = Some (z, tape') -> -3.5 <= z <= 3.5.
Proof.
  unfold generateStandardNormalRandom.
  destruct (nextNonZero tape) as [[u t1]|]; simpl; [|discriminate].
  destruct (nextNonZero t1) as [[v t2]|]; simpl; [|discriminate].
  intros [= <- _].
  split.
  - apply Rmax_l.
  - apply Rmax_lub; [lra | apply Rmin_l].
Qed.

End Tape.

(** ** Holdings *)

Section HoldingsFacts.

Implicit Types (h g : gmap string R) (stocks : list Stock).

Lemma zeroed_nonneg h : zeroedHoldings h -> nonnegHoldings h.
Proof.
  intros H. eapply map_Forall_impl; [exact H|]. simpl. intros _ x ->. lra.
Qed.

Lemma setProperty_Forall (P : string -> R -> Prop) (k : string) (v : R) h :
  P k v -> map_Forall P h -> map_Forall P (setProperty k v h).
Proof.
  intros Hv Hh. unfold setProperty.
  destruct (decide _); [exact Hh|]. apply map_Forall_insert_2; assumption.
Qed.

Lemma setProperty_lookup_Some (k k' : string) (x v : R) h :
  setProperty k x h !! k' = Some v ->
  (k = k' /\ x = v /\ k <> "__proto__") \/ h !! k' = Some v.
Proof.
  unfold setProperty. destruct (decide _) as [|Hk]; [tauto|].
  intros H. apply lookup_insert_Some in H.
  destruct H as [[<- <-]|[_ H]]; [left | right]; tauto.
Qed.

Lemma setProperty_lookup_ne (k k' : string) (x : R) h :
  k <> k' -> setProperty k x h !! k' = h !! k'.
Proof.
  intros Hne. unfold setProperty.
  destruct (decide _); [reflexivity|]. apply lookup_insert_ne, Hne.
Qed.

Lemma setProperty_lookup_eq (k : string) (x : R) h :
  k <> "__proto__" -> setProperty k x h !! k = Some x.
Proof.
  intros Hk. unfold setProperty.
  destruct (decide _); [contradiction|]. apply lookup_insert_eq.
Qed.

(** No assignment creates the key ["__proto__"]. *)
Lemma setProperty_lookup_proto (k : string) (x : R) h :
  setProperty k x h !! "__proto__" = h !! "__proto__".
Proof.
  unfold setProperty. destruct (decide _) as [|Hk]; [reflexivity|].
  apply lookup_insert_ne, Hk.
Qed.

Lemma zeroHoldings_zeroed stocks h :
  zeroedHoldings h -> zeroedHoldings (zeroHoldings stocks h).
Proof.
  unfold zeroHoldings. revert h.
  induction stocks as [|s l IH]; intros h Hh; simpl; [exact Hh|].
  apply IH. apply setProperty_Forall; [reflexivity | exact Hh].
Qed.

Lemma zeroHoldings_nonneg stocks h :
  nonnegHoldings h -> nonnegHoldings (zeroHoldings stocks h).
Proof.
  unfold zeroHoldings. revert h.
  induction stocks as [|s l IH]; intros h Hh; simpl; [exact Hh|].
  apply IH. apply setProperty_Forall; [lra | exact Hh].
Qed.

Lemma applyAllocation_nonneg (allocated : list StockAllocationResult) h :
  Forall (fun sAlloc => 0 <= amount sAlloc) allocated ->
  nonnegHoldings h -> nonnegHoldings (applyAllocation allocated h).
Proof.
  unfold applyAllocation. intros Ha. revert h.
  induction Ha as [|a l Ha _ IH]; intros h Hh; simpl; [exact Hh|].
  apply IH. apply setProperty_Forall; [exact Ha | exact Hh].
Qed.

Lemma clamp_nonneg h : nonnegHoldings (Rmax 0 <$> h).
Proof.
  apply map_Forall_fmap. intros k v _. simpl. apply Rmax_l.
Qed.

(** On holdings that are not negative the guard [Math.max(0, .)] changes
    nothing. *)
Lemma clamp_id h : nonnegHoldings h -> Rmax 0 <$> h = h.
Proof.
  intros Hh. rewrite <- (map_fmap_id h) at 2.
  apply map_fmap_ext. intros k v Hk. simpl.
  apply Rmax_right. exact (Hh k v Hk).
Qed.

Lemma sumValues_empty : sumValues ∅ = 0.
Proof. unfold sumValues. apply map_fold_empty. Qed.

Lemma sumValues_zeroed h : zeroedHoldings h -> sumValues h = 0.
Proof.
  unfold sumValues.
  apply (map_fold_weak_ind
           (fun r m => zeroedHoldings m -> r = 0) (fun _ b a => a + b) 0).
  - reflexivity.
  - intros k v m r Hk IH Hz.
    apply map_Forall_insert in Hz; [|exact Hk]. destruct Hz as [-> Hz].
    rewrite (IH Hz). lra.
Qed.

Lemma actualMonthlyReturn_floor (scenario : ScenarioType) (s : Stock) (z : R) :
  -1 <= actualMonthlyReturn scenario s z.
Proof. unfold actualMonthlyReturn. apply Rmax_l. Qed.

(** Where the entries of [grownStockHoldings] come from. *)
Lemma growStocks_lookup (scenario : ScenarioType) h stocks g tape grown tape' :
  growStocks scenario h stocks g tape = Some (grown, tape') ->
  forall k v, grown !! k = Some v ->
    g !! k = Some v
    \/ exists stock z,
         stock ∈ stocks /\ name stock = k /\ -3.5 <= z <= 3.5
         /\ v = default 0 (h !! k)
                * (1 + actualMonthlyReturn scenario stock z).
Proof.
  revert g tape. induction stocks as [|s l IH]; intros g tape; simpl.
  - intros [= <- <-] k v Hk. left. exact Hk.
  - destruct (generateStandardNormalRandom tape) as [[z t1]|] eqn:Hz;
      simpl; [|discriminate].
    intros Hrec k v Hk.
    destruct (IH _ _ Hrec k v Hk) as [Hg|(stock & z' & Hin & Hn & Hr & Hv)].
    + apply setProperty_lookup_Some in Hg.
      destruct Hg as [(<- & <- & _)|Hg]; [|left; exact Hg].
      right. exists s, z. repeat split.
      * apply list_elem_of_here.
      * eapply generateStandardNormalRandom_range; eassumption.
      * eapply generateStandardNormalRandom_range; eassumption.
    + right. exists stock, z'. repeat split; try tauto.
      apply list_elem_of_further. exact Hin.
Qed.

Lemma growStocks_nonneg (scenario : ScenarioType) h stocks g tape grown tape' :
  nonnegHoldings h -> nonnegHoldings g ->
  growStocks scenario h stocks g tape = Some (grown, tape') ->
  nonnegHoldings grown.
Proof.
  intros Hh Hg Hgrow k v Hk.
  destruct (growStocks_lookup _ _ _ _ _ _ _ Hgrow k v Hk)
    as [Hin|(stock & z & _ & _ & _ & ->)].
  - exact (Hg k v Hin).
  - pose proof (actualMonthlyReturn_floor scenario stock z).
    assert (0 <= default 0 (h !! k)).
    { destruct (h !! k) as [x|] eqn:Hx; simpl; [exact (Hh k x Hx) | lra]. }
    nra.
Qed.

Lemma growStocks_zeroed (scenario : ScenarioType) h stocks g tape grown tape' :
  zeroedHoldings h -> zeroedHoldings g ->
  growStocks scenario h stocks g tape = Some (grown, tape') ->
  zeroedHoldings grown.
Proof.
  intros Hh Hg Hgrow k v Hk.
  destruct (growStocks_lookup _ _ _ _ _ _ _ Hgrow k v Hk)
    as [Hin|(stock & z & _ & _ & _ & ->)].
  - exact (Hg k v Hin).
  - destruct (h !! k) as [x|] eqn:Hx; simpl; [rewrite (Hh k x Hx)|]; lra.
Qed.

Lemma growStocks_draws (scenario : ScenarioType) h stocks g tape grown tape' :
  growStocks scenario h stocks g tape = Some (grown, tape') ->
  nonZeroDraws tape = (2 * length stocks + nonZeroDraws tape')%nat.
Proof.
  revert g tape. induction stocks as [|s l IH]; intros g tape; simpl.
  - intros [= _ <-]. reflexivity.
  - destruct (generateStandardNormalRandom tape) as [[z t1]|] eqn:Hz;
      simpl; [|discriminate].
    intros Hrec. apply IH in Hrec.
    apply generateStandardNormalRandom_draws in Hz. lia.
Qed.

(** The loop draws one sample per asset, in order, and applies to each
    asset the return computed from its own sample. *)
Lemma growStocks_samples (scenario : ScenarioType) h stocks g tape grown
    tape' :
  growStocks scenario h stocks g tape = Some (grown, tape') ->
  exists zs,
    length zs = length stocks
    /\ Forall (fun z => -3.5 <= z <= 3.5) zs
    /\ grown = grownWith scenario h (zip stocks zs) g.
Proof.
  revert g tape. induction stocks as [|s l IH]; intros g tape; simpl.
  - intros [= <- _]. exists []. repeat split. constructor.
  - destruct (generateStandardNormalRandom tape) as [[z t1]|] eqn:Hz;
      simpl; [|discriminate].
    intros Hrec. destruct (IH _ _ Hrec) as (zs & Hlen & Hr & ->).
    exists (z :: zs). split; [simpl; lia|]. split; [|reflexivity].
    constructor; [|exact Hr].
    eapply generateStandardNormalRandom_range. exact Hz.
Qed.

Lemma grownWith_lookup_notin (scenario : ScenarioType) h stocks (zs : list R)
    g (k : string) :
  k ∉ map name stocks ->
  grownWith scenario h (zip stocks zs) g !! k = g !! k.
Proof.
  revert zs g. induction stocks as [|s l IH]; intros zs g Hk;
    [reflexivity|].
  destruct zs as [|z zs]; [reflexivity|].
  cbn in Hk. apply not_elem_of_cons in Hk as [Hne Hk].
  change (grownWith scenario h (zip (s :: l) (z :: zs)) g)
    with (grownWith scenario h (zip l zs)
            (setProperty (name s)
               (default 0 (h !! name s)
                * (1 + actualMonthlyReturn scenario s z)) g)).
  rewrite IH by exact Hk. apply setProperty_lookup_ne. congruence.
Qed.

(** With distinct names each asset keeps the value assigned to it. *)
Lemma grownWith_lookup (scenario : ScenarioType) h stocks (zs : list R) g
    (i : nat) (s : Stock) (z : R) :
  NoDup (map name stocks) ->
  stocks !! i = Some s -> zs !! i = Some z -> name s <> "__proto__" ->
  grownWith scenario h (zip stocks zs) g !! name s
  = Some (default 0 (h !! name s) * (1 + actualMonthlyReturn scenario s z)).
Proof.
  revert zs g i. induction stocks as [|s0 l IH]; intros zs g i Hnd Hs Hz Hp.
  - rewrite lookup_nil in Hs. discriminate.
  - destruct zs as [|z0 zs]; [rewrite lookup_nil in Hz; discriminate|].
    cbn in Hnd. apply NoDup_cons in Hnd as [Hfresh Hnd].
    change (grownWith scenario h (zip (s0 :: l) (z0 :: zs)) g)
      with (grownWith scenario h (zip l zs)
              (setProperty (name s0)
                 (default 0 (h !! name s0)
                  * (1 + actualMonthlyReturn scenario s0 z0)) g)).
    destruct i as [|j].
    + injection Hs as <-. injection Hz as <-.
      rewrite grownWith_lookup_notin by exact Hfresh.
      apply setProperty_lookup_eq, Hp.
    + apply (IH zs _ j); assumption.
Qed.

Lemma growStocks_enough (scenario : ScenarioType) h stocks g tape :
  (2 * length stocks <= nonZeroDraws tape)%nat ->
  exists grown tape', growStocks scenario h stocks g tape = Some (grown, tape').
Proof.
  revert g tape. induction stocks as [|s l IH]; intros g tape; simpl.
  - eauto.
  - intros Hn.
    destruct (generateStandardNormalRandom_enough tape) as (z & t1 & Hz);
      [lia|].
    rewrite Hz. simpl.
    apply generateStandardNormalRandom_draws in Hz.
    apply IH. lia.
Qed.

End HoldingsFacts.

(** ** Allocations seen from the simulation *)

Section AllocationFacts.

Implicit Types (totalAmount target correlation bw : R) (stocks : list Stock)
               (bankAccount : BankAccount) (ws : list R).

Lemma basketWeightInPortfolio_nonneg stocks ws (riskFreeRate correlation : R)
    target bw :
  0 <= target ->
  basketWeightInPortfolio
    (calculateBasketMetrics stocks ws riskFreeRate correlation)
    riskFreeRate target = Ok bw ->
  0 <= bw.
Proof.
  intros Ht. unfold basketWeightInPortfolio.
  destruct (decide _) as [H0|H0].
  - destruct (decide _); [|discriminate].
    intros [= <-]. destruct (decide _); lra.
  - intros [= <-]. cbn in *.
    pose proof (sqrt_pos (varianceLoop (weighted stocks ws) correlation 0)).
    apply Rmult_le_pos; [exact Ht|].
    apply Rlt_le, Rinv_0_lt_compat. lra.
Qed.

(** No per-asset amount of a returned allocation is negative. *)
Lemma calculateAllocation_amounts_nonneg totalAmount stocks bankAccount target
    correlation alloc :
  calculateAllocation totalAmount stocks bankAccount target correlation
  = Ok alloc ->
  Forall (fun sAlloc => 0 <= amount sAlloc) (PortfolioCalculator.stocks alloc).
Proof.
  intros Hcall.
  pose proof (calculateAllocation_validated _ _ _ _ _ _ Hcall) as Hv.
  destruct stocks as [|s rest].
  - unfold calculateAllocation in Hcall.
    apply validateInputs_ok in Hv. rewrite Hv in Hcall. cbn [bind] in Hcall.
    destruct (decide _); [|discriminate]. injection Hcall as <-. constructor.
  - destruct (degenerate_weights_dead (s :: rest) (interestRate bankAccount))
      as [ws Hws].
    rewrite (calculateAllocation_nonempty _ _ _ _ _ ws) in Hcall;
      [| discriminate | exact Hv | exact Hws].
    destruct (basketWeightInPortfolio _ _ _) as [bw|e] eqn:Hbw;
      [|discriminate].
    injection Hcall as <-.
    destruct Hv as (Ht & _ & _ & Htarget & _).
    pose proof (basketWeightInPortfolio_nonneg _ _ _ _ _ _ Htarget Hbw) as Hb.
    pose proof (calculateBasketWeights_nonneg _ _ Hws) as Hw.
    unfold allocationWith, weighted.
    cbn [PortfolioCalculator.stocks].
    apply Forall_forall. intros sa Hsa.
    apply list_elem_of_In, in_map_iff in Hsa.
    destruct Hsa as ([stock w] & <- & Hin). cbn [amount].
    apply list_elem_of_In, elem_of_zip_r in Hin.
    rewrite Forall_forall in Hw. specialize (Hw w Hin).
    apply Rmult_le_pos; [apply Rmult_le_pos|]; assumption.
Qed.

(** Whether the call throws does not depend on the amount allocated. *)
Lemma calculateAllocation_thrown_amount t1 t2 stocks bankAccount target
    correlation (e : AllocationError) :
  0 <= t1 -> 0 <= t2 ->
  calculateAllocation t1 stocks bankAccount target correlation = Thrown e ->
  calculateAllocation t2 stocks bankAccount target correlation = Thrown e.
Proof.
  intros H1 H2. unfold calculateAllocation.
  rewrite (validateInputs_amount t1 t2 _ _ _ _ H1 H2).
  destruct (validateInputs t2 _ _ _ _) as [[]|e']; cbn [bind];
    [|intros H; exact H].
  destruct stocks as [|s rest].
  - destruct (decide _); [discriminate | intros H; exact H].
  - destruct (calculateBasketWeights _) as [ws|e']; cbn [bind];
      [|intros H; exact H].
    destruct (basketWeightInPortfolio _ _ _) as [bw|e']; cbn [bind];
      [discriminate | intros H; exact H].
Qed.

End AllocationFacts.

(** ** One month *)

Section MonthStep.

Variables (monthlyDeposit : R) (stocks : list Stock)
          (bankAccount : BankAccount) (targetOverallVolatility : R)
          (scenario : ScenarioType) (correlation : R).

Lemma monthStep_unfold (m : nat) (h : Holdings) (tape tape' : list R)
    (out : MonthOutcome) :
  monthStep m monthlyDeposit stocks bankAccount targetOverallVolatility
    scenario correlation h tape = Some (out, tape') ->
  exists grown rebalanced bank,
    growStocks scenario (currentStockHoldings h) stocks ∅ tape
    = Some (grown, tape')
    /\ rebalance (capitalAfterGrowth monthlyDeposit bankAccount h grown) stocks bankAccount
         targetOverallVolatility correlation (currentStockHoldings h) grown
       = (rebalanced, bank)
    /\ out = mkOutcome grown (capitalAfterGrowth monthlyDeposit bankAccount h grown)
               (mkHoldings (Rmax 0 <$> rebalanced) bank
                  (cumulativeCapitalInvested h + monthlyDeposit))
               (mkState m (Rmax 0 <$> rebalanced) (JsNumber.round2 bank)
                  (JsNumber.round2
                     (sumValues (Rmax 0 <$> rebalanced) + bank))
                  (JsNumber.round2
                     (cumulativeCapitalInvested h + monthlyDeposit))).
Proof.
  unfold monthStep, capitalAfterGrowth.
  destruct (growStocks _ _ _ _ _) as [[grown t1]|]; simpl; [|discriminate].
  destruct (rebalance _ _ _ _ _ _ _) as [rebalanced bank] eqn:Hr.
  intros [= <- <-]. exists grown, rebalanced, bank.
  split; [reflexivity|]. split; [exact Hr | reflexivity].
Qed.

Lemma monthStep_enough (m : nat) (h : Holdings) (tape : list R) :
  (2 * length stocks <= nonZeroDraws tape)%nat ->
  exists out tape',
    monthStep m monthlyDeposit stocks bankAccount targetOverallVolatility
      scenario correlation h tape = Some (out, tape')
    /\ nonZeroDraws tape = (2 * length stocks + nonZeroDraws tape')%nat.
Proof.
  intros Hn. unfold monthStep.
  destruct (growStocks_enough scenario (currentStockHoldings h) stocks ∅ tape
              Hn) as (grown & t1 & Hg).
  rewrite Hg. simpl.
  destruct (rebalance _ _ _ _ _ _ _) as [rebalanced bank].
  eexists _, _. split; [reflexivity|].
  eapply growStocks_draws. exact Hg.
Qed.

Lemma allocationFails_from (t : R) (e : AllocationError) :
  0 <= t ->
  calculateAllocation t stocks bankAccount targetOverallVolatility correlation
  = Thrown e ->
  allocationFails stocks bankAccount targetOverallVolatility correlation.
Proof.
  intros Ht He. exists e. intros t' Ht'.
  apply (calculateAllocation_thrown_amount t t'); assumption.
Qed.

Lemma allocationFails_not_ok (t : R) (alloc : PortfolioAllocationResult) :
  0 <= t ->
  calculateAllocation t stocks bankAccount targetOverallVolatility correlation
  = Ok alloc ->
  ~ allocationFails stocks bankAccount targetOverallVolatility correlation.
Proof.
  intros Ht Hok [e He]. rewrite (He t Ht) in Hok. discriminate.
Qed.

Lemma rebalance_invariant (h : Holdings) (grown rebalanced : gmap string R)
    (total bank : R) :
  holdingsInvariant stocks bankAccount targetOverallVolatility correlation h ->
  nonnegHoldings grown ->
  (zeroedHoldings (currentStockHoldings h) -> zeroedHoldings grown) ->
  rebalance total stocks bankAccount targetOverallVolatility correlation
    (currentStockHoldings h) grown = (rebalanced, bank) ->
  nonnegHoldings rebalanced
  /\ (allocationFails stocks bankAccount targetOverallVolatility correlation
      -> zeroedHoldings rebalanced).
Proof.
  intros [Hnn Hz] Hg Hgz. unfold rebalance.
  destruct (decide (total > 0)) as [Hpos|Hpos].
  - destruct (calculateAllocation _ _ _ _ _) as [alloc|e] eqn:Hcall.
    + intros [= <- <-]. split.
      * apply applyAllocation_nonneg; [|exact Hnn].
        eapply calculateAllocation_amounts_nonneg. exact Hcall.
      * intros Hf. exfalso.
        eapply allocationFails_not_ok; [| exact Hcall | exact Hf]. lra.
    + intros [= <- <-]. split; [exact Hg|]. intros Hf. auto.
  - intros [= <- <-]. split.
    + apply zeroHoldings_nonneg. exact Hnn.
    + intros Hf. apply zeroHoldings_zeroed. auto.
Qed.

Lemma monthStep_invariant (m : nat) (h : Holdings) (tape tape' : list R)
    (out : MonthOutcome) :
  holdingsInvariant stocks bankAccount targetOverallVolatility correlation h ->
  monthStep m monthlyDeposit stocks bankAccount targetOverallVolatility
    scenario correlation h tape = Some (out, tape') ->
  holdingsInvariant stocks bankAccount targetOverallVolatility correlation
    (carried out).
Proof.
  intros Hinv Hstep.
  destruct (monthStep_unfold _ _ _ _ _ Hstep)
    as (grown & rebalanced & bank & Hg & Hr & ->).
  cbn [carried].
  assert (Hgn : nonnegHoldings grown).
  { eapply growStocks_nonneg; [apply Hinv | apply map_Forall_empty | exact Hg]. }
  assert (Hgz : zeroedHoldings (currentStockHoldings h) -> zeroedHoldings grown).
  { intros Hz. eapply growStocks_zeroed;
      [exact Hz | apply map_Forall_empty | exact Hg]. }
  destruct (rebalance_invariant _ _ _ _ _ Hinv Hgn Hgz Hr) as [Hn Hz].
  split; cbn [currentStockHoldings].
  - apply clamp_nonneg.
  - intros Hf. rewrite clamp_id; [auto | exact Hn].
Qed.

End MonthStep.

(** ** A whole run *)

Section Run.

Variables (initialInvestment monthlyDeposit : R) (stocks : list Stock)
          (bankAccount : BankAccount) (targetOverallVolatility : R)
          (durationInMonths : Z) (scenario : ScenarioType) (correlation : R).

Abbreviation step m :=
  (monthStep m monthlyDeposit stocks bankAccount targetOverallVolatility
     scenario correlation).
Abbreviation loop n m :=
  (monthsLoop n m monthlyDeposit stocks bankAccount targetOverallVolatility
     scenario correlation).
Abbreviation invariant :=
  (holdingsInvariant stocks bankAccount targetOverallVolatility correlation).
Abbreviation h0 :=
  (initialHoldings initialInvestment stocks bankAccount
     targetOverallVolatility correlation).
Abbreviation trace :=
  (simulateTrace initialInvestment monthlyDeposit stocks bankAccount
     targetOverallVolatility (IZR durationInMonths) scenario correlation).
Abbreviation simulate :=
  (simulateInvestmentStrategy initialInvestment monthlyDeposit stocks
     bankAccount targetOverallVolatility (IZR durationInMonths) scenario
     correlation).

Lemma monthsLoop_length (n m : nat) (h : Holdings) (tape : list R)
    (outs : list MonthOutcome) :
  loop n m h tape = Some outs -> length outs = n.
Proof.
  revert m h tape outs. induction n as [|n IH]; intros m h tape outs; simpl.
  - intros [= <-]. reflexivity.
  - destruct (monthStep _ _ _ _ _ _ _ _ _) as [[out t1]|]; simpl;
      [|discriminate].
    destruct (monthsLoop _ _ _ _ _ _ _ _ _ _) as [rest|] eqn:Hrest; simpl;
      [|discriminate].
    intros [= <-]. simpl. f_equal. eapply IH. exact Hrest.
Qed.

Lemma monthsLoop_enough (n m : nat) (h : Holdings) (tape : list R) :
  (2 * length stocks * n <= nonZeroDraws tape)%nat ->
  exists outs, loop n m h tape = Some outs.
Proof.
  revert m h tape. induction n as [|n IH]; intros m h tape Hn; simpl.
  - eauto.
  - destruct (monthStep_enough monthlyDeposit stocks bankAccount
                targetOverallVolatility scenario correlation m h tape)
      as (out & t1 & Hstep & Hd); [lia|].
    rewrite Hstep. simpl.
    destruct (IH (S m) (carried out) t1) as [rest Hrest]; [lia|].
    rewrite Hrest. simpl. eauto.
Qed.

(** Every iteration starts from holdings that satisfy the invariant, with
    the deposits made so far added to the capital. *)
Lemma monthsLoop_lookup (n m : nat) (h : Holdings) (tape : list R)
    (outs : list MonthOutcome) :
  invariant h ->
  loop n m h tape = Some outs ->
  forall (k : nat) (out : MonthOutcome),
    outs !! k = Some out ->
    exists h' t1 t2,
      invariant h'
      /\ cumulativeCapitalInvested h'
         = cumulativeCapitalInvested h + INR k * monthlyDeposit
      /\ step (m + k)%nat h' t1 = Some (out, t2).
Proof.
  revert m h tape outs. induction n as [|n IH]; intros m h tape outs Hinv;
    simpl.
  - intros [= <-] k out Hk. rewrite lookup_nil in Hk. discriminate.
  - destruct (monthStep _ _ _ _ _ _ _ _ _) as [[out1 t1]|] eqn:Hstep; simpl;
      [|discriminate].
    destruct (monthsLoop _ _ _ _ _ _ _ _ _ _) as [rest|] eqn:Hrest; simpl;
      [|discriminate].
    intros [= <-] [|k] out Hk.
    + injection Hk as <-. exists h, tape, t1.
      split; [exact Hinv|]. split; [simpl; lra|].
      rewrite Nat.add_0_r. exact Hstep.
    + cbn in Hk.
      pose proof (monthStep_invariant _ _ _ _ _ _ _ _ _ _ _ Hinv Hstep)
        as Hinv'.
      destruct (IH _ _ _ _ Hinv' Hrest k out Hk)
        as (h' & ta & tb & Hi & Hc & Hs).
      exists h', ta, tb. split; [exact Hi|]. split.
      * rewrite Hc.
        destruct (monthStep_unfold _ _ _ _ _ _ _ _ _ _ _ Hstep)
          as (? & ? & ? & _ & _ & ->).
        cbn [carried cumulativeCapitalInvested]. rewrite S_INR. lra.
      * replace (m + S k)%nat with (S m + k)%nat by lia. exact Hs.
Qed.

Lemma initialHoldings_invariant : 0 <= initialInvestment -> invariant h0.
Proof.
  intros Hi. unfold initialHoldings, holdingsInvariant.
  assert (Hz : zeroedHoldings (zeroHoldings stocks ∅))
    by apply zeroHoldings_zeroed, map_Forall_empty.
  destruct (decide _) as [Hpos|Hpos].
  - destruct (calculateAllocation _ _ _ _ _) as [alloc|e] eqn:Hcall;
      cbn [currentStockHoldings].
    + split.
      * apply applyAllocation_nonneg; [|apply zeroed_nonneg, Hz].
        eapply calculateAllocation_amounts_nonneg. exact Hcall.
      * intros Hf. exfalso.
        eapply allocationFails_not_ok; [| exact Hcall | exact Hf]. lra.
    + assert (Hzz : zeroedHoldings (zeroHoldings stocks (zeroHoldings stocks ∅)))
        by apply zeroHoldings_zeroed, Hz.
      split; [apply zeroed_nonneg, Hzz | intros _; exact Hzz].
  - cbn [currentStockHoldings].
    split; [apply zeroed_nonneg, Hz | intros _; exact Hz].
Qed.

Lemma initialHoldings_capital :
  0 <= initialInvestment -> cumulativeCapitalInvested h0 = initialInvestment.
Proof.
  intros Hi. unfold initialHoldings.
  destruct (decide _) as [Hpos|Hpos].
  - destruct (calculateAllocation _ _ _ _ _); reflexivity.
  - cbn. lra.
Qed.

(** A call with valid inputs and enough draws returns. *)
Lemma simulateTrace_returns (tape : list R) :
  validSimulationInput initialInvestment monthlyDeposit stocks
    targetOverallVolatility durationInMonths ->
  enoughDraws stocks durationInMonths tape ->
  exists outs,
    loop (Z.to_nat durationInMonths) 1%nat h0 tape = Some outs
    /\ trace tape = Ok (h0, outs)
    /\ simulate tape = Ok (initialRecord h0 :: map recorded outs)
    /\ length outs = Z.to_nat durationInMonths.
Proof.
  intros (Hi & Hd & Hn & He) Hdraws.
  destruct (monthsLoop_enough (Z.to_nat durationInMonths) 1 h0 tape Hdraws)
    as [outs Houts].
  exists outs.
  assert (Ht : trace tape = Ok (h0, outs)).
  { unfold simulateTrace.
    destruct (decide (initialInvestment < 0)); [lra|].
    destruct (decide (monthlyDeposit < 0)); [lra|].
    destruct (decide (IZR durationInMonths < 0 \/ _)) as [Hbad|_];
      [exfalso; exact (integer_duration _ Hn Hbad)|].
    destruct (decide _) as [[Hl Ht]|_].
    { apply length_zero_iff_nil in Hl. specialize (He Hl). lra. }
    rewrite ZfloorZ, Houts. reflexivity. }
  split; [exact Houts|]. split; [exact Ht|]. split.
  - unfold simulateInvestmentStrategy. rewrite Ht. reflexivity.
  - eapply monthsLoop_length. exact Houts.
Qed.

(** A call that returns had valid inputs and ran the loop to its end. *)
Lemma simulate_returned (tape : list R)
    (history : list MonthlySimulatedPortfolioState) :
  simulate tape = Ok history ->
  validSimulationInput initialInvestment monthlyDeposit stocks
    targetOverallVolatility durationInMonths
  /\ exists outs,
       loop (Z.to_nat durationInMonths) 1%nat h0 tape = Some outs
       /\ history = initialRecord h0 :: map recorded outs
       /\ length outs = Z.to_nat durationInMonths.
Proof.
  unfold simulateInvestmentStrategy, simulateTrace, validSimulationInput.
  destruct (decide (initialInvestment < 0)); [discriminate|].
  destruct (decide (monthlyDeposit < 0)); [discriminate|].
  destruct (decide (IZR durationInMonths < 0 \/ _)) as [|Hdur];
    [discriminate|].
  destruct (decide _) as [|Hne]; [discriminate|].
  rewrite ZfloorZ.
  destruct (monthsLoop _ _ _ _ _ _ _ _ _ _) as [outs|] eqn:Houts;
    [|discriminate].
  cbn. intros [= <-]. split.
  - repeat split; try lra.
    { apply Z.le_ngt. intros Hlt. apply Hdur. left. apply IZR_lt in Hlt.
      exact Hlt. }
    intros ->. destruct (Rle_lt_dec targetOverallVolatility 0); [assumption|].
    exfalso. apply Hne. split; [reflexivity | lra].
  - exists outs. split; [reflexivity|]. split; [reflexivity|].
    eapply monthsLoop_length. exact Houts.
Qed.

(** *** What one iteration records *)

Lemma recorded_fields (m : nat) (h : Holdings) (t1 t2 : list R)
    (out : MonthOutcome) :
  step m h t1 = Some (out, t2) ->
  month (recorded out) = m
  /\ stockValues (recorded out) = currentStockHoldings (carried out)
  /\ bankValue (recorded out)
     = JsNumber.round2 (currentBankHolding (carried out))
  /\ totalPortfolioValue (recorded out)
     = JsNumber.round2 (sumValues (currentStockHoldings (carried out))
                        + currentBankHolding (carried out))
  /\ totalCapitalInvested (recorded out)
     = JsNumber.round2 (cumulativeCapitalInvested (carried out))
  /\ cumulativeCapitalInvested (carried out)
     = cumulativeCapitalInvested h + monthlyDeposit.
Proof.
  intros Hstep.
  destruct (monthStep_unfold _ _ _ _ _ _ _ _ _ _ _ Hstep)
    as (grown & rebalanced & bank & _ & _ & ->).
  cbn. repeat split; reflexivity.
Qed.

Lemma negative_bank_amount_leveraged (t : R)
    (alloc : PortfolioAllocationResult) :
  calculateAllocation t stocks bankAccount targetOverallVolatility correlation
  = Ok alloc ->
  bankAmount (bankAllocation alloc) < 0 ->
  leveraged stocks bankAccount targetOverallVolatility correlation.
Proof.
  intros Hcall Hneg.
  pose proof (calculateAllocation_validated _ _ _ _ _ _ Hcall) as Hv.
  unfold leveraged. destruct stocks as [|s rest].
  - unfold calculateAllocation in Hcall.
    pose proof Hv as Hv'.
    apply validateInputs_ok in Hv. rewrite Hv in Hcall. cbn [bind] in Hcall.
    destruct (decide _); [|discriminate]. injection Hcall as <-.
    cbn in Hneg. destruct Hv' as [? _]. lra.
  - destruct (degenerate_weights_dead (s :: rest) (interestRate bankAccount))
      as [ws Hws].
    rewrite (calculateAllocation_nonempty _ _ _ _ _ ws) in Hcall;
      [| discriminate | exact Hv | exact Hws].
    destruct (basketWeightInPortfolio _ _ _) as [bw|e] eqn:Hbw;
      [|discriminate].
    injection Hcall as <-. cbn in Hneg.
    destruct Hv as (Ht & _ & _ & Htarget & _).
    assert (Hbw1 : 1 < bw) by nra.
    exists ws. split; [exact Hws|].
    unfold basketWeightInPortfolio in Hbw.
    destruct (decide _) as [H0|H0].
    + destruct (decide _); [|discriminate].
      injection Hbw as <-. destruct (decide _); lra.
    + injection Hbw as <-.
      set (vol := basketVolatility _) in *.
      assert (Hvol : 0 <= vol) by (unfold vol; cbn; apply sqrt_pos).
      assert (Hpos : 0 < vol) by lra.
      split; [exact Hpos|].
      apply (Rmult_lt_compat_r vol) in Hbw1; [|exact Hpos].
      unfold Rdiv in Hbw1. rewrite Rmult_assoc, Rinv_l in Hbw1; lra.
Qed.

(** Month 0: a negative bank holding comes from leverage. *)
Lemma initial_bank_negative :
  0 <= initialInvestment -> currentBankHolding h0 < 0 ->
  leveraged stocks bankAccount targetOverallVolatility correlation.
Proof.
  intros Hi. unfold initialHoldings.
  destruct (decide _) as [Hpos|Hpos]; [|cbn; lra].
  destruct (calculateAllocation _ _ _ _ _) as [alloc|e] eqn:Hcall; cbn.
  - eapply negative_bank_amount_leveraged. exact Hcall.
  - lra.
Qed.

(** Later months: a negative carried bank holding comes from leverage or
    from a negative capital that month. *)
Lemma carried_bank_negative (m : nat) (h : Holdings) (t1 t2 : list R)
    (out : MonthOutcome) :
  invariant h ->
  step m h t1 = Some (out, t2) ->
  currentBankHolding (carried out) < 0 ->
  leveraged stocks bankAccount targetOverallVolatility correlation
  \/ totalCapitalForReallocation out < 0.
Proof.
  intros Hinv Hstep.
  destruct (monthStep_unfold _ _ _ _ _ _ _ _ _ _ _ Hstep)
    as (grown & rebalanced & bank & Hg & Hr & ->).
  cbn [carried currentBankHolding totalCapitalForReallocation].
  set (total := capitalAfterGrowth _ _ _ _) in *.
  unfold rebalance in Hr.
  destruct (decide (total > 0)) as [Hpos|Hpos].
  - destruct (calculateAllocation _ _ _ _ _) as [alloc|e] eqn:Hcall.
    + injection Hr as _ <-. intros Hneg. left.
      eapply negative_bank_amount_leveraged; eassumption.
    + injection Hr as _ <-. intros Hneg. exfalso.
      assert (Hf : allocationFails stocks bankAccount targetOverallVolatility
                     correlation).
      { eapply allocationFails_from; [|exact Hcall]. lra. }
      destruct Hinv as [_ Hz]. specialize (Hz Hf).
      assert (Hgz : zeroedHoldings grown).
      { eapply growStocks_zeroed;
          [exact Hz | apply map_Forall_empty | exact Hg]. }
      rewrite (sumValues_zeroed _ Hgz) in Hneg. lra.
  - injection Hr as _ <-. intros Hneg. right. exact Hneg.
Qed.


Lemma carried_nonneg (m : nat) (h : Holdings) (t1 t2 : list R)
    (out : MonthOutcome) :
  step m h t1 = Some (out, t2) ->
  nonnegHoldings (currentStockHoldings (carried out)).
Proof.
  intros Hstep.
  destruct (monthStep_unfold _ _ _ _ _ _ _ _ _ _ _ Hstep)
    as (grown & rebalanced & bank & _ & _ & ->).
  cbn. apply clamp_nonneg.
Qed.

(** The state recorded for month [N] of a run. *)
Lemma history_lookup (outs : list MonthOutcome) (N : nat) :
  (initialRecord h0 :: map recorded outs) !! N
  = match N with
    | O => Some (initialRecord h0)
    | S k => recorded <$> outs !! k
    end.
Proof.
  destruct N as [|k]; [reflexivity|]. cbn.
  change (map recorded outs) with (recorded <$> outs).
  apply list_lookup_fmap.
Qed.

(** Every iteration of a run, with the holdings it started from. *)
Lemma run_months (tape : list R) (outs : list MonthOutcome) :
  0 <= initialInvestment ->
  loop (Z.to_nat durationInMonths) 1%nat h0 tape = Some outs ->
  forall (k : nat) (out : MonthOutcome),
    outs !! k = Some out ->
    exists h' t1 t2,
      invariant h'
      /\ cumulativeCapitalInvested h'
         = initialInvestment + INR k * monthlyDeposit
      /\ step (S k) h' t1 = Some (out, t2).
Proof.
  intros Hi Hloop k out Hk.
  destruct (monthsLoop_lookup _ _ _ _ _ (initialHoldings_invariant Hi) Hloop
              k out Hk) as (h' & t1 & t2 & Hinv & Hc & Hs).
  exists h', t1, t2. split; [exact Hinv|]. split; [|exact Hs].
  rewrite Hc, (initialHoldings_capital Hi). reflexivity.
Qed.

(** Each month starts from the holdings that the month before carried. *)
Lemma monthsLoop_chain (n m : nat) (h : Holdings) (tape : list R)
    (outs : list MonthOutcome) :
  loop n m h tape = Some outs ->
  forall (k : nat) (out : MonthOutcome),
    outs !! k = Some out ->
    exists t1 t2, step (m + k)%nat (heldBefore h outs k) t1 = Some (out, t2).
Proof.
  revert m h tape outs.
  induction n as [|n IH]; intros m h tape outs; simpl.
  - intros [= <-] k out Hk. rewrite lookup_nil in Hk. discriminate.
  - destruct (monthStep _ _ _ _ _ _ _ _ _) as [[out1 t1]|] eqn:Hs; simpl;
      [|discriminate].
    destruct (monthsLoop _ _ _ _ _ _ _ _ _ _) as [rest|] eqn:Hrest; simpl;
      [|discriminate].
    intros [= <-] [|k] out Hk.
    + injection Hk as <-. exists tape, t1. rewrite Nat.add_0_r. exact Hs.
    + cbn in Hk.
      destruct (IH _ _ _ _ Hrest k out Hk) as (ta & tb & Hstep).
      exists ta, tb. replace (m + S k)%nat with (S m + k)%nat by lia.
      replace (heldBefore h (out1 :: rest) (S k))
        with (heldBefore (carried out1) rest k); [exact Hstep|].
      destruct k as [|j]; [reflexivity|]. cbn.
      destruct (rest !! j) as [prev|] eqn:Hj; [reflexivity|].
      apply lookup_ge_None_1 in Hj. apply lookup_lt_Some in Hk. lia.
Qed.

(** The capital recorded for month [N]. *)
Lemma history_capital (tape : list R)
    (history : list MonthlySimulatedPortfolioState) :
  simulate tape = Ok history ->
  forall (N : nat) (st : MonthlySimulatedPortfolioState),
    history !! N = Some st ->
    month st = N
    /\ totalCapitalInvested st
       = match N with
         | O => initialInvestment
         | S _ => JsNumber.round2 (initialInvestment + INR N * monthlyDeposit)
         end.
Proof.
  intros Hsim N st HN.
  destruct (simulate_returned _ _ Hsim) as ((Hi & _) & outs & Hloop & -> & _).
  rewrite history_lookup in HN. destruct N as [|k].
  - injection HN as <-. cbn. split; [reflexivity|].
    apply initialHoldings_capital. exact Hi.
  - destruct (outs !! k) as [out|] eqn:Hk; [|discriminate].
    injection HN as <-.
    destruct (run_months _ _ Hi Hloop k out Hk)
      as (h' & t1 & t2 & _ & Hc & Hs).
    destruct (recorded_fields _ _ _ _ _ Hs) as (Hm & _ & _ & _ & Hcap & Hcum).
    split; [exact Hm|].
    rewrite Hcap, Hcum, Hc, S_INR. f_equal. lra.
Qed.

End Run.

(** ** Claims about the simulation *)

Section SimulationClaims.

Variables (initialInvestment monthlyDeposit : R) (stocks : list Stock)
          (bankAccount : BankAccount) (targetOverallVolatility : R)
          (durationInMonths : Z) (scenario : ScenarioType) (correlation : R)
          (tape : list R).

Hypothesis valid :
  validSimulationInput initialInvestment monthlyDeposit stocks
    targetOverallVolatility durationInMonths.
Hypothesis draws : enoughDraws stocks durationInMonths tape.

Abbreviation run :=
  (simulateInvestmentStrategy initialInvestment monthlyDeposit stocks
     bankAccount targetOverallVolatility (IZR durationInMonths) scenario
     correlation tape).
Abbreviation month0 :=
  (initialHoldings initialInvestment stocks bankAccount
     targetOverallVolatility correlation).
Abbreviation months :=
  (monthsLoop (Z.to_nat durationInMonths) 1 monthlyDeposit stocks bankAccount
     targetOverallVolatility scenario correlation month0 tape).

(** The run returns a state for every month from 0 to the duration. *)
Lemma complete_history :
  exists outs history,
    months = Some outs
    /\ run = Ok history
    /\ history = initialRecord month0 :: map recorded outs
    /\ length history = S (Z.to_nat durationInMonths)
    /\ forall N : nat, (N <= Z.to_nat durationInMonths)%nat ->
         exists st, history !! N = Some st /\ month st = N.
Proof using valid draws.
  destruct (simulateTrace_returns initialInvestment monthlyDeposit stocks
              bankAccount targetOverallVolatility durationInMonths scenario
              correlation tape valid draws)
    as (outs & Hloop & _ & Hsim & Hlen).
  exists outs, (initialRecord month0 :: map recorded outs).
  split; [exact Hloop|]. split; [exact Hsim|]. split; [reflexivity|].
  split; [cbn; rewrite length_map, Hlen; reflexivity|].
  intros N HN.
  destruct (lookup_lt_is_Some_2 (initialRecord month0 :: map recorded outs) N)
    as [st Hst].
  { cbn. rewrite length_map, Hlen. lia. }
  exists st. split; [exact Hst|].
  eapply history_capital; eassumption.
Qed.

(** C2, as the code has it.  For valid inputs the run returns, and for
    every month [N] from 0 to the duration the recorded cumulative capital
    is [initialInvestment] at month 0 and, at every later month, the
    running capital after [toFixed(2)]: a number of two decimals (the
    number itself from [10^21] on) within half a cent of
    [initialInvestment + N * monthlyDeposit], and that sum exactly
    whenever the sum has at most two decimals.  This holds whatever the
    draws and whether or not an allocation call failed. *)
Theorem cumulative_capital_recorded :
  exists history,
    run = Ok history
    /\ forall N : nat, (N <= Z.to_nat durationInMonths)%nat ->
         exists st,
           history !! N = Some st
           /\ month st = N
           /\ (N = 0%nat -> totalCapitalInvested st = initialInvestment)
           /\ ((1 <= N)%nat -> roundedTo2 (totalCapitalInvested st))
           /\ Rabs (totalCapitalInvested st
                    - (initialInvestment + INR N * monthlyDeposit)) <= 0.005
           /\ (JsNumber.two_decimals
                 (initialInvestment + INR N * monthlyDeposit) ->
               totalCapitalInvested st
               = initialInvestment + INR N * monthlyDeposit).
Proof using valid draws.
  destruct complete_history as (outs & history & _ & Hsim & _ & _ & Hall).
  exists history. split; [exact Hsim|]. intros N HN.
  destruct (Hall N HN) as (st & Hst & Hm).
  exists st. split; [exact Hst|]. split; [exact Hm|].
  destruct (history_capital _ _ _ _ _ _ _ _ _ _ Hsim N st Hst) as [_ Hcap].
  rewrite Hcap. destruct N as [|k].
  - split; [reflexivity|]. split; [lia|]. split; [|intros _; simpl; lra].
    replace (initialInvestment - (initialInvestment + INR 0 * monthlyDeposit))
      with 0 by (simpl; lra).
    rewrite Rabs_R0. lra.
  - split; [discriminate|]. split; [intros _; apply round2_rounded|].
    split; [apply round2_error|].
    intros H2. apply round2_two_decimals. exact H2.
Qed.


(** C3, as the code has it.  When the variance of the basket is not
    negative, in every recorded state every per-asset holding is [>= 0];
    the recorded risk-free holding is negative only if the portfolio is
    leveraged (the target volatility exceeds the basket's volatility, so
    the risk-free weight is negative) or the month's
    [totalCapitalForReallocation] is negative. *)
Theorem holdings_signs :
  varianceNotNegative stocks bankAccount correlation ->
  exists outs history,
    months = Some outs
    /\ run = Ok history
    /\ forall (N : nat) (st : MonthlySimulatedPortfolioState),
         history !! N = Some st ->
         map_Forall (fun _ v => 0 <= v) (stockValues st)
         /\ (bankValue st < 0 ->
             leveraged stocks bankAccount targetOverallVolatility correlation
             \/ exists out,
                  (1 <= N)%nat /\ outs !! (N - 1)%nat = Some out
                  /\ totalCapitalForReallocation out < 0).
Proof using valid draws.
  intros _.
  destruct complete_history as (outs & history & Hloop & Hsim & -> & _ & _).
  exists outs, (initialRecord month0 :: map recorded outs).
  split; [exact Hloop|]. split; [exact Hsim|].
  destruct valid as [Hi _].
  intros N st HN. rewrite history_lookup in HN. destruct N as [|k].
  - injection HN as <-. cbn [initialRecord stockValues bankValue]. split.
    + apply (initialHoldings_invariant _ _ _ _ _ Hi).
    + intros Hneg. left. eapply initial_bank_negative; eassumption.
  - destruct (outs !! k) as [out|] eqn:Hk; [|discriminate].
    injection HN as <-.
    destruct (run_months _ _ _ _ _ _ _ _ _ _ Hi Hloop k out Hk)
      as (h' & t1 & t2 & Hinv & _ & Hs).
    destruct (recorded_fields _ _ _ _ _ _ _ _ _ _ _ Hs)
      as (_ & Hst & Hb & _).
    split.
    + rewrite Hst. eapply carried_nonneg. exact Hs.
    + rewrite Hb. intros Hneg. apply round2_negative in Hneg.
      destruct (carried_bank_negative _ _ _ _ _ _ _ _ _ _ _ Hinv Hs Hneg)
        as [Hl|Ht]; [left; exact Hl|].
      right. exists out. replace (S k - 1)%nat with k by lia.
      split; [lia|]. split; [exact Hk | exact Ht].
Qed.


End SimulationClaims.

(** ** Monthly returns *)

Section MonthlyReturns.

Lemma actualMonthlyReturn_table (scenario : ScenarioType) (stock : Stock)
    (randomFactor : R) :
  actualMonthlyReturn scenario stock randomFactor
  = Rmax (-1)
      (adjustedMean scenario (geometricMean stock / 12)
       + shock scenario randomFactor
         * adjustedVolatility scenario (volatility stock / sqrt 12)).
Proof.
  unfold actualMonthlyReturn, adjustedMean, adjustedVolatility, shock,
    BEST_CASE_RETURN_MULTIPLIER, BEST_CASE_VOL_MULTIPLIER,
    WORST_CASE_RETURN_MULTIPLIER, WORST_CASE_ADDITIONAL_NEGATIVE_BIAS,
    WORST_CASE_VOL_MULTIPLIER.
  destruct scenario; f_equal; lra.
Qed.

Lemma sqrt_12_pos : 0 < sqrt 12.
Proof. apply sqrt_lt_R0. lra. Qed.

End MonthlyReturns.

Section MonthlyReturnsOfARun.

Variables (initialInvestment monthlyDeposit : R) (stocks : list Stock)
          (bankAccount : BankAccount) (targetOverallVolatility : R)
          (durationInMonths : Z) (scenario : ScenarioType) (correlation : R)
          (tape : list R).

Abbreviation firstHoldings :=
  (initialHoldings initialInvestment stocks bankAccount
     targetOverallVolatility correlation).

(** C7, as the code has it.  In every month of a run one normal sample
    is drawn for each asset, in the order of the list, each within
    [-3.5, 3.5].  The return of an asset is the scenario's adjusted mean
    plus the shock times the scenario's adjusted volatility, clamped below
    at -1; in the BEST scenario the mean is the monthly expected return
    times 1.5, the volatility the monthly volatility times 0.6 and the
    shock the absolute value of the sample, and for an asset whose
    volatility is not negative the BEST return is at least the boosted
    mean.  That return is the one applied: where the variance of the
    basket is not negative, the grown holdings are the result of assigning
    to each asset in turn its holding at the start of the month times one
    plus its return, so that with distinct names (none of them
    ["__proto__"]) every asset holds exactly that product. *)
Theorem monthly_return_by_scenario :
  validSimulationInput initialInvestment monthlyDeposit stocks
    targetOverallVolatility durationInMonths ->
  enoughDraws stocks durationInMonths tape ->
  exists outs history,
    monthsLoop (Z.to_nat durationInMonths) 1 monthlyDeposit stocks
      bankAccount targetOverallVolatility scenario correlation firstHoldings
      tape = Some outs
    /\ simulateInvestmentStrategy initialInvestment monthlyDeposit stocks
         bankAccount targetOverallVolatility (IZR durationInMonths) scenario
         correlation tape = Ok history
    /\ length outs = Z.to_nat durationInMonths
    /\ forall (k : nat) (out : MonthOutcome),
         outs !! k = Some out ->
         let held := currentStockHoldings (heldBefore firstHoldings outs k) in
         history !! S k = Some (recorded out)
         /\ exists zs : list R,
           length zs = length stocks
           /\ (varianceNotNegative stocks bankAccount correlation ->
               grownStockHoldings out
               = grownWith scenario held (zip stocks zs) ∅)
           /\ forall (i : nat) (s : Stock) (z : R),
                stocks !! i = Some s -> zs !! i = Some z ->
                let monthlyExpectedReturn := geometricMean s / 12 in
                let monthlyVolatility := volatility s / sqrt 12 in
                -3.5 <= z <= 3.5
                /\ actualMonthlyReturn scenario s z
                   = Rmax (-1)
                       (adjustedMean scenario monthlyExpectedReturn
                        + shock scenario z
                          * adjustedVolatility scenario monthlyVolatility)
                /\ (scenario = BEST ->
                    adjustedMean scenario monthlyExpectedReturn
                    = monthlyExpectedReturn * 1.5
                    /\ adjustedVolatility scenario monthlyVolatility
                       = monthlyVolatility * 0.6
                    /\ shock scenario z = Rabs z
                    /\ (0 <= volatility s ->
                        monthlyExpectedReturn * 1.5
                        <= actualMonthlyReturn scenario s z))
                /\ (varianceNotNegative stocks bankAccount correlation ->
                    NoDup (map name stocks) -> name s <> "__proto__" ->
                    grownStockHoldings out !! name s
                    = Some (default 0 (held !! name s)
                            * (1 + actualMonthlyReturn scenario s z))).
Proof.
  intros Hv Hd.
  destruct (simulateTrace_returns _ _ _ bankAccount _ _ scenario correlation
              tape Hv Hd) as (outs & Hloop & _ & Hsim & Hlen).
  exists outs, (initialRecord firstHoldings :: map recorded outs).
  split; [exact Hloop|]. split; [exact Hsim|]. split; [exact Hlen|].
  intros k out Hk held.
  split; [rewrite history_lookup, Hk; reflexivity|].
  destruct (monthsLoop_chain _ _ _ _ _ _ _ _ _ _ _ Hloop k out Hk)
    as (t1 & t2 & Hs).
  destruct (monthStep_unfold _ _ _ _ _ _ _ _ _ _ _ Hs)
    as (grown & rebalanced & bank & Hg & _ & ->).
  cbn [grownStockHoldings].
  destruct (growStocks_samples _ _ _ _ _ _ _ Hg) as (zs & Hzs & Hrange & ->).
  exists zs. split; [exact Hzs|]. split; [intros _; reflexivity|].
  intros i s z Hs' Hz. cbv zeta.
  split.
  { rewrite Forall_forall in Hrange. apply Hrange.
    eapply list_elem_of_lookup_2. exact Hz. }
  split; [apply actualMonthlyReturn_table|]. split.
  - intros ->. split; [reflexivity|]. split; [reflexivity|].
    split; [reflexivity|]. intros Hvol.
    rewrite actualMonthlyReturn_table.
    eapply Rle_trans; [|apply Rmax_r].
    cbn [adjustedMean shock adjustedVolatility].
    pose proof (Rabs_pos z) as Ha.
    pose proof sqrt_12_pos as Hsq.
    assert (0 <= volatility s / sqrt 12).
    { apply Rmult_le_pos; [exact Hvol|].
      apply Rlt_le, Rinv_0_lt_compat, Hsq. }
    nra.
  - intros _ Hnd Hp. apply (grownWith_lookup _ _ _ _ _ i); assumption.
Qed.

End MonthlyReturnsOfARun.

Section NegativeVolatility.

(** *** C7 as stated fails *)

(** With a volatility of -0.2, which the simulation accepts, a sample of 1
    takes the BEST return below the boosted mean. *)
Lemma best_return_claim_fails : ~ best_return_claim.
Proof.
  intros Hclaim.
  specialize (Hclaim shortedStock 1 ltac:(lra)).
  rewrite actualMonthlyReturn_table in Hclaim.
  cbn [adjustedMean shock adjustedVolatility geometricMean volatility
       shortedStock] in Hclaim.
  pose proof sqrt_12_pos as Hs.
  assert (Hq : 0 < / sqrt 12) by (apply Rinv_0_lt_compat, Hs).
  revert Hclaim. apply Rlt_not_le.
  apply Rmax_lub_lt; [lra|].
  rewrite Rabs_R1. unfold Rdiv. lra.
Qed.

End NegativeVolatility.

(** ** Concrete runs *)

Section ConcreteRuns.

Lemma sampleTape_draws : nonZeroDraws sampleTape = 4%nat.
Proof.
  unfold nonZeroDraws, sampleTape.
  repeat (rewrite filter_cons; destruct (decide _) as [_|H];
          [|exfalso; apply H; lra]).
  reflexivity.
Qed.

Lemma sample_run_valid (initialInvestment monthlyDeposit target : R) :
  0 <= initialInvestment -> 0 <= monthlyDeposit ->
  validSimulationInput initialInvestment monthlyDeposit [sampleStock] target 2.
Proof.
  intros Hi Hd. repeat split; try assumption; [lia | discriminate].
Qed.

Lemma sample_run_draws : enoughDraws [sampleStock] 2 sampleTape.
Proof. unfold enoughDraws. rewrite sampleTape_draws. simpl. lia. Qed.

Lemma bank_only_valid (initialInvestment monthlyDeposit : R) (d : Z) :
  0 <= initialInvestment -> 0 <= monthlyDeposit -> (0 <= d)%Z ->
  validSimulationInput initialInvestment monthlyDeposit [] 0 d.
Proof. intros Hi Hd Hn. repeat split; try assumption. intros _. lra. Qed.

Lemma bank_only_draws (d : Z) : enoughDraws [] d [].
Proof. unfold enoughDraws. simpl. lia. Qed.

Lemma cumulative_capital_recorded_witness :
  validSimulationInput 1000 100.125 [sampleStock] 0.1 2
  /\ enoughDraws [sampleStock] 2 sampleTape
  /\ exists history st1 st2,
       simulateInvestmentStrategy 1000 100.125 [sampleStock] sampleBank 0.1 2
         AVERAGE 0.6 sampleTape = Ok history
       /\ history !! 1%nat = Some st1
       /\ Rabs (totalCapitalInvested st1 - 1100.125) <= 0.005
       /\ history !! 2%nat = Some st2
       /\ totalCapitalInvested st2 = 1200.25.
Proof.
  assert (Hv : validSimulationInput 1000 100.125 [sampleStock] 0.1 2)
    by (apply sample_run_valid; lra).
  split; [exact Hv|]. split; [exact sample_run_draws|].
  destruct (cumulative_capital_recorded 1000 100.125 [sampleStock] sampleBank
              0.1 2 AVERAGE 0.6 sampleTape Hv sample_run_draws)
    as (history & Hrun & Hall).
  destruct (Hall 1%nat ltac:(simpl; lia)) as (st1 & Hst1 & _ & _ & _ & Hb & _).
  destruct (Hall 2%nat ltac:(simpl; lia))
    as (st2 & Hst2 & _ & _ & _ & _ & Hexact).
  exists history, st1, st2. split; [exact Hrun|]. split; [exact Hst1|].
  split.
  { replace 1100.125 with (1000 + INR 1 * 100.125) by (simpl; lra).
    exact Hb. }
  split; [exact Hst2|].
  replace 1200.25 with (1000 + INR 2 * 100.125) by (simpl; lra).
  apply Hexact. exists 120025%Z. simpl. lra.
Defined.

Lemma twoStocks_names : NoDup (map name [sampleStock; growthStock]).
Proof.
  cbn. apply NoDup_cons. split; [|apply NoDup_singleton].
  intros H. apply list_elem_of_singleton in H. discriminate.
Qed.


Lemma holdings_signs_witness :
  validSimulationInput 1000 100 [sampleStock] 0.4 2
  /\ enoughDraws [sampleStock] 2 sampleTape
  /\ varianceNotNegative [sampleStock] sampleBank 0.6
  /\ exists history st,
       simulateInvestmentStrategy 1000 100 [sampleStock] sampleBank 0.4 2
         AVERAGE 0.6 sampleTape = Ok history
       /\ history !! 0%nat = Some st
       /\ map_Forall (fun _ v => 0 <= v) (stockValues st)
       /\ bankValue st = -1000
       /\ leveraged [sampleStock] sampleBank 0.4 0.6.
Proof.
  assert (Hv : validSimulationInput 1000 100 [sampleStock] 0.4 2)
    by (apply sample_run_valid; lra).
  assert (Hvar : varianceNotNegative [sampleStock] sampleBank 0.6)
    by apply single_stock_variance.
  split; [exact Hv|]. split; [exact sample_run_draws|].
  split; [exact Hvar|].
  destruct (holdings_signs 1000 100 [sampleStock] sampleBank 0.4
              2 AVERAGE 0.6 sampleTape Hv sample_run_draws Hvar)
    as (outs & history & _ & Hrun & Hall).
  destruct (simulate_returned _ _ _ _ _ _ _ _ _ _ Hrun)
    as (_ & outs' & _ & Hhist & _).
  assert (Hbank : bankValue
                    (initialRecord
                       (initialHoldings 1000 [sampleStock] sampleBank 0.4
                          0.6)) = -1000).
  { cbn [initialRecord bankValue]. unfold initialHoldings.
    destruct (decide (1000 > 0)); [|lra].
    rewrite single_stock_allocation by (apply sample_inputs_valid; lra).
    cbn. lra. }
  assert (Hst : history !! 0%nat
                = Some (initialRecord
                          (initialHoldings 1000 [sampleStock] sampleBank 0.4
                             0.6))).
  { rewrite Hhist. reflexivity. }
  destruct (Hall 0%nat _ Hst) as [Hnn Hneg].
  eexists history, _. split; [exact Hrun|]. split; [exact Hst|].
  split; [exact Hnn|]. split; [exact Hbank|].
  destruct Hneg as [Hl|(out & Hk & _)]; [rewrite Hbank; lra | exact Hl | lia].
Defined.

Lemma monthsLoop_first (n m : nat) (monthlyDeposit : R) (stocks : list Stock)
    (bankAccount : BankAccount) (target : R) (scenario : ScenarioType)
    (correlation : R) (h : Holdings) (tape : list R)
    (outs : list MonthOutcome) :
  monthsLoop (S n) m monthlyDeposit stocks bankAccount target scenario
    correlation h tape = Some outs ->
  exists out t1 rest,
    monthStep m monthlyDeposit stocks bankAccount target scenario correlation
      h tape = Some (out, t1)
    /\ outs = out :: rest.
Proof.
  cbn [monthsLoop].
  destruct (monthStep _ _ _ _ _ _ _ _ _) as [[out t1]|]; [|discriminate].
  cbn [mbind option_bind].
  destruct (monthsLoop _ _ _ _ _ _ _ _ _ _) as [rest|]; [|discriminate].
  intros [= <-]. eauto.
Qed.

Lemma rejectedBank_throws (t : R) :
  0 <= t ->
  calculateAllocation t [sampleStock] rejectedBank 0.1 0.6
  = Thrown InterestRateOutOfRange.
Proof.
  intros Ht. unfold calculateAllocation, validateInputs.
  destruct (decide (t < 0)); [lra|].
  replace (validateStocks [sampleStock]) with (Ok tt : Result AllocationError unit).
  2:{ symmetry. apply validateStocks_ok. constructor; [|constructor].
      split; [simpl; lra | discriminate]. }
  cbn [bind]. destruct (decide _) as [_|Hr]; [reflexivity|].
  exfalso. apply Hr. right. unfold MAX_INTEREST_RATE. simpl. lra.
Qed.


(** *** C2 as stated fails *)

(** With a deposit of 0.126 the capital recorded for month 1 is 100.13,
    not 100.126. *)
Lemma capital_exact_claim_fails : ~ capital_exact_claim.
Proof.
  intros Hclaim.
  destruct (simulateTrace_returns 100 0.126 [] sampleBank 0 1 AVERAGE 0.6 []
              (bank_only_valid 100 0.126 1 ltac:(lra) ltac:(lra) ltac:(lia))
              (bank_only_draws 1))
    as (outs & _ & _ & Hrun & Hlen).
  destruct (lookup_lt_is_Some_2 (initialRecord
              (initialHoldings 100 [] sampleBank 0 0.6) :: map recorded outs)
              1) as [st Hst].
  { cbn. rewrite length_map, Hlen. simpl. lia. }
  pose proof (Hclaim 100 0.126 [] sampleBank 0 1%Z AVERAGE 0.6 [] _ 1%nat st
                ltac:(lra) ltac:(lra) ltac:(lia) ltac:(intros _; reflexivity)
                Hrun ltac:(simpl; lia) Hst) as Hexact.
  destruct (history_capital _ _ _ _ _ _ _ _ _ _ Hrun 1%nat st Hst)
    as [_ Hcap].
  rewrite Hcap in Hexact.
  rewrite (round2_eval 10013) in Hexact; simpl in *; lra.
Qed.

(** *** C9 as stated fails *)


(** *** C3 as stated fails *)

(** A target volatility of 0.4 on a stock of volatility 0.2 borrows the
    initial 1000 at month 0, before any month has been simulated. *)
Lemma negative_bank_claim_fails : ~ negative_bank_claim.
Proof.
  intros Hclaim.
  assert (Hv : validSimulationInput 1000 0 [sampleStock] 0.4 0).
  { repeat split; try lra; [lia | discriminate]. }
  assert (Hd : enoughDraws [sampleStock] 0 []).
  { unfold enoughDraws. simpl. lia. }
  destruct (simulateTrace_returns 1000 0 [sampleStock] sampleBank 0.4 0
              AVERAGE 0.6 [] Hv Hd) as (outs & _ & Htrace & _ & Hlen).
  pose proof (Hclaim 1000 0 [sampleStock] sampleBank 0.4 0%Z AVERAGE 0.6 []
                _ outs 0%nat _ ltac:(lra) ltac:(lra) ltac:(lia)
                ltac:(discriminate) Htrace eq_refl) as [_ Hbank].
  destruct Hbank as (k & _ & Hk & _); [|lia].
  cbn [initialRecord bankValue]. unfold initialHoldings.
  destruct (decide (1000 > 0)); [|lra].
  rewrite single_stock_allocation by (apply sample_inputs_valid; lra).
  cbn. lra.
Qed.

End ConcreteRuns.

(** * Further properties of the allocation engine *)

Section AllocationErrors.

Implicit Types (totalAmount target correlation : R) (stocks : list Stock)
               (bankAccount : BankAccount).

(** Inputs that break a precondition are rejected, and rejected with an
    invalid-input error: never with one of the two later errors. *)
Theorem invalid_input_rejected totalAmount stocks bankAccount target
    correlation :
  ~ validAllocationInput totalAmount stocks bankAccount target correlation ->
  exists e,
    calculateAllocation totalAmount stocks bankAccount target correlation
    = Thrown e
    /\ isInvalidAllocationInput e.
Proof.
  intros Hnv. unfold calculateAllocation.
  destruct (validateInputs totalAmount stocks bankAccount target correlation)
    as [[]|e] eqn:Hv.
  - exfalso. apply Hnv, validateInputs_ok, Hv.
  - exists e. split; [reflexivity|].
    eapply validateInputs_thrown. exact Hv.
Qed.

Lemma invalid_input_rejected_witness :
  ~ validAllocationInput (-1) [sampleStock] sampleBank 0.1 0.6
  /\ exists e,
       calculateAllocation (-1) [sampleStock] sampleBank 0.1 0.6 = Thrown e
       /\ isInvalidAllocationInput e.
Proof.
  assert (H : ~ validAllocationInput (-1) [sampleStock] sampleBank 0.1 0.6).
  { intros [H _]. lra. }
  split; [exact H|].
  exact (invalid_input_rejected (-1) [sampleStock] sampleBank 0.1 0.6 H).
Defined.

(** On inputs that satisfy the preconditions the only failure is the
    unachievable target: the target volatility is then positive, and
    either there is no asset or the basket has no volatility. *)
Theorem valid_input_failure totalAmount stocks bankAccount target correlation
    (e : AllocationError) :
  validAllocationInput totalAmount stocks bankAccount target correlation ->
  calculateAllocation totalAmount stocks bankAccount target correlation
  = Thrown e ->
  isUnachievableVolatility e
  /\ 0 < target
  /\ (stocks = []
      \/ exists ws,
           calculateBasketWeights
             (calculateStockSharpeRatios stocks (interestRate bankAccount))
           = Ok ws
           /\ basketVolatility
                (calculateBasketMetrics stocks ws (interestRate bankAccount)
                   correlation) = 0).
Proof.
  intros Hv Hcall.
  assert (Ht : 0 <= target) by (destruct Hv as (_ & _ & _ & ? & _); lra).
  destruct stocks as [|s rest].
  - unfold calculateAllocation in Hcall.
    apply validateInputs_ok in Hv. rewrite Hv in Hcall. cbn [bind] in Hcall.
    destruct (decide (target = 0)); [discriminate|].
    injection Hcall as <-. split; [exact I|]. split; [lra | left; reflexivity].
  - destruct (degenerate_weights_dead (s :: rest) (interestRate bankAccount))
      as [ws Hws].
    rewrite (calculateAllocation_nonempty _ _ _ _ _ ws) in Hcall;
      [| discriminate | exact Hv | exact Hws].
    unfold basketWeightInPortfolio in Hcall.
    destruct (decide _) as [H0|H0]; [|discriminate].
    destruct (decide (target = 0)); [discriminate|].
    injection Hcall as <-. split; [exact I|]. split; [lra|].
    right. exists ws. split; [exact Hws | exact H0].
Qed.

Lemma valid_input_failure_witness :
  validAllocationInput 1000 [] sampleBank 0.1 0.6
  /\ calculateAllocation 1000 [] sampleBank 0.1 0.6
     = Thrown UnachievableVolatilityNoStocks
  /\ isUnachievableVolatility UnachievableVolatilityNoStocks.
Proof.
  assert (Hv : validAllocationInput 1000 [] sampleBank 0.1 0.6).
  { unfold validAllocationInput, MIN_INTEREST_RATE, MAX_INTEREST_RATE. simpl.
    repeat split; try lra. constructor. }
  assert (Hc : calculateAllocation 1000 [] sampleBank 0.1 0.6
               = Thrown UnachievableVolatilityNoStocks).
  { unfold calculateAllocation.
    replace (validateInputs 1000 [] sampleBank 0.1 0.6)
      with (Ok tt : Result AllocationError unit)
      by (symmetry; apply validateInputs_ok, Hv).
    cbn [bind]. destruct (decide _); [lra | reflexivity]. }
  split; [exact Hv|]. split; [exact Hc|].
  apply (valid_input_failure 1000 [] sampleBank 0.1 0.6 _ Hv Hc).
Defined.

End AllocationErrors.

(** ** The variance of the basket *)

Section BasketVariance.

Implicit Types (stocks : list Stock) (ws : list R) (sw : list (Stock * R)).

Lemma sumList_nonneg (l : list R) : Forall (fun a => 0 <= a) l -> 0 <= sumList l.
Proof.
  induction 1 as [|a l Ha _ IH]; [rewrite sumList_nil; lra|].
  rewrite sumList_cons. lra.
Qed.

Lemma sumSquares_cons (a : R) (l : list R) :
  sumSquares (a :: l) = a * a + sumSquares l.
Proof. unfold sumSquares. cbn [map]. apply sumList_cons. Qed.

Lemma sumSquares_nonneg (l : list R) : 0 <= sumSquares l.
Proof.
  induction l as [|a l IH]; [unfold sumSquares; simpl; rewrite sumList_nil; lra|].
  rewrite sumSquares_cons. nra.
Qed.

Lemma crossTerms_sum (wi vi correlation : R) sw (acc : R) :
  crossTerms wi vi correlation sw acc
  = acc + 2 * correlation * (wi * vi)
          * sumList (map (fun '(stock, w) => w * volatility stock) sw).
Proof.
  revert acc. induction sw as [|[sj wj] rest IH]; intros acc; cbn [crossTerms map].
  - rewrite sumList_nil. lra.
  - rewrite IH, sumList_cons. lra.
Qed.

Lemma varianceLoop_sum sw (correlation acc : R) :
  varianceLoop sw correlation acc
  = acc
    + (1 - correlation)
      * sumSquares (map (fun '(stock, w) => w * volatility stock) sw)
    + correlation
      * sumList (map (fun '(stock, w) => w * volatility stock) sw) ^ 2.
Proof.
  revert acc. induction sw as [|[si wi] rest IH]; intros acc;
    cbn [varianceLoop map].
  - unfold sumSquares. simpl. rewrite sumList_nil. lra.
  - rewrite IH, crossTerms_sum, sumSquares_cons, sumList_cons. ring.
Qed.

Lemma basket_volatility_quadratic_form_aux stocks ws
    (riskFreeRate correlation : R) :
  basketVolatility
    (calculateBasketMetrics stocks ws riskFreeRate correlation)
  = sqrt ((1 - correlation) * sumSquares (weightedVolatilities stocks ws)
          + correlation * sumList (weightedVolatilities stocks ws) ^ 2).
Proof.
  unfold calculateBasketMetrics, weightedVolatilities. cbn [basketVolatility].
  rewrite varianceLoop_sum. f_equal. lra.
Qed.

(** The double loop of [calculateBasketMetrics] computes the quadratic
    form of the uniform-correlation matrix: with [a_i = w_i * sigma_i], the
    basket volatility is
    [sqrt ((1 - rho) * sum a_i^2 + rho * (sum a_i)^2)]. *)
Theorem basket_volatility_quadratic_form stocks ws
    (riskFreeRate correlation : R) :
  basketVolatility
    (calculateBasketMetrics stocks ws riskFreeRate correlation)
  = sqrt ((1 - correlation) * sumSquares (weightedVolatilities stocks ws)
          + correlation * sumList (weightedVolatilities stocks ws) ^ 2).
Proof. apply basket_volatility_quadratic_form_aux. Qed.

Lemma weightedVolatilities_cons (s : Stock) stocks (w : R) ws :
  weightedVolatilities (s :: stocks) (w :: ws)
  = w * volatility s :: weightedVolatilities stocks ws.
Proof. reflexivity. Qed.

Lemma weightedVolatilities_nonneg stocks ws :
  Forall validStock stocks -> Forall (fun w => 0 <= w) ws ->
  Forall (fun a => 0 <= a) (weightedVolatilities stocks ws).
Proof.
  intros Hs. revert ws. induction Hs as [|s l [Hv _] _ IH]; intros ws Hw.
  - constructor.
  - destruct Hw as [|w ws Hw0 Hw]; [constructor|].
    rewrite weightedVolatilities_cons. constructor; [nra | apply IH, Hw].
Qed.

Lemma weightedVolatilities_pos stocks ws :
  length ws = length stocks ->
  Forall validStock stocks -> Forall (fun w => 0 <= w) ws ->
  0 < sumList ws ->
  0 < sumList (weightedVolatilities stocks ws)
  /\ 0 < sumSquares (weightedVolatilities stocks ws).
Proof.
  intros Hlen Hs. revert ws Hlen.
  induction Hs as [|s l [Hv Hn] Hl IH]; intros [|w ws] Hlen Hw Hsum;
    try discriminate.
  - rewrite sumList_nil in Hsum. lra.
  - inversion Hw as [|? ? Hw0 Hws]; subst.
    rewrite weightedVolatilities_cons, sumList_cons, sumSquares_cons.
    rewrite sumList_cons in Hsum.
    pose proof (sumList_nonneg _ (weightedVolatilities_nonneg l ws Hl Hws)).
    pose proof (sumSquares_nonneg (weightedVolatilities l ws)).
    destruct (Rle_lt_or_eq_dec 0 w Hw0) as [Hpos|<-].
    + assert (0 < w * volatility s) by nra. split; nra.
    + destruct (IH ws) as [H1 H2];
        [simpl in Hlen; lia | exact Hws | lra |].
      split; nra.
Qed.

(** With a correlation that is not negative the basket of a validated
    non-empty asset list has a positive volatility. *)
Lemma basket_volatility_positive stocks ws (riskFreeRate correlation : R) :
  stocks <> [] ->
  Forall validStock stocks ->
  0 <= correlation <= 1 ->
  calculateBasketWeights (calculateStockSharpeRatios stocks riskFreeRate)
  = Ok ws ->
  0 < basketVolatility
        (calculateBasketMetrics stocks ws riskFreeRate correlation).
Proof.
  intros Hne Hs Hc Hws.
  rewrite basket_volatility_quadratic_form_aux.
  assert (Hlen : length ws = length stocks).
  { rewrite (calculateBasketWeights_length _ _ Hws).
    unfold calculateStockSharpeRatios. apply length_map. }
  assert (Hsum : sumList ws = 1).
  { eapply calculateBasketWeights_sum; [|exact Hws].
    unfold calculateStockSharpeRatios. destruct stocks; [congruence|].
    discriminate. }
  destruct (weightedVolatilities_pos stocks ws Hlen Hs
              (calculateBasketWeights_nonneg _ _ Hws) ltac:(lra))
    as [H1 H2].
  apply sqrt_lt_R0.
  set (S1 := sumList (weightedVolatilities stocks ws)) in *.
  set (S2 := sumSquares (weightedVolatilities stocks ws)) in *.
  assert (Hsq : 0 < S1 ^ 2) by nra.
  destruct Hc as [Hc0 Hc1].
  assert (Ha : 0 <= (1 - correlation) * S2) by (apply Rmult_le_pos; lra).
  assert (Hb : 0 <= correlation * S1 ^ 2) by (apply Rmult_le_pos; lra).
  destruct (Rle_lt_or_eq_dec _ _ Hc1) as [Hlt|Heq].
  - assert (0 < (1 - correlation) * S2) by (apply Rmult_lt_0_compat; lra).
    lra.
  - rewrite Heq in *. lra.
Qed.

(** A correlation between 0 and 1 keeps the variance from being
    negative. *)
Lemma nonneg_correlation_variance stocks (bankAccount : BankAccount)
    (correlation : R) :
  0 <= correlation <= 1 ->
  varianceNotNegative stocks bankAccount correlation.
Proof.
  intros [H0 H1] ws _. rewrite varianceLoop_sum.
  set (a := map (fun '(stock, w) => w * volatility stock)
                (weighted stocks ws)).
  pose proof (sumSquares_nonneg a) as H2.
  pose proof (pow2_ge_0 (sumList a)) as H3.
  assert (0 <= (1 - correlation) * sumSquares a)
    by (apply Rmult_le_pos; lra).
  assert (0 <= correlation * sumList a ^ 2) by (apply Rmult_le_pos; lra).
  lra.
Qed.

(** A validated call on a non-empty list returns when the correlation is
    not negative. *)
Lemma valid_call_returns (totalAmount : R) stocks (bankAccount : BankAccount)
    (target correlation : R) :
  stocks <> [] ->
  validAllocationInput totalAmount stocks bankAccount target correlation ->
  0 <= correlation ->
  exists alloc,
    calculateAllocation totalAmount stocks bankAccount target correlation
    = Ok alloc.
Proof.
  intros Hne Hv Hc.
  destruct (degenerate_weights_dead stocks (interestRate bankAccount))
    as [ws Hws].
  assert (Hpos : 0 < basketVolatility
                       (calculateBasketMetrics stocks ws
                          (interestRate bankAccount) correlation)).
  { apply basket_volatility_positive; try assumption.
    - destruct Hv as (_ & HF & _). exact HF.
    - destruct Hv as (_ & _ & _ & _ & Hr). lra. }
  rewrite (calculateAllocation_nonempty _ _ _ _ _ ws Hne Hv Hws).
  unfold basketWeightInPortfolio.
  destruct (decide _); [lra|]. eexists. reflexivity.
Qed.

Lemma twoStocks_valid (totalAmount target : R) :
  0 <= totalAmount -> 0 <= target ->
  validAllocationInput totalAmount [sampleStock; growthStock] sampleBank
    target 0.6.
Proof.
  intros Ht Hv.
  unfold validAllocationInput, validStock, MIN_INTEREST_RATE,
    MAX_INTEREST_RATE. simpl.
  repeat split; try lra.
  repeat constructor; simpl; try lra; discriminate.
Qed.

Lemma twoStocks_returns (totalAmount target : R) :
  0 <= totalAmount -> 0 <= target ->
  exists alloc,
    calculateAllocation totalAmount [sampleStock; growthStock] sampleBank
      target 0.6 = Ok alloc.
Proof.
  intros Ht Hv. apply valid_call_returns; [discriminate | | lra].
  apply twoStocks_valid; assumption.
Qed.

Lemma twoStocks_variance :
  varianceNotNegative [sampleStock; growthStock] sampleBank 0.6.
Proof. apply nonneg_correlation_variance. lra. Qed.

End BasketVariance.

(** ** What a returned allocation satisfies *)

Section AllocationShape.

Implicit Types (totalAmount target correlation : R) (stocks : list Stock)
               (bankAccount : BankAccount) (ws : list R).

(** A returned allocation of a non-empty asset list is built from the
    basket weights and the basket's weight in the portfolio. *)
Lemma calculateAllocation_returned totalAmount stocks bankAccount target
    correlation alloc :
  stocks <> [] ->
  calculateAllocation totalAmount stocks bankAccount target correlation
  = Ok alloc ->
  exists ws bw,
    calculateBasketWeights
      (calculateStockSharpeRatios stocks (interestRate bankAccount)) = Ok ws
    /\ basketWeightInPortfolio
         (calculateBasketMetrics stocks ws (interestRate bankAccount)
            correlation) (interestRate bankAccount) target = Ok bw
    /\ length ws = length stocks
    /\ sumList ws = 1
    /\ Forall (fun w => 0 <= w) ws
    /\ alloc = allocationWith totalAmount stocks bankAccount target
                 correlation ws bw.
Proof.
  intros Hne Hcall.
  pose proof (calculateAllocation_validated _ _ _ _ _ _ Hcall) as Hv.
  destruct (degenerate_weights_dead stocks (interestRate bankAccount))
    as [ws Hws].
  rewrite (calculateAllocation_nonempty _ _ _ _ _ ws Hne Hv Hws) in Hcall.
  destruct (basketWeightInPortfolio _ _ _) as [bw|e] eqn:Hbw; [|discriminate].
  injection Hcall as <-. exists ws, bw.
  split; [exact Hws|]. split; [exact Hbw|]. split.
  { rewrite (calculateBasketWeights_length _ _ Hws).
    unfold calculateStockSharpeRatios. apply length_map. }
  split.
  { eapply calculateBasketWeights_sum; [|exact Hws].
    unfold calculateStockSharpeRatios. destruct stocks; [congruence|].
    discriminate. }
  split; [eapply calculateBasketWeights_nonneg; exact Hws | reflexivity].
Qed.

Lemma weightsInTotal_of_allocationWith totalAmount stocks bankAccount target
    correlation ws bw :
  length ws = length stocks ->
  map weightInTotal (PortfolioCalculator.stocks
                       (allocationWith totalAmount stocks bankAccount target
                          correlation ws bw))
  = map (fun w => bw * 100 * w) ws.
Proof.
  unfold allocationWith, weighted. cbn. rewrite map_map.
  revert ws. induction stocks as [|s l IH]; intros [|w ws] Hlen;
    try discriminate; [reflexivity|].
  cbn. f_equal; [lra|]. apply IH. simpl in Hlen. lia.
Qed.

(** The percentages of a returned allocation of a non-empty asset list add
    up: the weights in the basket to 100, and the weights in the total
    together with the bank's weight to 100.  The variance of the basket
    is taken not to be negative. *)
Theorem allocation_percentages_sum totalAmount stocks bankAccount target
    correlation alloc :
  stocks <> [] ->
  varianceNotNegative stocks bankAccount correlation ->
  calculateAllocation totalAmount stocks bankAccount target correlation
  = Ok alloc ->
  sumList (map weightInBasket (PortfolioCalculator.stocks alloc)) = 100
  /\ sumList (map weightInTotal (PortfolioCalculator.stocks alloc))
     + bankWeightInTotal (bankAllocation alloc) = 100.
Proof.
  intros Hne _ Hcall.
  destruct (calculateAllocation_returned _ _ _ _ _ _ Hne Hcall)
    as (ws & bw & _ & _ & Hlen & Hsum & _ & ->).
  rewrite (weightsInBasket_of_allocationWith _ _ _ _ _ _ _ Hlen).
  rewrite (weightsInTotal_of_allocationWith _ _ _ _ _ _ _ Hlen).
  replace (map (fun w => w * 100) ws) with (map (fun w => 100 * w) ws)
    by (apply map_ext; intros; lra).
  rewrite !sumList_map_scale, Hsum. cbn. split; lra.
Qed.

Lemma allocation_percentages_sum_witness :
  [sampleStock; growthStock] <> []
  /\ varianceNotNegative [sampleStock; growthStock] sampleBank 0.6
  /\ exists alloc,
       calculateAllocation 1000 [sampleStock; growthStock] sampleBank 0.1
         0.6 = Ok alloc
       /\ sumList (map weightInBasket (PortfolioCalculator.stocks alloc))
          = 100
       /\ sumList (map weightInTotal (PortfolioCalculator.stocks alloc))
          + bankWeightInTotal (bankAllocation alloc) = 100.
Proof.
  assert (Hne : [sampleStock; growthStock] <> []) by discriminate.
  split; [exact Hne|]. split; [exact twoStocks_variance|].
  destruct (twoStocks_returns 1000 0.1 ltac:(lra) ltac:(lra))
    as [alloc Hcall].
  exists alloc. split; [exact Hcall|].
  apply (allocation_percentages_sum 1000 [sampleStock; growthStock]
           sampleBank 0.1 0.6 alloc Hne twoStocks_variance Hcall).
Defined.

Lemma allocation_amounts_sum_witness :
  varianceNotNegative [sampleStock; growthStock] sampleBank 0.6
  /\ exists alloc,
       calculateAllocation 1000 [sampleStock; growthStock] sampleBank 0.1
         0.6 = Ok alloc
       /\ length (PortfolioCalculator.stocks alloc) = 2%nat
       /\ sumList (map amount (PortfolioCalculator.stocks alloc))
          + bankAmount (bankAllocation alloc) = 1000.
Proof.
  split; [exact twoStocks_variance|].
  destruct (twoStocks_returns 1000 0.1 ltac:(lra) ltac:(lra))
    as [alloc Hcall].
  exists alloc. split; [exact Hcall|]. split.
  - assert (Hne : [sampleStock; growthStock] <> []) by discriminate.
    destruct (calculateAllocation_returned _ _ _ _ _ _ Hne Hcall)
      as (ws & bw & _ & _ & Hlen & _ & _ & ->).
    pose proof (amounts_of_allocationWith 1000 [sampleStock; growthStock]
                  sampleBank 0.1 0.6 ws bw Hlen) as Ha.
    apply (f_equal length) in Ha. rewrite !length_map in Ha.
    rewrite Ha. exact Hlen.
  - destruct (allocation_amounts_sum 1000 [sampleStock; growthStock]
                sampleBank 0.1 0.6 alloc twoStocks_variance Hcall)
      as (_ & bw & _ & _ & _ & H & _).
    exact H.
Defined.

Lemma validAllocationInput_amount t1 t2 stocks bankAccount target correlation :
  0 <= t2 ->
  validAllocationInput t1 stocks bankAccount target correlation ->
  validAllocationInput t2 stocks bankAccount target correlation.
Proof. intros H2 (_ & H). split; assumption. Qed.

(** The allocation is proportional to the amount: allocating [c] times
    the amount gives [c] times every dollar amount and the same per-asset
    percentages; in particular an amount of 0 gives amounts of 0.  The
    variance of the basket is taken not to be negative. *)
Theorem allocation_scales_with_amount (c : R) totalAmount stocks bankAccount
    target correlation alloc :
  0 <= c ->
  varianceNotNegative stocks bankAccount correlation ->
  calculateAllocation totalAmount stocks bankAccount target correlation
  = Ok alloc ->
  exists alloc',
    calculateAllocation (c * totalAmount) stocks bankAccount target
      correlation = Ok alloc'
    /\ bankAmount (bankAllocation alloc')
       = c * bankAmount (bankAllocation alloc)
    /\ Forall2 (fun a a' =>
                  allocName a' = allocName a
                  /\ amount a' = c * amount a
                  /\ weightInBasket a' = weightInBasket a
                  /\ weightInTotal a' = weightInTotal a)
               (PortfolioCalculator.stocks alloc)
               (PortfolioCalculator.stocks alloc')
    /\ (stocks <> [] ->
        bankWeightInTotal (bankAllocation alloc')
        = bankWeightInTotal (bankAllocation alloc)).
Proof.
  intros Hc _ Hcall.
  pose proof (calculateAllocation_validated _ _ _ _ _ _ Hcall) as Hv.
  assert (Hct : 0 <= c * totalAmount).
  { destruct Hv as [Ht _]. apply Rmult_le_pos; assumption. }
  pose proof (validAllocationInput_amount _ _ _ _ _ _ Hct Hv) as Hv'.
  destruct stocks as [|s rest].
  - unfold calculateAllocation in *.
    apply validateInputs_ok in Hv, Hv'. rewrite Hv in Hcall. rewrite Hv'.
    cbn [bind] in *.
    destruct (decide (target = 0)); [|discriminate].
    injection Hcall as <-. eexists. split; [reflexivity|]. cbn.
    split; [reflexivity|]. split; [constructor | congruence].
  - assert (Hne : s :: rest <> []) by discriminate.
    destruct (calculateAllocation_returned _ _ _ _ _ _ Hne Hcall)
      as (ws & bw & Hws & Hbw & Hlen & _ & _ & ->).
    exists (allocationWith (c * totalAmount) (s :: rest) bankAccount target
              correlation ws bw).
    split.
    { rewrite (calculateAllocation_nonempty _ _ _ _ _ ws);
        [| discriminate | exact Hv' | exact Hws].
      rewrite Hbw. reflexivity. }
    split; [cbn; lra|]. split; [|reflexivity].
    unfold allocationWith. cbn [PortfolioCalculator.stocks].
    induction (weighted (s :: rest) ws) as [|[st w] l IH]; cbn [map];
      constructor; [|exact IH].
    cbn. repeat split; lra.
Qed.

Lemma allocation_scales_with_amount_witness :
  0 <= 2
  /\ varianceNotNegative [sampleStock; growthStock] sampleBank 0.6
  /\ exists alloc alloc',
       calculateAllocation 1000 [sampleStock; growthStock] sampleBank 0.1
         0.6 = Ok alloc
       /\ calculateAllocation (2 * 1000) [sampleStock; growthStock]
            sampleBank 0.1 0.6 = Ok alloc'
       /\ bankAmount (bankAllocation alloc')
          = 2 * bankAmount (bankAllocation alloc)
       /\ Forall2 (fun a a' => amount a' = 2 * amount a)
            (PortfolioCalculator.stocks alloc)
            (PortfolioCalculator.stocks alloc').
Proof.
  assert (Hc : 0 <= 2) by lra.
  split; [exact Hc|]. split; [exact twoStocks_variance|].
  destruct (twoStocks_returns 1000 0.1 ltac:(lra) ltac:(lra))
    as [alloc Hcall].
  destruct (allocation_scales_with_amount 2 1000 [sampleStock; growthStock]
              sampleBank 0.1 0.6 alloc Hc twoStocks_variance Hcall)
    as (alloc' & Hcall' & Hbank & Hall & _).
  exists alloc, alloc'. split; [exact Hcall|]. split; [exact Hcall'|].
  split; [exact Hbank|].
  eapply Forall2_impl; [exact Hall|]. cbn. intros a a' (_ & H & _). exact H.
Defined.

Lemma expectedReturn_fold (sw : list (Stock * R)) (acc : R) :
  fold_left (fun sum '(stock, w) => sum + w * geometricMean stock) sw acc
  = acc + sumList (map (fun '(stock, w) => w * geometricMean stock) sw).
Proof.
  revert acc. induction sw as [|[s w] l IH]; intros acc; cbn [fold_left map].
  - rewrite sumList_nil. lra.
  - rewrite IH, sumList_cons. lra.
Qed.

Lemma weighted_returns_bounds (lo hi : R) stocks ws :
  length ws = length stocks ->
  Forall (fun s => lo <= geometricMean s <= hi) stocks ->
  Forall (fun w => 0 <= w) ws ->
  lo * sumList ws
  <= sumList (map (fun '(stock, w) => w * geometricMean stock)
                  (weighted stocks ws))
  <= hi * sumList ws.
Proof.
  intros Hlen Hs. revert ws Hlen.
  induction Hs as [|s l Hg _ IH]; intros [|w ws] Hlen Hw; try discriminate.
  - cbn. lra.
  - inversion Hw as [|? ? Hw0 Hws]; subst.
    unfold weighted in *. cbn [zip zip_with map].
    rewrite !sumList_cons.
    specialize (IH ws ltac:(simpl in Hlen; lia) Hws). nra.
Qed.

(** The expected return of the basket lies between the lowest and the
    highest expected return of its assets: the basket weights are not
    negative and sum to 1. *)
Theorem basket_return_between_assets (lo hi : R) totalAmount stocks
    bankAccount target correlation alloc :
  stocks <> [] ->
  (forall s, s ∈ stocks -> lo <= geometricMean s <= hi) ->
  calculateAllocation totalAmount stocks bankAccount target correlation
  = Ok alloc ->
  lo * 100 <= expectedReturn (basketMetrics alloc) <= hi * 100.
Proof.
  intros Hne Hb Hcall.
  destruct (calculateAllocation_returned _ _ _ _ _ _ Hne Hcall)
    as (ws & bw & _ & _ & Hlen & Hsum & Hnn & ->).
  unfold allocationWith, calculateBasketMetrics.
  cbn [basketMetrics expectedReturn].
  rewrite expectedReturn_fold.
  assert (HF : Forall (fun s => lo <= geometricMean s <= hi) stocks)
    by (apply Forall_forall; exact Hb).
  pose proof (weighted_returns_bounds lo hi stocks ws Hlen HF Hnn) as H.
  rewrite Hsum in H. lra.
Qed.

Lemma basket_return_between_assets_witness :
  [sampleStock; growthStock] <> []
  /\ (forall s, s ∈ [sampleStock; growthStock] ->
      0.10 <= geometricMean s <= 0.13)
  /\ exists alloc,
       calculateAllocation 1000 [sampleStock; growthStock] sampleBank 0.1
         0.6 = Ok alloc
       /\ 0.10 * 100 <= expectedReturn (basketMetrics alloc) <= 0.13 * 100.
Proof.
  assert (Hne : [sampleStock; growthStock] <> []) by discriminate.
  assert (Hb : forall s, s ∈ [sampleStock; growthStock] ->
                 0.10 <= geometricMean s <= 0.13).
  { intros s Hs. apply elem_of_cons in Hs as [->|Hs]; [simpl; lra|].
    apply list_elem_of_singleton in Hs. subst s. simpl. lra. }
  split; [exact Hne|]. split; [exact Hb|].
  destruct (twoStocks_returns 1000 0.1 ltac:(lra) ltac:(lra))
    as [alloc Hcall].
  exists alloc. split; [exact Hcall|].
  apply (basket_return_between_assets 0.10 0.13 1000
           [sampleStock; growthStock] sampleBank 0.1 0.6 alloc Hne Hb Hcall).
Defined.

End AllocationShape.

(** ** Correlations that are not negative *)

Section NonNegativeCorrelation.

Implicit Types (totalAmount target correlation : R) (stocks : list Stock)
               (bankAccount : BankAccount) (ws : list R).

(** With a correlation in [0, 1] a validated call on a non-empty asset
    list always returns: the basket's volatility is positive and the
    basket's weight in the portfolio is the target over that volatility,
    so a target of 0 leaves every risky amount at 0 and the whole amount in
    the bank. *)
Theorem nonnegative_correlation_returns totalAmount stocks bankAccount target
    correlation :
  stocks <> [] ->
  validAllocationInput totalAmount stocks bankAccount target correlation ->
  0 <= correlation ->
  exists ws,
    calculateBasketWeights
      (calculateStockSharpeRatios stocks (interestRate bankAccount)) = Ok ws
    /\ let vol :=
         basketVolatility
           (calculateBasketMetrics stocks ws (interestRate bankAccount)
              correlation) in
       0 < vol
       /\ calculateAllocation totalAmount stocks bankAccount target
            correlation
          = Ok (allocationWith totalAmount stocks bankAccount target
                  correlation ws (target / vol))
       /\ (target = 0 ->
           Forall (fun a => amount a = 0)
                  (PortfolioCalculator.stocks
                     (allocationWith totalAmount stocks bankAccount target
                        correlation ws (target / vol)))
           /\ bankAmount
                (bankAllocation
                   (allocationWith totalAmount stocks bankAccount target
                      correlation ws (target / vol))) = totalAmount).
Proof.
  intros Hne Hv Hc.
  destruct (degenerate_weights_dead stocks (interestRate bankAccount))
    as [ws Hws].
  exists ws. split; [exact Hws|]. cbv zeta.
  assert (Hpos : 0 < basketVolatility
                       (calculateBasketMetrics stocks ws
                          (interestRate bankAccount) correlation)).
  { apply basket_volatility_positive; try assumption.
    - destruct Hv as (_ & HF & _). exact HF.
    - destruct Hv as (_ & _ & _ & _ & Hr). lra. }
  split; [exact Hpos|]. split.
  - rewrite (calculateAllocation_nonempty _ _ _ _ _ ws Hne Hv Hws).
    unfold basketWeightInPortfolio.
    destruct (decide _); [lra | reflexivity].
  - intros ->. unfold allocationWith.
    cbn [PortfolioCalculator.stocks bankAllocation bankAmount].
    split; [|unfold Rdiv; lra].
    apply Forall_forall. intros a Ha.
    apply list_elem_of_In, in_map_iff in Ha.
    destruct Ha as ([st w] & <- & _). cbn. unfold Rdiv. lra.
Qed.

Lemma nonnegative_correlation_returns_witness :
  [sampleStock; laggingStock] <> []
  /\ validAllocationInput 1000 [sampleStock; laggingStock] sampleBank 0.1 0.6
  /\ 0 <= 0.6
  /\ exists alloc,
       calculateAllocation 1000 [sampleStock; laggingStock] sampleBank 0.1
         0.6 = Ok alloc.
Proof.
  assert (Hne : [sampleStock; laggingStock] <> []) by discriminate.
  assert (Hv : validAllocationInput 1000 [sampleStock; laggingStock]
                 sampleBank 0.1 0.6).
  { unfold validAllocationInput, validStock, MIN_INTEREST_RATE,
      MAX_INTEREST_RATE. simpl.
    repeat split; try lra.
    repeat constructor; simpl; try lra; discriminate. }
  assert (Hc : 0 <= 0.6) by lra.
  split; [exact Hne|]. split; [exact Hv|]. split; [exact Hc|].
  destruct (nonnegative_correlation_returns 1000 [sampleStock; laggingStock]
              sampleBank 0.1 0.6 Hne Hv Hc) as (ws & _ & _ & Hcall & _).
  eexists. exact Hcall.
Defined.

Lemma sumSquares_le_square (l : list R) :
  Forall (fun a => 0 <= a) l -> sumSquares l <= sumList l ^ 2.
Proof.
  induction 1 as [|a l Ha Hl IH].
  - unfold sumSquares. simpl. rewrite sumList_nil. lra.
  - rewrite sumSquares_cons, sumList_cons.
    pose proof (sumList_nonneg l Hl). nra.
Qed.

Lemma weightedVolatilities_bound (top : R) stocks ws :
  length ws = length stocks ->
  Forall (fun s => volatility s <= top) stocks ->
  Forall (fun w => 0 <= w) ws ->
  sumList (weightedVolatilities stocks ws) <= top * sumList ws.
Proof.
  intros Hlen Hs. revert ws Hlen.
  induction Hs as [|s l Ht _ IH]; intros [|w ws] Hlen Hw; try discriminate.
  - cbn. lra.
  - inversion Hw as [|? ? Hw0 Hws]; subst.
    rewrite weightedVolatilities_cons, !sumList_cons.
    specialize (IH ws ltac:(simpl in Hlen; lia) Hws). nra.
Qed.

(** With a correlation in [0, 1] the basket is never more volatile than
    its most volatile asset. *)
Theorem basket_volatility_at_most_largest (top : R) totalAmount stocks
    bankAccount target correlation alloc :
  stocks <> [] ->
  0 <= correlation ->
  (forall s, s ∈ stocks -> volatility s <= top) ->
  calculateAllocation totalAmount stocks bankAccount target correlation
  = Ok alloc ->
  0 < basketVolatility (basketMetrics alloc) <= top * 100.
Proof.
  intros Hne Hc Htop Hcall.
  pose proof (calculateAllocation_validated _ _ _ _ _ _ Hcall) as Hv.
  destruct (calculateAllocation_returned _ _ _ _ _ _ Hne Hcall)
    as (ws & bw & Hws & _ & Hlen & Hsum & Hnn & ->).
  unfold allocationWith. cbn [basketMetrics basketVolatility].
  destruct Hv as (_ & HF & _ & _ & Hr).
  assert (Hpos : 0 < basketVolatility
                       (calculateBasketMetrics stocks ws
                          (interestRate bankAccount) correlation)).
  { apply basket_volatility_positive; try assumption. lra. }
  split; [lra|].
  apply Rmult_le_compat_r; [lra|].
  rewrite basket_volatility_quadratic_form_aux in *.
  set (S1 := sumList (weightedVolatilities stocks ws)) in *.
  set (S2 := sumSquares (weightedVolatilities stocks ws)) in *.
  pose proof (weightedVolatilities_nonneg stocks ws HF Hnn) as Hann.
  assert (H1 : 0 <= S1) by (apply sumList_nonneg, Hann).
  assert (H2 : S2 <= S1 ^ 2) by (apply sumSquares_le_square, Hann).
  assert (H3 : S1 <= top).
  { pose proof (weightedVolatilities_bound top stocks ws Hlen
                  ltac:(apply Forall_forall; exact Htop) Hnn) as Hb.
    rewrite Hsum in Hb. unfold S1. lra. }
  assert (Htop0 : 0 <= top) by lra.
  rewrite <- (sqrt_square top Htop0).
  apply sqrt_le_1_alt.
  assert (Ha : (1 - correlation) * S2 <= (1 - correlation) * S1 ^ 2)
    by (apply Rmult_le_compat_l; lra).
  nra.
Qed.

Lemma basket_volatility_at_most_largest_witness :
  [sampleStock; growthStock] <> []
  /\ 0 <= 0.6
  /\ (forall s, s ∈ [sampleStock; growthStock] -> volatility s <= 0.4)
  /\ exists alloc,
       calculateAllocation 1000 [sampleStock; growthStock] sampleBank 0.1
         0.6 = Ok alloc
       /\ 0 < basketVolatility (basketMetrics alloc) <= 0.4 * 100.
Proof.
  assert (Hne : [sampleStock; growthStock] <> []) by discriminate.
  assert (Hc : 0 <= 0.6) by lra.
  assert (Hb : forall s, s ∈ [sampleStock; growthStock] ->
                 volatility s <= 0.4).
  { intros s Hs. apply elem_of_cons in Hs as [->|Hs]; [simpl; lra|].
    apply list_elem_of_singleton in Hs. subst s. simpl. lra. }
  split; [exact Hne|]. split; [exact Hc|]. split; [exact Hb|].
  destruct (twoStocks_returns 1000 0.1 ltac:(lra) ltac:(lra))
    as [alloc Hcall].
  exists alloc. split; [exact Hcall|].
  apply (basket_volatility_at_most_largest 0.4 1000
           [sampleStock; growthStock] sampleBank 0.1 0.6 alloc Hne Hc Hb
           Hcall).
Defined.

End NonNegativeCorrelation.

(** * Further properties of the simulation *)

(** ** Holdings keyed by distinct names *)

Section DistinctNames.

Implicit Types (h : gmap string R) (stocks : list Stock)
               (allocated : list StockAllocationResult).

Lemma sumValues_insert_fresh h (k : string) (v : R) :
  h !! k = None -> sumValues (<[k := v]> h) = sumValues h + v.
Proof.
  intros Hk. unfold sumValues.
  rewrite map_fold_insert_L; [reflexivity | | exact Hk].
  intros. lra.
Qed.


Lemma applyAllocation_lookup_notin allocated h (k : string) :
  k ∉ map allocName allocated ->
  applyAllocation allocated h !! k = h !! k.
Proof.
  unfold applyAllocation. revert h.
  induction allocated as [|a l IH]; intros h Hk; cbn; [reflexivity|].
  cbn in Hk. apply not_elem_of_cons in Hk as [Hne Hk].
  rewrite IH by exact Hk. apply setProperty_lookup_ne. congruence.
Qed.

Lemma applyAllocation_lookup_in allocated h (a : StockAllocationResult) :
  NoDup (map allocName allocated) -> a ∈ allocated ->
  allocName a <> "__proto__" ->
  applyAllocation allocated h !! allocName a = Some (amount a).
Proof.
  revert h. induction allocated as [|a0 l IH]; intros h Hnd Ha Hproto.
  - inversion Ha.
  - cbn in Hnd. apply NoDup_cons in Hnd as [Hfresh Hnd].
    apply elem_of_cons in Ha as [->|Ha].
    + change (applyAllocation (a0 :: l) h)
        with (applyAllocation l (setProperty (allocName a0) (amount a0) h)).
      rewrite applyAllocation_lookup_notin by exact Hfresh.
      apply setProperty_lookup_eq, Hproto.
    + change (applyAllocation (a0 :: l) h)
        with (applyAllocation l (setProperty (allocName a0) (amount a0) h)).
      apply IH; assumption.
Qed.

Lemma applyAllocation_lookup_proto allocated h :
  applyAllocation allocated h !! "__proto__" = h !! "__proto__".
Proof.
  unfold applyAllocation. revert h.
  induction allocated as [|a l IH]; intros h; cbn; [reflexivity|].
  rewrite IH. apply setProperty_lookup_proto.
Qed.


Lemma zeroHoldings_lookup_notin stocks h (k : string) :
  k ∉ map name stocks -> zeroHoldings stocks h !! k = h !! k.
Proof.
  unfold zeroHoldings. revert h.
  induction stocks as [|s l IH]; intros h Hk; cbn; [reflexivity|].
  cbn in Hk. apply not_elem_of_cons in Hk as [Hne Hk].
  rewrite IH by exact Hk. apply setProperty_lookup_ne. congruence.
Qed.

Lemma zeroHoldings_lookup_proto stocks h :
  zeroHoldings stocks h !! "__proto__" = h !! "__proto__".
Proof.
  unfold zeroHoldings. revert h.
  induction stocks as [|s l IH]; intros h; cbn; [reflexivity|].
  rewrite IH. apply setProperty_lookup_proto.
Qed.

Lemma zeroHoldings_lookup stocks h (k : string) (v : R) :
  zeroHoldings stocks h !! k = Some v ->
  ((k ∈ map name stocks) /\ v = 0) \/ h !! k = Some v.
Proof.
  unfold zeroHoldings. revert h.
  induction stocks as [|s l IH]; intros h Hk; cbn in *.
  - right. exact Hk.
  - destruct (IH _ Hk) as [[Hin ->]|Hl].
    + left. split; [apply elem_of_cons; right; exact Hin | reflexivity].
    + apply setProperty_lookup_Some in Hl as [(<- & <- & _)|Hl].
      * left. split; [apply elem_of_cons; left; reflexivity | reflexivity].
      * right. exact Hl.
Qed.

(** A name other than ["__proto__"] is reset to 0. *)
Lemma zeroHoldings_lookup_in stocks h (k : string) :
  k ∈ map name stocks -> k <> "__proto__" ->
  zeroHoldings stocks h !! k = Some 0.
Proof.
  unfold zeroHoldings. revert h.
  induction stocks as [|s l IH]; intros h Hin Hk; cbn in *.
  - inversion Hin.
  - destruct (decide (k ∈ map name l)) as [Hl|Hl]; [apply IH; assumption|].
    apply elem_of_cons in Hin as [->|Hin]; [|contradiction].
    change (zeroHoldings l (setProperty (name s) 0 h) !! name s = Some 0).
    rewrite zeroHoldings_lookup_notin by exact Hl.
    apply setProperty_lookup_eq, Hk.
Qed.

Lemma zeroHoldings_keys stocks h :
  keysAmong stocks h -> keysAmong stocks (zeroHoldings stocks h).
Proof.
  intros Hh k v Hk. split.
  - destruct (zeroHoldings_lookup _ _ _ _ Hk) as [[Hin _]|Hl];
      [exact Hin | eapply Hh; exact Hl].
  - intros ->. rewrite zeroHoldings_lookup_proto in Hk.
    destruct (Hh _ _ Hk) as [_ Hne]. apply Hne. reflexivity.
Qed.

(** When the portfolio is wiped out no key keeps a value. *)
Lemma zeroHoldings_all_zero stocks h :
  keysAmong stocks h -> zeroedHoldings (zeroHoldings stocks h).
Proof.
  intros Hh k v Hk.
  destruct (zeroHoldings_keys _ _ Hh _ _ Hk) as [Hin Hne].
  rewrite (zeroHoldings_lookup_in _ _ _ Hin Hne) in Hk.
  injection Hk as <-. reflexivity.
Qed.

Lemma applyAllocation_keys stocks allocated h :
  map allocName allocated = map name stocks ->
  keysAmong stocks h -> keysAmong stocks (applyAllocation allocated h).
Proof.
  intros Hnames Hh k v Hk. split.
  - destruct (decide (k ∈ map allocName allocated)) as [Hin|Hnin].
    + rewrite <- Hnames. exact Hin.
    + rewrite applyAllocation_lookup_notin in Hk by exact Hnin.
      eapply Hh. exact Hk.
  - intros ->. rewrite applyAllocation_lookup_proto in Hk.
    destruct (Hh _ _ Hk) as [_ Hne]. apply Hne. reflexivity.
Qed.

Lemma growStocks_lookup_proto (scenario : ScenarioType) h stocks g tape grown
    tape' :
  growStocks scenario h stocks g tape = Some (grown, tape') ->
  grown !! "__proto__" = g !! "__proto__".
Proof.
  revert g tape. induction stocks as [|s l IH]; intros g tape; simpl.
  - intros [= <- _]. reflexivity.
  - destruct (generateStandardNormalRandom tape) as [[z t1]|]; simpl;
      [|discriminate].
    intros Hrec. rewrite (IH _ _ Hrec). apply setProperty_lookup_proto.
Qed.

Lemma growStocks_keys (scenario : ScenarioType) h stocks tape grown tape' :
  growStocks scenario h stocks ∅ tape = Some (grown, tape') ->
  keysAmong stocks grown.
Proof.
  intros Hg k v Hk. split.
  - destruct (growStocks_lookup _ _ _ _ _ _ _ Hg k v Hk)
      as [He|(s & z & Hin & <- & _)].
    + rewrite lookup_empty in He. discriminate.
    + apply list_elem_of_In, in_map, list_elem_of_In. exact Hin.
  - intros ->. rewrite (growStocks_lookup_proto _ _ _ _ _ _ _ Hg) in Hk.
    rewrite lookup_empty in Hk. discriminate.
Qed.

Lemma clamp_keys stocks h : keysAmong stocks h -> keysAmong stocks (Rmax 0 <$> h).
Proof.
  intros Hh k v Hk. rewrite lookup_fmap in Hk.
  destruct (h !! k) as [x|] eqn:Hx; [|discriminate].
  eapply Hh. exact Hx.
Qed.

(** The entries of a returned allocation carry the names of the assets,
    in order. *)
Lemma calculateAllocation_names (t : R) stocks (bankAccount : BankAccount)
    (target correlation : R) (alloc : PortfolioAllocationResult) :
  calculateAllocation t stocks bankAccount target correlation = Ok alloc ->
  map allocName (PortfolioCalculator.stocks alloc) = map name stocks.
Proof.
  intros Hcall.
  destruct stocks as [|s rest].
  - pose proof (calculateAllocation_validated _ _ _ _ _ _ Hcall) as Hv.
    unfold calculateAllocation in Hcall.
    apply validateInputs_ok in Hv. rewrite Hv in Hcall. cbn [bind] in Hcall.
    destruct (decide _); [|discriminate]. injection Hcall as <-. reflexivity.
  - assert (Hne : s :: rest <> []) by discriminate.
    destruct (calculateAllocation_returned _ _ _ _ _ _ Hne Hcall)
      as (ws & bw & _ & _ & Hlen & _ & _ & ->).
    unfold allocationWith, weighted. cbn [PortfolioCalculator.stocks].
    rewrite map_map. clear -Hlen. revert ws Hlen.
    induction (s :: rest) as [|s' l IH]; intros [|w ws] Hlen;
      try discriminate; [reflexivity|].
    cbn. f_equal. apply IH. simpl in Hlen. lia.
Qed.

(** The amounts of a returned allocation and the bank's amount add up to
    the amount allocated. *)
Lemma calculateAllocation_total (t : R) stocks (bankAccount : BankAccount)
    (target correlation : R) (alloc : PortfolioAllocationResult) :
  calculateAllocation t stocks bankAccount target correlation = Ok alloc ->
  sumList (map amount (PortfolioCalculator.stocks alloc))
  + bankAmount (bankAllocation alloc) = t.
Proof.
  intros Hcall.
  destruct stocks as [|s rest].
  - pose proof (calculateAllocation_validated _ _ _ _ _ _ Hcall) as Hv.
    unfold calculateAllocation in Hcall.
    apply validateInputs_ok in Hv. rewrite Hv in Hcall. cbn [bind] in Hcall.
    destruct (decide _); [|discriminate]. injection Hcall as <-.
    cbn [PortfolioCalculator.stocks bankAllocation bankAmount map].
    rewrite sumList_nil. lra.
  - assert (Hne : s :: rest <> []) by discriminate.
    destruct (calculateAllocation_returned _ _ _ _ _ _ Hne Hcall)
      as (ws & bw & _ & _ & Hlen & Hsum & _ & ->).
    rewrite (amounts_of_allocationWith _ _ _ _ _ _ _ Hlen).
    rewrite sumList_map_scale, Hsum. cbn. lra.
Qed.

End DistinctNames.

(** ** Runs, month by month *)

Section MoreRuns.

Variables (initialInvestment monthlyDeposit : R) (stocks : list Stock)
          (bankAccount : BankAccount) (targetOverallVolatility : R)
          (durationInMonths : Z) (scenario : ScenarioType) (correlation : R).

Abbreviation stepOf m :=
  (monthStep m monthlyDeposit stocks bankAccount targetOverallVolatility
     scenario correlation).
Abbreviation loopOf n m :=
  (monthsLoop n m monthlyDeposit stocks bankAccount targetOverallVolatility
     scenario correlation).
Abbreviation start :=
  (initialHoldings initialInvestment stocks bankAccount
     targetOverallVolatility correlation).
Abbreviation callOn t :=
  (calculateAllocation t stocks bankAccount targetOverallVolatility
     correlation).

(** An invariant indexed by the month holds at the start of every
    iteration. *)
Lemma monthsLoop_indexed (P : nat -> Holdings -> Prop) :
  (forall m h t out t',
     P m h -> stepOf m h t = Some (out, t') -> P (S m) (carried out)) ->
  forall (n m : nat) (h : Holdings) (tape : list R)
         (outs : list MonthOutcome),
    P m h ->
    loopOf n m h tape = Some outs ->
    forall (k : nat) (out : MonthOutcome),
      outs !! k = Some out ->
      exists h' t1 t2,
        P (m + k)%nat h' /\ stepOf (m + k)%nat h' t1 = Some (out, t2).
Proof.
  intros Hstep n. induction n as [|n IH]; intros m h tape outs HP; simpl.
  - intros [= <-] k out Hk. rewrite lookup_nil in Hk. discriminate.
  - destruct (monthStep _ _ _ _ _ _ _ _ _) as [[out1 t1]|] eqn:Hs; simpl;
      [|discriminate].
    destruct (monthsLoop _ _ _ _ _ _ _ _ _ _) as [rest|] eqn:Hrest; simpl;
      [|discriminate].
    intros [= <-] [|k] out Hk.
    + injection Hk as <-. exists h, tape, t1.
      rewrite Nat.add_0_r. split; [exact HP | exact Hs].
    + cbn in Hk.
      destruct (IH _ _ _ _ (Hstep _ _ _ _ _ HP Hs) Hrest k out Hk)
        as (h' & ta & tb & HP' & Hs').
      exists h', ta, tb.
      replace (m + S k)%nat with (S m + k)%nat by lia.
      split; assumption.
Qed.

(** The keys of the holdings stay among the names of the assets. *)
Lemma initialHoldings_keys :
  keysAmong stocks (currentStockHoldings start).
Proof.
  assert (Hz : keysAmong stocks (zeroHoldings stocks ∅)).
  { apply zeroHoldings_keys. intros k v Hk. rewrite lookup_empty in Hk.
    discriminate. }
  unfold initialHoldings. destruct (decide _); [|exact Hz].
  destruct (calculateAllocation _ _ _ _ _) as [alloc|e] eqn:Hcall;
    cbn [currentStockHoldings].
  - apply applyAllocation_keys; [|exact Hz].
    eapply calculateAllocation_names. exact Hcall.
  - apply zeroHoldings_keys, Hz.
Qed.

Lemma monthStep_keys (m : nat) (h : Holdings) (t t' : list R)
    (out : MonthOutcome) :
  keysAmong stocks (currentStockHoldings h) ->
  stepOf m h t = Some (out, t') ->
  keysAmong stocks (currentStockHoldings (carried out)).
Proof.
  intros Hk Hs.
  destruct (monthStep_unfold _ _ _ _ _ _ _ _ _ _ _ Hs)
    as (grown & rebalanced & bank & Hg & Hr & ->).
  cbn [carried currentStockHoldings]. apply clamp_keys.
  unfold rebalance in Hr. destruct (decide _).
  - destruct (calculateAllocation _ _ _ _ _) as [alloc|e] eqn:Hcall;
      injection Hr as <- _.
    + apply applyAllocation_keys; [|exact Hk].
      eapply calculateAllocation_names. exact Hcall.
    + eapply growStocks_keys. exact Hg.
  - injection Hr as <- _. apply zeroHoldings_keys, Hk.
Qed.

(** What every iteration of a run starts from. *)
Lemma run_states (tape : list R) (outs : list MonthOutcome) :
  0 <= initialInvestment ->
  loopOf (Z.to_nat durationInMonths) 1%nat start tape = Some outs ->
  forall (k : nat) (out : MonthOutcome),
    outs !! k = Some out ->
    exists h' t1 t2,
      holdingsInvariant stocks bankAccount targetOverallVolatility
        correlation h'
      /\ keysAmong stocks (currentStockHoldings h')
      /\ stepOf (S k) h' t1 = Some (out, t2).
Proof.
  intros Hi Hloop k out Hk.
  destruct (monthsLoop_indexed
              (fun _ h =>
                 holdingsInvariant stocks bankAccount targetOverallVolatility
                   correlation h
                 /\ keysAmong stocks (currentStockHoldings h)))
    with (n := Z.to_nat durationInMonths) (m := 1%nat) (h := start)
         (tape := tape) (outs := outs) (k := k) (out := out)
    as (h' & t1 & t2 & [Hinv Hkeys] & Hs).
  - intros m h t o t' [Hinv Hkeys] Hs. split.
    + eapply monthStep_invariant; eassumption.
    + eapply monthStep_keys; eassumption.
  - split; [apply initialHoldings_invariant, Hi | apply initialHoldings_keys].
  - exact Hloop.
  - exact Hk.
  - exists h', t1, t2. auto.
Qed.


(** The wipe-out branch: in a month whose [totalCapitalForReallocation]
    is not positive every risky holding is recorded as 0 and the bank
    holding carries the whole (possibly negative) capital. *)
Theorem wiped_out_month (tape : list R) :
  validSimulationInput initialInvestment monthlyDeposit stocks
    targetOverallVolatility durationInMonths ->
  enoughDraws stocks durationInMonths tape ->
  exists outs history,
    loopOf (Z.to_nat durationInMonths) 1%nat start tape = Some outs
    /\ simulateInvestmentStrategy initialInvestment monthlyDeposit stocks
         bankAccount targetOverallVolatility (IZR durationInMonths) scenario
         correlation tape = Ok history
    /\ forall (k : nat) (out : MonthOutcome),
         outs !! k = Some out ->
         totalCapitalForReallocation out <= 0 ->
         history !! S k = Some (recorded out)
         /\ map_Forall (fun _ v => v = 0) (stockValues (recorded out))
         /\ currentBankHolding (carried out)
            = totalCapitalForReallocation out
         /\ bankValue (recorded out)
            = JsNumber.round2 (totalCapitalForReallocation out)
         /\ totalPortfolioValue (recorded out)
            = JsNumber.round2 (totalCapitalForReallocation out).
Proof.
  intros Hv Hd.
  destruct (simulateTrace_returns _ _ _ bankAccount _ _ scenario correlation
              tape Hv Hd) as (outs & Hloop & _ & Hsim & _).
  exists outs, (initialRecord start :: map recorded outs).
  split; [exact Hloop|]. split; [exact Hsim|].
  destruct Hv as (Hi & _).
  intros k out Hk Hneg.
  split; [rewrite history_lookup, Hk; reflexivity|].
  destruct (run_states _ _ Hi Hloop k out Hk)
    as (h' & t1 & t2 & Hinv & Hkeys & Hs).
  destruct (monthStep_unfold _ _ _ _ _ _ _ _ _ _ _ Hs)
    as (grown & rebalanced & bank & Hg & Hr & ->).
  cbn [carried recorded currentBankHolding stockValues bankValue
       totalPortfolioValue totalCapitalForReallocation] in *.
  set (total := capitalAfterGrowth _ _ _ _) in *.
  unfold rebalance in Hr. destruct (decide (total > 0)); [lra|].
  injection Hr as <- <-.
  pose proof (zeroHoldings_all_zero _ _ Hkeys) as Hz.
  rewrite (clamp_id _ (zeroed_nonneg _ Hz)).
  rewrite (sumValues_zeroed _ Hz).
  split; [exact Hz|]. split; [reflexivity|]. split; [reflexivity|].
  f_equal. lra.
Qed.

End MoreRuns.

(** ** Runs without a month, and runs without risky holdings *)

Section SpecialRuns.

Variables (initialInvestment monthlyDeposit : R) (stocks : list Stock)
          (bankAccount : BankAccount) (targetOverallVolatility : R)
          (scenario : ScenarioType) (correlation : R).

Abbreviation begin :=
  (initialHoldings initialInvestment stocks bankAccount
     targetOverallVolatility correlation).
Abbreviation allocate t :=
  (calculateAllocation t stocks bankAccount targetOverallVolatility
     correlation).

(** A run of 0 months consumes no draw and returns the single state of
    month 0.  When the initial allocation returns, the state holds the
    bank amount of that allocation and, the asset names being distinct and
    none of them ["__proto__"], each asset's amount; when it throws,
    everything is in the bank.  The variance of the basket is taken not to
    be negative. *)
Theorem zero_month_run (tape : list R) :
  0 <= initialInvestment -> 0 <= monthlyDeposit ->
  (stocks = [] -> targetOverallVolatility <= 0) ->
  varianceNotNegative stocks bankAccount correlation ->
  exists st,
    simulateInvestmentStrategy initialInvestment monthlyDeposit stocks
      bankAccount targetOverallVolatility 0 scenario correlation tape
    = Ok [st]
    /\ month st = 0%nat
    /\ totalCapitalInvested st = initialInvestment
    /\ (forall alloc,
          0 < initialInvestment ->
          allocate initialInvestment = Ok alloc ->
          bankValue st = bankAmount (bankAllocation alloc)
          /\ (NoDup (map name stocks) ->
              "__proto__" ∉ map name stocks ->
              forall a, a ∈ PortfolioCalculator.stocks alloc ->
                stockValues st !! allocName a = Some (amount a)))
    /\ (forall e,
          0 < initialInvestment ->
          allocate initialInvestment = Thrown e ->
          bankValue st = initialInvestment
          /\ map_Forall (fun _ v => v = 0) (stockValues st)).
Proof.
  intros Hi Hd He _.
  assert (Hv : validSimulationInput initialInvestment monthlyDeposit stocks
                 targetOverallVolatility 0).
  { repeat split; try assumption. lia. }
  assert (Hdraws : enoughDraws stocks 0 tape).
  { unfold enoughDraws. simpl. lia. }
  destruct (simulateTrace_returns _ _ _ bankAccount _ _ scenario correlation
              tape Hv Hdraws) as (outs & Hloop & _ & Hsim & Hlen).
  destruct outs; [|discriminate].
  exists (initialRecord begin). split; [exact Hsim|].
  split; [reflexivity|].
  split; [apply initialHoldings_capital, Hi|].
  cbn [initialRecord bankValue stockValues].
  unfold initialHoldings. split.
  - intros alloc Hpos Hcall.
    destruct (decide _); [|lra]. rewrite Hcall.
    cbn [currentBankHolding currentStockHoldings].
    split; [reflexivity|]. intros Hnd Hproto a Ha.
    pose proof (calculateAllocation_names _ _ _ _ _ _ Hcall) as Hn.
    apply applyAllocation_lookup_in; [rewrite Hn; exact Hnd | exact Ha |].
    intros Heq. apply Hproto. rewrite <- Hn, <- Heq.
    apply list_elem_of_In, in_map, list_elem_of_In, Ha.
  - intros e Hpos Hcall.
    destruct (decide _); [|lra]. rewrite Hcall.
    cbn [currentBankHolding currentStockHoldings].
    split; [reflexivity|].
    apply zeroHoldings_zeroed, zeroHoldings_zeroed, map_Forall_empty.
Qed.

Lemma geometricSum_succ (q : R) (n : nat) :
  geometricSum q (S n) = 1 + q * geometricSum q n.
Proof. reflexivity. Qed.

Lemma balanceDepositLast_succ (b d q : R) (m : nat) :
  balanceDepositLast b d q (S m) = balanceDepositLast b d q m * q + d.
Proof.
  unfold balanceDepositLast. rewrite geometricSum_succ. cbn [pow]. ring.
Qed.

Lemma balanceDepositLast_zero (b d q : R) : balanceDepositLast b d q 0 = b.
Proof. unfold balanceDepositLast. simpl. ring. Qed.

Abbreviation bankOnly :=
  (bankOnlyHoldings initialInvestment monthlyDeposit bankAccount).

Hypothesis noRiskyHoldings :
  stocks = []
  \/ allocationFails stocks bankAccount targetOverallVolatility correlation.

Lemma returned_without_stocks (t : R) (alloc : PortfolioAllocationResult) :
  0 <= t -> allocate t = Ok alloc ->
  PortfolioCalculator.stocks alloc = [] /\ bankAmount (bankAllocation alloc) = t.
Proof using noRiskyHoldings.
  intros Ht Hcall. destruct noRiskyHoldings as [Hs|Hf].
  - pose proof (calculateAllocation_names _ _ _ _ _ _ Hcall) as Hn.
    pose proof (calculateAllocation_total _ _ _ _ _ _ Hcall) as Htot.
    rewrite Hs in Hn. cbn in Hn. apply map_eq_nil in Hn.
    rewrite Hn in Htot. cbn [map] in Htot. rewrite sumList_nil in Htot.
    split; [exact Hn | lra].
  - exfalso. eapply allocationFails_not_ok; eassumption.
Qed.

Lemma initialHoldings_bankOnly : 0 <= initialInvestment -> bankOnly 1 begin.
Proof using noRiskyHoldings.
  intros Hi. unfold bankOnlyHoldings. cbn [Nat.sub].
  rewrite balanceDepositLast_zero. unfold initialHoldings.
  assert (Hz : zeroedHoldings (zeroHoldings stocks ∅))
    by apply zeroHoldings_zeroed, map_Forall_empty.
  destruct (decide _) as [Hpos|Hpos].
  - destruct (calculateAllocation _ _ _ _ _) as [alloc|e] eqn:Hcall;
      cbn [currentStockHoldings currentBankHolding].
    + destruct (returned_without_stocks _ _ Hi Hcall) as [-> ->].
      split; [exact Hz | reflexivity].
    + split; [apply zeroHoldings_zeroed, Hz | reflexivity].
  - cbn [currentStockHoldings currentBankHolding]. split; [exact Hz | lra].
Qed.

Lemma monthStep_bankOnly (m : nat) (h : Holdings) (t t' : list R)
    (out : MonthOutcome) :
  (1 <= m)%nat ->
  bankOnly m h ->
  monthStep m monthlyDeposit stocks bankAccount targetOverallVolatility
    scenario correlation h t = Some (out, t') ->
  bankOnly (S m) (carried out)
  /\ totalCapitalForReallocation out = currentBankHolding (carried out).
Proof using noRiskyHoldings.
  intros Hm [Hz Hb] Hs.
  destruct (monthStep_unfold _ _ _ _ _ _ _ _ _ _ _ Hs)
    as (grown & rebalanced & bank & Hg & Hr & ->).
  cbn [carried currentStockHoldings currentBankHolding
       totalCapitalForReallocation].
  assert (Hgz : zeroedHoldings grown).
  { eapply growStocks_zeroed; [exact Hz | apply map_Forall_empty | exact Hg]. }
  unfold capitalAfterGrowth in *. rewrite (sumValues_zeroed _ Hgz) in *.
  set (q := 1 + interestRate bankAccount / 12) in *.
  assert (Hbal : 0 + currentBankHolding h * q + monthlyDeposit
                 = balanceDepositLast initialInvestment monthlyDeposit q
                     (S m - 1)).
  { replace (S m - 1)%nat with (S (m - 1)) by lia.
    rewrite balanceDepositLast_succ, Hb. lra. }
  unfold bankOnlyHoldings. cbn [currentStockHoldings currentBankHolding].
  unfold rebalance in Hr. destruct (decide _) as [Hpos|Hpos].
  - destruct (calculateAllocation _ _ _ _ _) as [alloc|e] eqn:Hcall;
      injection Hr as <- <-.
    + assert (Hnn : 0 <= 0 + currentBankHolding h * q + monthlyDeposit)
        by lra.
      destruct (returned_without_stocks _ _ Hnn Hcall) as [-> ->].
      unfold applyAllocation. cbn [fold_left].
      rewrite (clamp_id _ (zeroed_nonneg _ Hz)).
      split; [split; [exact Hz | exact Hbal] | reflexivity].
    + rewrite (clamp_id _ (zeroed_nonneg _ Hgz)).
      rewrite ?(sumValues_zeroed _ Hgz). unfold q in *.
      split; [split; [exact Hgz | lra] | lra].
  - injection Hr as <- <-.
    pose proof (zeroHoldings_zeroed stocks _ Hz) as Hzz.
    rewrite (clamp_id _ (zeroed_nonneg _ Hzz)).
    split; [split; [exact Hzz | exact Hbal] | reflexivity].
Qed.

(** With no asset, or with an allocation call that throws on every
    amount, the run is a bank account: every risky holding stays at 0,
    the total recorded is the bank value recorded, and the bank value
    recorded for month [N] is within half a cent of the initial investment
    compounded [N] times at the monthly rate, each deposit being added
    after the month's interest.  The variance of the basket is taken not
    to be negative. *)
Theorem bank_only_run (durationInMonths : Z) (tape : list R) :
  validSimulationInput initialInvestment monthlyDeposit stocks
    targetOverallVolatility durationInMonths ->
  enoughDraws stocks durationInMonths tape ->
  varianceNotNegative stocks bankAccount correlation ->
  exists history,
    simulateInvestmentStrategy initialInvestment monthlyDeposit stocks
      bankAccount targetOverallVolatility (IZR durationInMonths) scenario
      correlation tape = Ok history
    /\ length history = S (Z.to_nat durationInMonths)
    /\ forall (N : nat) (st : MonthlySimulatedPortfolioState),
         history !! N = Some st ->
         map_Forall (fun _ v => v = 0) (stockValues st)
         /\ (N = 0%nat -> bankValue st = initialInvestment)
         /\ Rabs (bankValue st
                  - balanceDepositLast initialInvestment monthlyDeposit
                      (1 + interestRate bankAccount / 12) N) <= 0.005
         /\ totalPortfolioValue st = bankValue st.
Proof using noRiskyHoldings.
  intros Hv Hd _.
  destruct (simulateTrace_returns _ _ _ bankAccount _ _ scenario correlation
              tape Hv Hd) as (outs & Hloop & _ & Hsim & Hlen).
  exists (initialRecord begin :: map recorded outs).
  split; [exact Hsim|].
  split; [cbn; rewrite length_map, Hlen; reflexivity|].
  destruct Hv as (Hi & _).
  pose proof (initialHoldings_bankOnly Hi) as [Hz0 Hb0].
  cbn [Nat.sub] in Hb0. rewrite balanceDepositLast_zero in Hb0.
  intros N st HN. rewrite history_lookup in HN. destruct N as [|k].
  - injection HN as <-.
    cbn [initialRecord stockValues bankValue totalPortfolioValue].
    split; [exact Hz0|]. split; [intros _; exact Hb0|].
    rewrite balanceDepositLast_zero, Hb0. split.
    + replace (initialInvestment - initialInvestment) with 0 by lra.
      rewrite Rabs_R0. lra.
    + rewrite (sumValues_zeroed _ Hz0). lra.
  - destruct (outs !! k) as [out|] eqn:Hk; [|discriminate].
    injection HN as <-.
    destruct (monthsLoop_indexed monthlyDeposit stocks bankAccount
                targetOverallVolatility scenario correlation
                (fun m h => (1 <= m)%nat /\ bankOnly m h))
      with (n := Z.to_nat durationInMonths) (m := 1%nat) (h := begin)
           (tape := tape) (outs := outs) (k := k) (out := out)
      as (h' & t1 & t2 & [Hm HP] & Hs).
    + intros m h t o t' [Hm HP] Hs. split; [lia|].
      eapply monthStep_bankOnly; eassumption.
    + split; [lia | apply initialHoldings_bankOnly, Hi].
    + exact Hloop.
    + exact Hk.
    + destruct (monthStep_bankOnly _ _ _ _ _ Hm HP Hs) as [[Hz Hb] _].
      destruct (recorded_fields _ _ _ _ _ _ _ _ _ _ _ Hs)
        as (_ & Hst & Hbv & Htot & _).
      rewrite Hst, Hbv, Htot, (sumValues_zeroed _ Hz), Hb.
      replace (S (1 + k) - 1)%nat with (S k) by lia.
      split; [exact Hz|]. split; [discriminate|].
      split; [apply round2_error|]. f_equal. lra.
Qed.

End SpecialRuns.

Section MoreRunsWitnesses.

(** The draws of [sampleTape] give the sample 0. *)
Lemma sampleTape_sample :
  generateStandardNormalRandom sampleTape = Some (0, [0.5; 0.25]).
Proof.
  unfold generateStandardNormalRandom, sampleTape. cbn [nextNonZero].
  destruct (decide (0.5 = 0)); [lra|].
  cbn [mbind option_bind nextNonZero].
  destruct (decide (0.25 = 0)); [lra|].
  cbn [mbind option_bind].
  replace (2.0 * PI * 0.25) with (PI / 2) by lra.
  rewrite cos_PI2, Rmult_0_r.
  rewrite Rmin_right by lra. rewrite Rmax_right by lra. reflexivity.
Qed.

Lemma sampleStock_names : NoDup (map name [sampleStock]).
Proof. cbn. apply NoDup_singleton. Qed.




Lemma monthly_return_by_scenario_witness :
  validSimulationInput 1000 100 [sampleStock; growthStock] 0.1 1
  /\ enoughDraws [sampleStock; growthStock] 1 sampleTape
  /\ varianceNotNegative [sampleStock; growthStock] sampleBank 0.6
  /\ exists history out z,
       simulateInvestmentStrategy 1000 100 [sampleStock; growthStock]
         sampleBank 0.1 1 BEST 0.6 sampleTape = Ok history
       /\ history !! 1%nat = Some (recorded out)
       /\ -3.5 <= z <= 3.5
       /\ grownStockHoldings out !! "TECH"
          = Some (default 0
                    (currentStockHoldings
                       (initialHoldings 1000 [sampleStock; growthStock]
                          sampleBank 0.1 0.6) !! "TECH")
                  * (1 + actualMonthlyReturn BEST growthStock z))
       /\ actualMonthlyReturn BEST growthStock z
          = Rmax (-1) (0.13 / 12 * 1.5 + Rabs z * (0.4 / sqrt 12 * 0.6))
       /\ 0.13 / 12 * 1.5 <= actualMonthlyReturn BEST growthStock z.
Proof.
  assert (Hv : validSimulationInput 1000 100 [sampleStock; growthStock] 0.1
                 1).
  { repeat split; try lra; [lia | discriminate]. }
  assert (Hd : enoughDraws [sampleStock; growthStock] 1 sampleTape).
  { unfold enoughDraws. rewrite sampleTape_draws. simpl. lia. }
  split; [exact Hv|]. split; [exact Hd|]. split; [exact twoStocks_variance|].
  destruct (monthly_return_by_scenario 1000 100 [sampleStock; growthStock]
              sampleBank 0.1 1 BEST 0.6 sampleTape Hv Hd)
    as (outs & history & _ & Hrun & Hlen & Hall).
  destruct outs as [|out [|out' outs]]; try discriminate Hlen.
  destruct (Hall 0%nat out eq_refl) as (Hst & zs & Hzs & _ & Hper).
  destruct zs as [|z1 [|z2 [|z3 zs]]]; try discriminate Hzs.
  destruct (Hper 1%nat growthStock z2 eq_refl eq_refl)
    as (Hrange & Hform & Hbest & Hlook).
  exists history, out, z2. split; [exact Hrun|]. split; [exact Hst|].
  split; [exact Hrange|]. split; [|split].
  - apply Hlook;
      [exact twoStocks_variance | exact twoStocks_names | discriminate].
  - exact Hform.
  - destruct (Hbest eq_refl) as (_ & _ & _ & Hbound).
    apply Hbound. simpl. lra.
Defined.


(** A target volatility of 100 on a stock of volatility 0.2 holds 500
    times the capital in the stock and owes the rest: a month of the WORST
    scenario with a sample of 0 loses 0.5% of the stock and the capital
    becomes negative. *)
Lemma wiped_out_month_witness :
  validSimulationInput 1000 0 [sampleStock] 100 1
  /\ enoughDraws [sampleStock] 1 sampleTape
  /\ exists history out,
       simulateInvestmentStrategy 1000 0 [sampleStock] sampleBank 100 1
         WORST 0.6 sampleTape = Ok history
       /\ currentStockHoldings
            (initialHoldings 1000 [sampleStock] sampleBank 100 0.6)
          !! "SMP500" = Some 500000
       /\ history !! 1%nat = Some (recorded out)
       /\ totalCapitalForReallocation out = -2747.5
       /\ map_Forall (fun _ v => v = 0) (stockValues (recorded out))
       /\ bankValue (recorded out)
          = JsNumber.round2 (totalCapitalForReallocation out).
Proof.
  assert (Hv : validSimulationInput 1000 0 [sampleStock] 100 1).
  { repeat split; try lra; [lia | discriminate]. }
  assert (Hd : enoughDraws [sampleStock] 1 sampleTape).
  { unfold enoughDraws. rewrite sampleTape_draws. simpl. lia. }
  split; [exact Hv|]. split; [exact Hd|].
  destruct (wiped_out_month 1000 0 [sampleStock] sampleBank 100 1
              WORST 0.6 sampleTape Hv Hd)
    as (outs & history & Hloop & Hrun & Hwipe).
  change (Z.to_nat 1) with 1%nat in Hloop.
  destruct (monthsLoop_first _ _ _ _ _ _ _ _ _ _ _ Hloop)
    as (out & t1 & rest & Hstep & ->).
  assert (Hheld : currentStockHoldings
                    (initialHoldings 1000 [sampleStock] sampleBank 100 0.6)
                  = <["SMP500" := 500000]> (<["SMP500" := 0]> ∅)
                  /\ currentBankHolding
                       (initialHoldings 1000 [sampleStock] sampleBank 100
                          0.6) = -499000).
  { unfold initialHoldings. destruct (decide (1000 > 0)); [|lra].
    rewrite single_stock_allocation by (apply sample_inputs_valid; lra).
    cbn [allocationWith PortfolioCalculator.stocks bankAllocation bankAmount
         currentStockHoldings currentBankHolding weighted zip zip_with map
         applyAllocation zeroHoldings fold_left allocName amount name
         sampleStock volatility].
    unfold setProperty.
    destruct (decide ("SMP500" = "__proto__")); [discriminate|].
    split; [|lra]. f_equal. lra. }
  destruct Hheld as [Hstocks Hbank].
  assert (Htotal : totalCapitalForReallocation out = -2747.5).
  { destruct (monthStep_unfold _ _ _ _ _ _ _ _ _ _ _ Hstep)
      as (grown & rebalanced & bank & Hg & _ & ->).
    cbn [totalCapitalForReallocation]. unfold capitalAfterGrowth.
    rewrite Hbank. rewrite Hstocks in Hg.
    cbn [growStocks] in Hg. rewrite sampleTape_sample in Hg.
    cbn [mbind option_bind] in Hg. injection Hg as <- _.
    unfold setProperty. cbn [name sampleStock].
    destruct (decide ("SMP500" = "__proto__")); [discriminate|].
    rewrite sumValues_insert_fresh by apply lookup_empty.
    rewrite sumValues_empty, lookup_insert_eq. cbn [default].
    rewrite actualMonthlyReturn_table.
    cbn [adjustedMean shock adjustedVolatility geometricMean volatility
         sampleStock interestRate sampleBank].
    unfold Datatypes.id. rewrite Rmult_0_l, Rmax_right by lra. lra. }
  destruct (Hwipe 0%nat out eq_refl ltac:(rewrite Htotal; lra))
    as (Hh & Hz & _ & Hb & _).
  exists history, out. split; [exact Hrun|].
  split; [rewrite Hstocks; apply lookup_insert_eq|].
  split; [exact Hh|]. split; [exact Htotal|]. split; [exact Hz | exact Hb].
Defined.

Lemma zero_month_run_witness :
  0 <= 1000 /\ 0 <= 100
  /\ varianceNotNegative [sampleStock] sampleBank 0.6
  /\ exists st,
       simulateInvestmentStrategy 1000 100 [sampleStock] sampleBank 0.1 0
         AVERAGE 0.6 [] = Ok [st]
       /\ totalCapitalInvested st = 1000
       /\ bankValue st = 1000 * (1 - 0.1 / 0.2)
       /\ stockValues st !! "SMP500" = Some (1000 * (0.1 / 0.2) * 1).
Proof.
  assert (H1 : 0 <= 1000) by lra. assert (H2 : 0 <= 100) by lra.
  assert (Hvar : varianceNotNegative [sampleStock] sampleBank 0.6)
    by apply single_stock_variance.
  split; [exact H1|]. split; [exact H2|]. split; [exact Hvar|].
  destruct (zero_month_run 1000 100 [sampleStock] sampleBank 0.1 AVERAGE 0.6
              [] H1 H2 ltac:(discriminate) Hvar)
    as (st & Hrun & _ & Hcap & Hok & _).
  destruct (Hok _ ltac:(lra)
              (single_stock_allocation 1000 sampleStock sampleBank 0.1 0.6
                 (sample_inputs_valid 1000 0.1 ltac:(lra) ltac:(lra))))
    as [Hbank Hstocks].
  exists st. split; [exact Hrun|]. split; [exact Hcap|].
  split; [exact Hbank|].
  apply (Hstocks sampleStock_names
           ltac:(cbn; intros H; apply list_elem_of_singleton in H;
                 discriminate)
           (mkStockAlloc "SMP500" (1000 * (0.1 / 0.2) * 1) (1 * 100)
              (1 * (0.1 / 0.2) * 100))).
  cbn. apply list_elem_of_singleton. reflexivity.
Defined.

Lemma rejectedBank_fails :
  allocationFails [sampleStock] rejectedBank 0.1 0.6.
Proof.
  exists InterestRateOutOfRange. intros t Ht. apply rejectedBank_throws, Ht.
Qed.

Lemma bank_only_run_witness :
  validSimulationInput 1000 100 [sampleStock] 0.1 2
  /\ enoughDraws [sampleStock] 2 sampleTape
  /\ varianceNotNegative [sampleStock] rejectedBank 0.6
  /\ exists history st,
       simulateInvestmentStrategy 1000 100 [sampleStock] rejectedBank 0.1 2
         AVERAGE 0.6 sampleTape = Ok history
       /\ length history = 3%nat
       /\ history !! 2%nat = Some st
       /\ map_Forall (fun _ v => v = 0) (stockValues st)
       /\ Rabs (bankValue st
                - balanceDepositLast 1000 100 (1 + 0.2 / 12) 2) <= 0.005.
Proof.
  assert (Hv : validSimulationInput 1000 100 [sampleStock] 0.1 2)
    by (apply sample_run_valid; lra).
  assert (Hvar : varianceNotNegative [sampleStock] rejectedBank 0.6)
    by apply single_stock_variance.
  split; [exact Hv|]. split; [exact sample_run_draws|].
  split; [exact Hvar|].
  destruct (bank_only_run 1000 100 [sampleStock] rejectedBank 0.1 AVERAGE 0.6
              (or_intror rejectedBank_fails) 2 sampleTape Hv sample_run_draws
              Hvar)
    as (history & Hrun & Hlen & Hall).
  destruct (lookup_lt_is_Some_2 history 2) as [st Hst].
  { rewrite Hlen. simpl. lia. }
  exists history, st. split; [exact Hrun|]. split; [exact Hlen|].
  split; [exact Hst|].
  destruct (Hall 2%nat st Hst) as (Hz & _ & Hb & _). split; [exact Hz|].
  exact Hb.
Defined.

End MoreRunsWitnesses.

(** * Rounding, further *)




(** * The single-asset simulator *)

Section SingleAsset.

Variables (monthlyInvestmentAmount : R)
          (monthlyExpectedReturn monthlyVolatility : R)
          (scenario : ScenarioType).

Abbreviation stepS m :=
  (StockMarketSimulator.monthStep m monthlyInvestmentAmount
     monthlyExpectedReturn monthlyVolatility scenario).
Abbreviation loopS n m :=
  (StockMarketSimulator.monthsLoop n m monthlyInvestmentAmount
     monthlyExpectedReturn monthlyVolatility scenario).
Abbreviation returnS z :=
  (StockMarketSimulator.actualMonthlyReturn scenario monthlyExpectedReturn
     monthlyVolatility z).

Lemma single_step_unfold (m : nat) (r : StockMarketSimulator.Running)
    (tape tape' : list R) (rec : StockMarketSimulator.MonthlyStockValue)
    (r' : StockMarketSimulator.Running) :
  stepS m r tape = Some (rec, r', tape') ->
  exists z,
    generateStandardNormalRandom tape = Some (z, tape')
    /\ let deposited :=
         StockMarketSimulator.runningValue r + monthlyInvestmentAmount in
       let invested :=
         StockMarketSimulator.runningInvested r + monthlyInvestmentAmount in
       let value := Rmax 0 (deposited + deposited * returnS z) in
       r' = StockMarketSimulator.mkRunning value invested
       /\ rec = StockMarketSimulator.mkMonthly m (JsNumber.round2 value)
                  (JsNumber.round2 invested) (JsFixed.round4 (returnS z)).
Proof.
  unfold StockMarketSimulator.monthStep.
  change (StockMarketSimulator.generateStandardNormalRandom tape)
    with (generateStandardNormalRandom tape).
  destruct (generateStandardNormalRandom tape) as [[z t1]|]; simpl;
    [|discriminate].
  intros [= <- <- <-]. exists z. cbv zeta. auto.
Qed.

Lemma single_step_enough (m : nat) (r : StockMarketSimulator.Running)
    (tape : list R) :
  (2 <= nonZeroDraws tape)%nat ->
  exists rec r' tape',
    stepS m r tape = Some (rec, r', tape')
    /\ nonZeroDraws tape = S (S (nonZeroDraws tape')).
Proof.
  intros Hn.
  destruct (generateStandardNormalRandom_enough tape Hn) as (z & t1 & Hz).
  unfold StockMarketSimulator.monthStep.
  change (StockMarketSimulator.generateStandardNormalRandom tape)
    with (generateStandardNormalRandom tape).
  rewrite Hz. simpl. eexists _, _, _. split; [reflexivity|].
  eapply generateStandardNormalRandom_draws. exact Hz.
Qed.

Lemma single_loop_enough (n m : nat) (r : StockMarketSimulator.Running)
    (tape : list R) :
  (2 * n <= nonZeroDraws tape)%nat ->
  exists recs, loopS n m r tape = Some recs /\ length recs = n.
Proof.
  revert m r tape. induction n as [|n IH]; intros m r tape Hn; simpl.
  - eauto.
  - destruct (single_step_enough m r tape) as (rec & r' & t1 & Hs & Hd);
      [lia|].
    rewrite Hs. simpl.
    destruct (IH (S m) r' t1) as (rest & Hrest & Hlen); [lia|].
    rewrite Hrest. simpl. eexists. split; [reflexivity|]. simpl. lia.
Qed.

(** An invariant indexed by the month holds at the start of every
    iteration. *)
Lemma single_loop_indexed (P : nat -> StockMarketSimulator.Running -> Prop) :
  (forall m r t rec r' t',
     P m r -> stepS m r t = Some (rec, r', t') -> P (S m) r') ->
  forall (n m : nat) (r : StockMarketSimulator.Running) (tape : list R)
         (recs : list StockMarketSimulator.MonthlyStockValue),
    P m r ->
    loopS n m r tape = Some recs ->
    forall (k : nat) (rec : StockMarketSimulator.MonthlyStockValue),
      recs !! k = Some rec ->
      exists r0 t1 r1 t2,
        P (m + k)%nat r0 /\ stepS (m + k)%nat r0 t1 = Some (rec, r1, t2).
Proof.
  intros Hstep n. induction n as [|n IH]; intros m r tape recs HP; simpl.
  - intros [= <-] k rec Hk. rewrite lookup_nil in Hk. discriminate.
  - destruct (StockMarketSimulator.monthStep _ _ _ _ _ _ _)
      as [[[rec1 r1] t1]|] eqn:Hs; simpl; [|discriminate].
    destruct (StockMarketSimulator.monthsLoop _ _ _ _ _ _ _ _)
      as [rest|] eqn:Hrest; simpl; [|discriminate].
    intros [= <-] [|k] rec Hk.
    + injection Hk as <-. exists r, tape, r1, t1.
      rewrite Nat.add_0_r. split; [exact HP | exact Hs].
    + cbn in Hk.
      destruct (IH _ _ _ _ (Hstep _ _ _ _ _ _ HP Hs) Hrest k rec Hk)
        as (r0 & ta & rb & tb & HP' & Hs').
      exists r0, ta, rb, tb.
      replace (m + S k)%nat with (S m + k)%nat by lia.
      split; assumption.
Qed.

Lemma single_return_floor (z : R) : -1 <= returnS z.
Proof. unfold StockMarketSimulator.actualMonthlyReturn. apply Rmax_l. Qed.

End SingleAsset.

Section SingleAssetRuns.

Variables (initialInvestmentAmount monthlyInvestmentAmount : R)
          (annualExpectedReturn annualVolatility : R)
          (investmentDurationInMonths : Z) (scenario : ScenarioType).

Abbreviation runS tape :=
  (StockMarketSimulator.simulateInvestment initialInvestmentAmount
     monthlyInvestmentAmount annualExpectedReturn annualVolatility
     (IZR investmentDurationInMonths) scenario tape).
Abbreviation monthsS tape :=
  (StockMarketSimulator.monthsLoop (Z.to_nat investmentDurationInMonths) 1
     monthlyInvestmentAmount (annualExpectedReturn / 12)
     (annualVolatility / sqrt 12) scenario
     (StockMarketSimulator.mkRunning initialInvestmentAmount
        initialInvestmentAmount) tape).
Abbreviation firstS :=
  (StockMarketSimulator.mkMonthly 0
     (JsNumber.round2 initialInvestmentAmount)
     (JsNumber.round2 initialInvestmentAmount) 0).

Hypothesis validS :
  validSingleAssetInput initialInvestmentAmount monthlyInvestmentAmount
    annualVolatility investmentDurationInMonths.

Lemma single_run_unfold (tape : list R) :
  runS tape = match monthsS tape with
              | Some rest => Ok (firstS :: rest)
              | None => Thrown StockMarketSimulator.RandomSourceExhausted
              end.
Proof using validS.
  destruct validS as (H1 & H2 & H3 & H4).
  unfold StockMarketSimulator.simulateInvestment.
  destruct (decide _); [lra|]. destruct (decide _); [lra|].
  destruct (decide _); [lra|].
  destruct (decide _) as [Hbad|_];
    [exfalso; exact (integer_duration _ H4 Hbad)|].
  rewrite ZfloorZ. reflexivity.
Qed.

Lemma single_run_returns (tape : list R) :
  enoughDrawsSingle investmentDurationInMonths tape ->
  exists rest,
    monthsS tape = Some rest
    /\ runS tape = Ok (firstS :: rest)
    /\ length rest = Z.to_nat investmentDurationInMonths.
Proof using validS.
  intros Hd.
  destruct (single_loop_enough monthlyInvestmentAmount
              (annualExpectedReturn / 12) (annualVolatility / sqrt 12)
              scenario (Z.to_nat investmentDurationInMonths) 1
              (StockMarketSimulator.mkRunning initialInvestmentAmount
                 initialInvestmentAmount) tape Hd) as (rest & Hrest & Hlen).
  exists rest. split; [exact Hrest|]. split; [|exact Hlen].
  rewrite single_run_unfold, Hrest. reflexivity.
Qed.

(** The single-asset simulator returns one record per month from 0 to the
    duration, in order, and the capital recorded for month [N] is the
    running capital after [toFixed(2)]: within half a cent of the initial
    amount plus [N] monthly amounts, and that sum exactly whenever the sum
    has at most two decimals. *)
Theorem single_asset_history (tape : list R) :
  enoughDrawsSingle investmentDurationInMonths tape ->
  exists history,
    runS tape = Ok history
    /\ length history = S (Z.to_nat investmentDurationInMonths)
    /\ forall N : nat, (N <= Z.to_nat investmentDurationInMonths)%nat ->
         exists rec,
           history !! N = Some rec
           /\ StockMarketSimulator.month rec = N
           /\ Rabs (StockMarketSimulator.totalAmountInvested rec
                    - (initialInvestmentAmount
                       + INR N * monthlyInvestmentAmount)) <= 0.005
           /\ (JsNumber.two_decimals
                 (initialInvestmentAmount
                  + INR N * monthlyInvestmentAmount) ->
               StockMarketSimulator.totalAmountInvested rec
               = initialInvestmentAmount
                 + INR N * monthlyInvestmentAmount).
Proof using validS.
  intros Hd.
  destruct (single_run_returns tape Hd) as (rest & Hloop & Hrun & Hlen).
  exists (firstS :: rest). split; [exact Hrun|].
  split; [cbn; rewrite Hlen; reflexivity|].
  assert (Hround : forall (x y : R),
            x = JsNumber.round2 y ->
            Rabs (x - y) <= 0.005
            /\ (JsNumber.two_decimals y -> x = y)).
  { intros x y ->. split; [apply round2_error|].
    intros H2. apply round2_two_decimals, H2. }
  intros [|k] HN.
  - exists firstS. split; [reflexivity|]. split; [reflexivity|].
    apply Hround. cbn. f_equal. lra.
  - destruct (lookup_lt_is_Some_2 rest k) as [rec Hk]; [lia|].
    exists rec. split; [exact Hk|].
    destruct (single_loop_indexed monthlyInvestmentAmount
                (annualExpectedReturn / 12) (annualVolatility / sqrt 12)
                scenario
                (fun m r =>
                   (1 <= m)%nat
                   /\ StockMarketSimulator.runningInvested r
                      = initialInvestmentAmount
                        + INR (m - 1) * monthlyInvestmentAmount))
      with (n := Z.to_nat investmentDurationInMonths) (m := 1%nat)
           (r := StockMarketSimulator.mkRunning initialInvestmentAmount
                   initialInvestmentAmount)
           (tape := tape) (recs := rest) (k := k) (rec := rec)
      as (r0 & t1 & r1 & t2 & [Hm HP] & Hs).
    + intros m r t rec' r' t' [Hm HP] Hs. split; [lia|].
      destruct (single_step_unfold _ _ _ _ _ _ _ _ _ _ Hs)
        as (z & _ & -> & _).
      cbn [StockMarketSimulator.runningInvested]. rewrite HP.
      replace (S m - 1)%nat with (S (m - 1)) by lia.
      rewrite S_INR. lra.
    + split; [lia|]. cbn. lra.
    + exact Hloop.
    + exact Hk.
    + destruct (single_step_unfold _ _ _ _ _ _ _ _ _ _ Hs)
        as (z & _ & _ & ->).
      cbn [StockMarketSimulator.month
           StockMarketSimulator.totalAmountInvested].
      split; [reflexivity|]. apply Hround. rewrite HP.
      replace (1 + k - 1)%nat with k by lia. rewrite S_INR. f_equal. lra.
Qed.

(** No record of the single-asset simulator shows a negative portfolio
    value or a monthly return below -100%; the record of month 0 shows the
    rounded initial amount and a return of 0. *)
Theorem single_asset_bounds (tape : list R) :
  enoughDrawsSingle investmentDurationInMonths tape ->
  exists history,
    runS tape = Ok history
    /\ (exists rec0,
          history !! 0%nat = Some rec0
          /\ StockMarketSimulator.portfolioValue rec0
             = JsNumber.round2 initialInvestmentAmount
          /\ StockMarketSimulator.monthlyReturnApplied rec0 = 0)
    /\ forall (N : nat) (rec : StockMarketSimulator.MonthlyStockValue),
         history !! N = Some rec ->
         0 <= StockMarketSimulator.portfolioValue rec
         /\ -1 <= StockMarketSimulator.monthlyReturnApplied rec.
Proof using validS.
  intros Hd.
  destruct (single_run_returns tape Hd) as (rest & Hloop & Hrun & Hlen).
  exists (firstS :: rest). split; [exact Hrun|].
  split; [exists firstS; auto|].
  intros [|k] rec HN.
  - injection HN as <-. cbn. split; [|lra].
    apply round2_nonneg. apply validS.
  - cbn in HN.
    destruct (single_loop_indexed monthlyInvestmentAmount
                (annualExpectedReturn / 12) (annualVolatility / sqrt 12)
                scenario (fun _ _ => True))
      with (n := Z.to_nat investmentDurationInMonths) (m := 1%nat)
           (r := StockMarketSimulator.mkRunning initialInvestmentAmount
                   initialInvestmentAmount)
           (tape := tape) (recs := rest) (k := k) (rec := rec)
      as (r0 & t1 & r1 & t2 & _ & Hs); auto.
    destruct (single_step_unfold _ _ _ _ _ _ _ _ _ _ Hs)
      as (z & _ & _ & ->).
    cbn. split.
    + apply round2_nonneg, Rmax_l.
    + rewrite <- round4_minus_one. apply toFixed_mono, single_return_floor.
Qed.

End SingleAssetRuns.

(** ** Runs of the single-asset simulator that do not depend on the draws *)

Section SteadyRuns.

Lemma zero_volatility_return (scenario : ScenarioType)
    (monthlyExpectedReturn z z' : R) :
  StockMarketSimulator.actualMonthlyReturn scenario monthlyExpectedReturn 0 z
  = StockMarketSimulator.actualMonthlyReturn scenario monthlyExpectedReturn 0
      z'.
Proof.
  unfold StockMarketSimulator.actualMonthlyReturn.
  destruct scenario; f_equal; ring.
Qed.

Lemma zero_volatility_loop (n m : nat) (monthly mean : R)
    (scenario : ScenarioType) (r : StockMarketSimulator.Running)
    (tape1 tape2 : list R) :
  (2 * n <= nonZeroDraws tape1)%nat ->
  (2 * n <= nonZeroDraws tape2)%nat ->
  StockMarketSimulator.monthsLoop n m monthly mean 0 scenario r tape1
  = StockMarketSimulator.monthsLoop n m monthly mean 0 scenario r tape2.
Proof.
  revert m r tape1 tape2.
  induction n as [|n IH]; intros m r tape1 tape2 H1 H2; [reflexivity|].
  cbn [StockMarketSimulator.monthsLoop].
  destruct (single_step_enough monthly mean 0 scenario m r tape1)
    as (rec1 & r1 & t1 & Hs1 & Hd1); [lia|].
  destruct (single_step_enough monthly mean 0 scenario m r tape2)
    as (rec2 & r2 & t2 & Hs2 & Hd2); [lia|].
  rewrite Hs1, Hs2. cbn [mbind option_bind].
  destruct (single_step_unfold _ _ _ _ _ _ _ _ _ _ Hs1)
    as (z1 & _ & Hr1 & Hrec1).
  destruct (single_step_unfold _ _ _ _ _ _ _ _ _ _ Hs2)
    as (z2 & _ & Hr2 & Hrec2).
  cbv zeta in *.
  rewrite (zero_volatility_return scenario mean z2 z1) in Hr2, Hrec2.
  rewrite <- Hr1 in Hr2. rewrite <- Hrec1 in Hrec2. subst r2 rec2.
  rewrite (IH (S m) r1 t1 t2) by lia. reflexivity.
Qed.

(** With an annual volatility of 0 the single-asset simulator returns the
    same records whatever the draws: the shock is multiplied by a
    volatility of 0 in each of the three scenarios. *)
Theorem zero_volatility_ignores_draws (initialInvestmentAmount : R)
    (monthlyInvestmentAmount annualExpectedReturn : R)
    (investmentDurationInMonths : Z) (scenario : ScenarioType)
    (tape1 tape2 : list R) :
  validSingleAssetInput initialInvestmentAmount monthlyInvestmentAmount 0
    investmentDurationInMonths ->
  enoughDrawsSingle investmentDurationInMonths tape1 ->
  enoughDrawsSingle investmentDurationInMonths tape2 ->
  exists history,
    StockMarketSimulator.simulateInvestment initialInvestmentAmount
      monthlyInvestmentAmount annualExpectedReturn 0
      (IZR investmentDurationInMonths) scenario tape1 = Ok history
    /\ StockMarketSimulator.simulateInvestment initialInvestmentAmount
         monthlyInvestmentAmount annualExpectedReturn 0
         (IZR investmentDurationInMonths) scenario tape2 = Ok history.
Proof.
  intros Hv H1 H2.
  destruct (single_run_returns _ _ annualExpectedReturn _ _ scenario Hv
              tape1 H1) as (rest & Hloop & Hrun & _).
  eexists. split; [exact Hrun|].
  rewrite (single_run_unfold _ _ _ _ _ _ Hv).
  replace (0 / sqrt 12) with 0 in * by (unfold Rdiv; ring).
  rewrite (zero_volatility_loop _ _ _ _ _ _ tape2 tape1 H2 H1), Hloop.
  reflexivity.
Qed.

Lemma zero_volatility_ignores_draws_witness :
  validSingleAssetInput 1000 100 0 2
  /\ enoughDrawsSingle 2 sampleTape
  /\ enoughDrawsSingle 2 [0.9; 0.1; 0.3; 0.7]
  /\ StockMarketSimulator.simulateInvestment 1000 100 0.05 0 2 WORST
       sampleTape
     = StockMarketSimulator.simulateInvestment 1000 100 0.05 0 2 WORST
         [0.9; 0.1; 0.3; 0.7].
Proof.
  assert (Hv : validSingleAssetInput 1000 100 0 2).
  { repeat split; try lra. lia. }
  assert (H1 : enoughDrawsSingle 2 sampleTape).
  { unfold enoughDrawsSingle. rewrite sampleTape_draws. simpl. lia. }
  assert (H2 : enoughDrawsSingle 2 [0.9; 0.1; 0.3; 0.7]).
  { unfold enoughDrawsSingle, nonZeroDraws.
    repeat (rewrite filter_cons; destruct (decide _) as [_|H];
            [|exfalso; apply H; lra]).
    simpl. lia. }
  split; [exact Hv|]. split; [exact H1|]. split; [exact H2|].
  destruct (zero_volatility_ignores_draws 1000 100 0.05 2 WORST sampleTape
              [0.9; 0.1; 0.3; 0.7] Hv H1 H2) as (history & -> & ->).
  reflexivity.
Defined.

(** In the BEST scenario, with an expected return that is not negative,
    the recorded portfolio value is never below the recorded capital
    invested: every monthly return is then at least 0. *)
Theorem best_case_never_below_invested (initialInvestmentAmount : R)
    (monthlyInvestmentAmount annualExpectedReturn annualVolatility : R)
    (investmentDurationInMonths : Z) (tape : list R) :
  validSingleAssetInput initialInvestmentAmount monthlyInvestmentAmount
    annualVolatility investmentDurationInMonths ->
  0 <= annualExpectedReturn ->
  enoughDrawsSingle investmentDurationInMonths tape ->
  exists history,
    StockMarketSimulator.simulateInvestment initialInvestmentAmount
      monthlyInvestmentAmount annualExpectedReturn annualVolatility
      (IZR investmentDurationInMonths) BEST tape = Ok history
    /\ forall (N : nat) (rec : StockMarketSimulator.MonthlyStockValue),
         history !! N = Some rec ->
         StockMarketSimulator.totalAmountInvested rec
         <= StockMarketSimulator.portfolioValue rec
         /\ 0 <= StockMarketSimulator.monthlyReturnApplied rec.
Proof.
  intros Hv Hret Hd.
  destruct (single_run_returns _ _ annualExpectedReturn _ _ BEST Hv tape Hd)
    as (rest & Hloop & Hrun & _).
  eexists. split; [exact Hrun|].
  destruct Hv as (Hi & Hm & Hvol & _).
  assert (Hreturn : forall z,
            0 <= StockMarketSimulator.actualMonthlyReturn BEST
                   (annualExpectedReturn / 12) (annualVolatility / sqrt 12) z).
  { intros z. unfold StockMarketSimulator.actualMonthlyReturn.
    eapply Rle_trans; [|apply Rmax_r].
    unfold StockMarketSimulator.BEST_CASE_RETURN_MULTIPLIER,
      StockMarketSimulator.BEST_CASE_VOL_MULTIPLIER.
    pose proof (Rabs_pos z). pose proof sqrt_12_pos.
    assert (0 <= annualVolatility / sqrt 12).
    { apply Rmult_le_pos; [lra | apply Rlt_le, Rinv_0_lt_compat; lra]. }
    nra. }
  intros [|k] rec HN.
  - injection HN as <-. cbn. lra.
  - cbn in HN.
    destruct (single_loop_indexed monthlyInvestmentAmount
                (annualExpectedReturn / 12) (annualVolatility / sqrt 12) BEST
                (fun _ r =>
                   0 <= StockMarketSimulator.runningInvested r
                   <= StockMarketSimulator.runningValue r))
      with (n := Z.to_nat investmentDurationInMonths) (m := 1%nat)
           (r := StockMarketSimulator.mkRunning initialInvestmentAmount
                   initialInvestmentAmount)
           (tape := tape) (recs := rest) (k := k) (rec := rec)
      as (r0 & t1 & r1 & t2 & HP & Hs).
    + intros m r t rec' r' t' HP Hs.
      destruct (single_step_unfold _ _ _ _ _ _ _ _ _ _ Hs)
        as (z & _ & -> & _).
      cbn [StockMarketSimulator.runningInvested
           StockMarketSimulator.runningValue].
      specialize (Hreturn z).
      split; [lra|]. eapply Rle_trans; [|apply Rmax_r]. nra.
    + cbn. lra.
    + exact Hloop.
    + exact HN.
    + destruct (single_step_unfold _ _ _ _ _ _ _ _ _ _ Hs)
        as (z & _ & _ & ->).
      cbn [StockMarketSimulator.totalAmountInvested
           StockMarketSimulator.portfolioValue
           StockMarketSimulator.monthlyReturnApplied].
      specialize (Hreturn z). split.
      * apply round2_mono. eapply Rle_trans; [|apply Rmax_r]. nra.
      * rewrite <- round4_zero. apply toFixed_mono, Hreturn.
Qed.

Lemma best_case_never_below_invested_witness :
  validSingleAssetInput 1000 100 0.15 2
  /\ 0 <= 0.08
  /\ enoughDrawsSingle 2 sampleTape
  /\ exists history,
       StockMarketSimulator.simulateInvestment 1000 100 0.08 0.15 2 BEST
         sampleTape = Ok history.
Proof.
  assert (Hv : validSingleAssetInput 1000 100 0.15 2).
  { repeat split; try lra. lia. }
  assert (Hr : 0 <= 0.08) by lra.
  assert (H1 : enoughDrawsSingle 2 sampleTape).
  { unfold enoughDrawsSingle. rewrite sampleTape_draws. simpl. lia. }
  split; [exact Hv|]. split; [exact Hr|]. split; [exact H1|].
  destruct (best_case_never_below_invested 1000 100 0.08 0.15 2 sampleTape
              Hv Hr H1) as (history & Hrun & _).
  exists history. exact Hrun.
Defined.

Lemma single_asset_history_witness :
  validSingleAssetInput 1000 100 0.15 2
  /\ enoughDrawsSingle 2 sampleTape
  /\ exists history rec,
       StockMarketSimulator.simulateInvestment 1000 100 0.08 0.15 2 AVERAGE
         sampleTape = Ok history
       /\ length history = 3%nat
       /\ history !! 2%nat = Some rec
       /\ StockMarketSimulator.month rec = 2%nat
       /\ StockMarketSimulator.totalAmountInvested rec = 1200.
Proof.
  assert (Hv : validSingleAssetInput 1000 100 0.15 2).
  { repeat split; try lra. lia. }
  assert (H1 : enoughDrawsSingle 2 sampleTape).
  { unfold enoughDrawsSingle. rewrite sampleTape_draws. simpl. lia. }
  split; [exact Hv|]. split; [exact H1|].
  destruct (single_asset_history 1000 100 0.08 0.15 2 AVERAGE Hv sampleTape
              H1) as (history & Hrun & Hlen & Hall).
  destruct (Hall 2%nat ltac:(simpl; lia)) as (rec & Hrec & Hm & _ & Hexact).
  exists history, rec. split; [exact Hrun|]. split; [exact Hlen|].
  split; [exact Hrec|]. split; [exact Hm|].
  replace 1200 with (1000 + INR 2 * 100) by (simpl; lra).
  apply Hexact. exists 120000%Z. simpl. lra.
Defined.

Lemma single_asset_bounds_witness :
  validSingleAssetInput 1000 100 0.15 2
  /\ enoughDrawsSingle 2 sampleTape
  /\ exists history,
       StockMarketSimulator.simulateInvestment 1000 100 0.08 0.15 2 WORST
         sampleTape = Ok history.
Proof.
  assert (Hv : validSingleAssetInput 1000 100 0.15 2).
  { repeat split; try lra. lia. }
  assert (H1 : enoughDrawsSingle 2 sampleTape).
  { unfold enoughDrawsSingle. rewrite sampleTape_draws. simpl. lia. }
  split; [exact Hv|]. split; [exact H1|].
  destruct (single_asset_bounds 1000 100 0.08 0.15 2 WORST Hv sampleTape H1)
    as (history & Hrun & _).
  exists history. exact Hrun.
Defined.

End SteadyRuns.

(** * The bank simulator with monthly deposits *)

Section BankDeposits.

Lemma geometricSum_last (q : R) (n : nat) :
  geometricSum q (S n) = geometricSum q n + q ^ n.
Proof.
  induction n as [|n IH].
  - simpl. ring.
  - rewrite (geometricSum_succ q (S n)). rewrite IH at 1.
    rewrite (geometricSum_succ q n). cbn [pow]. ring.
Qed.

Lemma balanceDepositFirst_zero (b d q : R) : balanceDepositFirst b d q 0 = b.
Proof. unfold balanceDepositFirst. simpl. ring. Qed.

Lemma balanceDepositFirst_succ (b d q : R) (m : nat) :
  balanceDepositFirst b d q (S m) = (balanceDepositFirst b d q m + d) * q.
Proof.
  unfold balanceDepositFirst. rewrite geometricSum_succ. cbn [pow]. ring.
Qed.

Lemma balanceDepositFirst_shift (b d q : R) (m : nat) :
  balanceDepositFirst ((b + d) * q) d q m = balanceDepositFirst b d q (S m).
Proof.
  unfold balanceDepositFirst. rewrite geometricSum_last. cbn [pow]. ring.
Qed.

Lemma geometricSum_ge (q : R) (n : nat) :
  1 <= q -> INR n <= geometricSum q n.
Proof.
  intros Hq. induction n as [|n IH].
  - simpl. lra.
  - rewrite S_INR, geometricSum_succ. pose proof (pos_INR n). nra.
Qed.

Lemma balanceDepositFirst_ge (b d q : R) (m : nat) :
  0 <= b -> 0 <= d -> 1 <= q ->
  b + INR m * d <= balanceDepositFirst b d q m.
Proof.
  intros Hb Hd Hq. unfold balanceDepositFirst.
  pose proof (pow_R1_Rle q m Hq) as Hp.
  pose proof (geometricSum_ge q m Hq) as Hg.
  pose proof (pos_INR m) as Hm.
  assert (H1 : b <= b * q ^ m) by nra.
  assert (H2 : INR m <= q * geometricSum q m) by nra.
  assert (H3 : INR m * d <= d * q * geometricSum q m) by nra.
  lra.
Qed.

Lemma balanceDepositFirst_nonneg (b d q : R) (m : nat) :
  0 <= b -> 0 <= d -> 1 <= q -> 0 <= balanceDepositFirst b d q m.
Proof.
  intros Hb Hd Hq.
  pose proof (balanceDepositFirst_ge b d q m Hb Hd Hq).
  pose proof (pos_INR m). nra.
Qed.

Lemma balanceDepositFirst_grows (b d q : R) (m : nat) :
  0 <= b -> 0 <= d -> 1 <= q ->
  balanceDepositFirst b d q m <= balanceDepositFirst b d q (S m).
Proof.
  intros Hb Hd Hq. rewrite balanceDepositFirst_succ.
  pose proof (balanceDepositFirst_nonneg b d q m Hb Hd Hq). nra.
Qed.

Lemma bank_loop_length (n m : nat) (d rate cur inv : R) :
  length (BankInvestmentSimulator.monthsLoop n m d rate cur inv) = n.
Proof.
  revert m cur inv. induction n as [|n IH]; intros m cur inv; simpl.
  - reflexivity.
  - rewrite IH. reflexivity.
Qed.

Lemma bank_loop_lookup (d rate : R) (n : nat) :
  forall (m : nat) (cur inv : R) (k : nat),
    (k < n)%nat ->
    BankInvestmentSimulator.monthsLoop n m d rate cur inv !! k
    = Some (BankInvestmentSimulator.mkMonthlyValue (m + k)
              (JsNumber.round2
                 (balanceDepositFirst cur d (1 + rate) (S k)))
              (JsNumber.round2 (inv + INR (S k) * d))).
Proof.
  induction n as [|n IH]; intros m cur inv k Hk; [lia|].
  destruct k as [|k].
  - rewrite Nat.add_0_r.
    replace (balanceDepositFirst cur d (1 + rate) 1)
      with ((cur + d) * (1 + rate))
      by (unfold balanceDepositFirst; simpl; ring).
    replace (inv + INR 1 * d) with (inv + d) by (simpl; ring).
    reflexivity.
  - transitivity
      (BankInvestmentSimulator.monthsLoop n (S m) d rate
         ((cur + d) * (1 + rate)) (inv + d) !! k); [reflexivity|].
    rewrite IH by lia. rewrite balanceDepositFirst_shift.
    replace (S m + k)%nat with (m + S k)%nat by lia.
    replace (inv + d + INR (S k) * d) with (inv + INR (S (S k)) * d)
      by (rewrite (S_INR (S k)); ring).
    reflexivity.
Qed.

Lemma bank_run_unfold (init d r : R) (n : Z) :
  validBankInput init d r n ->
  BankInvestmentSimulator.simulateInvestment init d r (IZR n)
  = Ok (BankInvestmentSimulator.mkMonthlyValue 0 (JsNumber.round2 init)
          (JsNumber.round2 init)
        :: BankInvestmentSimulator.monthsLoop (Z.to_nat n) 1 d (r / 12)
             init init).
Proof.
  intros (H1 & H2 & [H3 H4] & H5).
  unfold BankInvestmentSimulator.simulateInvestment,
    BankInvestmentSimulator.MIN_ANNUAL_INTEREST_RATE,
    BankInvestmentSimulator.MAX_ANNUAL_INTEREST_RATE in *.
  destruct (decide _); [lra|]. destruct (decide _); [lra|].
  destruct (decide _) as [[?|?]|_]; [lra|lra|].
  destruct (decide _) as [Hbad|_];
    [exfalso; exact (integer_duration _ H5 Hbad)|].
  rewrite ZfloorZ. reflexivity.
Qed.

Lemma bank_run_lookup (init d r : R) (n : Z) (history : list _) (N : nat) :
  validBankInput init d r n ->
  BankInvestmentSimulator.simulateInvestment init d r (IZR n) = Ok history ->
  (N <= Z.to_nat n)%nat ->
  history !! N
  = Some (BankInvestmentSimulator.mkMonthlyValue N
            (JsNumber.round2 (balanceDepositFirst init d (1 + r / 12) N))
            (JsNumber.round2 (init + INR N * d))).
Proof.
  intros Hv Hrun HN. rewrite (bank_run_unfold _ _ _ _ Hv) in Hrun.
  injection Hrun as <-. destruct N as [|k].
  - rewrite balanceDepositFirst_zero.
    replace (init + INR 0 * d) with init by (simpl; ring). reflexivity.
  - transitivity
      (BankInvestmentSimulator.monthsLoop (Z.to_nat n) 1 d (r / 12) init
         init !! k); [reflexivity|].
    rewrite bank_loop_lookup by lia. reflexivity.
Qed.

Lemma validBankInput_factor (init d r : R) (n : Z) :
  validBankInput init d r n -> 0 <= init /\ 0 <= d /\ 1 <= 1 + r / 12.
Proof.
  intros (H1 & H2 & [H3 H4] & _).
  unfold BankInvestmentSimulator.MIN_ANNUAL_INTEREST_RATE in H3.
  repeat split; lra.
Qed.

Lemma not_integer_one_and_half : ~ JsNumber.isInteger 1.5.
Proof.
  unfold JsNumber.isInteger.
  rewrite (Zfloor_eq 1 1.5) by (simpl; lra). simpl. lra.
Qed.

(** The bank simulator returns a history exactly on the inputs that pass
    its four checks: a principal and a deposit that are not negative, a
    rate between 1% and 7.76%, and a number of months that is an integer
    and not negative.  The history then has one record more than the
    number of months. *)
Theorem bank_run_returns_iff_valid (init d r months : R) :
  (exists history,
     BankInvestmentSimulator.simulateInvestment init d r months = Ok history
     /\ INR (length history) = months + 1)
  <-> 0 <= init /\ 0 <= d
      /\ BankInvestmentSimulator.MIN_ANNUAL_INTEREST_RATE <= r
         <= BankInvestmentSimulator.MAX_ANNUAL_INTEREST_RATE
      /\ 0 <= months /\ JsNumber.isInteger months.
Proof.
  split.
  - intros (history & Hrun & _).
    unfold BankInvestmentSimulator.simulateInvestment in Hrun.
    destruct (decide (init < 0)) as [|H1]; [discriminate|].
    destruct (decide (d < 0)) as [|H2]; [discriminate|].
    destruct (decide _) as [|H3]; [discriminate|].
    destruct (decide _) as [|H4]; [discriminate|].
    assert (H5 : ~ r < BankInvestmentSimulator.MIN_ANNUAL_INTEREST_RATE)
      by tauto.
    assert (H6 : ~ r > BankInvestmentSimulator.MAX_ANNUAL_INTEREST_RATE)
      by tauto.
    assert (H7 : ~ months < 0) by tauto.
    assert (H8 : JsNumber.isInteger months).
    { destruct (decide (JsNumber.isInteger months)); tauto. }
    repeat split; try lra. exact H8.
  - intros (H1 & H2 & H3 & H4 & H5).
    assert (Hn : (0 <= Zfloor months)%Z).
    { apply le_IZR. unfold JsNumber.isInteger in H5. rewrite H5. exact H4. }
    assert (Hv : validBankInput init d r (Zfloor months)).
    { repeat split; try lra; try apply H3. exact Hn. }
    pose proof (bank_run_unfold _ _ _ _ Hv) as Hrun.
    unfold JsNumber.isInteger in H5. rewrite H5 in Hrun.
    eexists. split; [exact Hrun|].
    cbn [length]. rewrite bank_loop_length, S_INR, INR_IZR_INZ, Z2Nat.id, H5
      by exact Hn.
    reflexivity.
Qed.

Lemma bank_run_returns_iff_valid_witness :
  (exists history,
     BankInvestmentSimulator.simulateInvestment 1000 100 0.05 2 = Ok history
     /\ INR (length history) = 2 + 1)
  /\ ~ exists history,
        BankInvestmentSimulator.simulateInvestment 1000 100 0.05 1.5
        = Ok history
        /\ INR (length history) = 1.5 + 1.
Proof.
  split.
  - apply (bank_run_returns_iff_valid 1000 100 0.05 2).
    unfold BankInvestmentSimulator.MIN_ANNUAL_INTEREST_RATE,
      BankInvestmentSimulator.MAX_ANNUAL_INTEREST_RATE.
    repeat split; try lra. apply (isInteger_IZR 2).
  - intros H. apply (bank_run_returns_iff_valid 1000 100 0.05 1.5) in H.
    destruct H as (_ & _ & _ & _ & H). exact (not_integer_one_and_half H).
Defined.

(** On valid inputs the bank simulator returns one record per month from
    0 to the number of months, in order.  The value recorded for month
    [N] is within half a cent of the principal compounded [N] times plus
    each deposit compounded from the month it was made, the deposit of a
    month earning that month's interest.  The capital recorded is within
    half a cent of the principal plus [N] deposits, and is that sum
    exactly whenever the sum has at most two decimals. *)
Theorem bank_deposit_history (init d r : R) (n : Z) :
  validBankInput init d r n ->
  exists history,
    BankInvestmentSimulator.simulateInvestment init d r (IZR n) = Ok history
    /\ length history = S (Z.to_nat n)
    /\ forall N : nat, (N <= Z.to_nat n)%nat ->
         exists rec,
           history !! N = Some rec
           /\ BankInvestmentSimulator.month rec = N
           /\ Rabs (BankInvestmentSimulator.value rec
                    - balanceDepositFirst init d (1 + r / 12) N) <= 0.005
           /\ Rabs (BankInvestmentSimulator.totalAmountInvested rec
                    - (init + INR N * d)) <= 0.005
           /\ (JsNumber.two_decimals (init + INR N * d) ->
               BankInvestmentSimulator.totalAmountInvested rec
               = init + INR N * d).
Proof.
  intros Hv. eexists. split; [apply bank_run_unfold, Hv|].
  split; [cbn; rewrite bank_loop_length; reflexivity|].
  intros N HN. eexists.
  split; [apply (bank_run_lookup init d r n _ N Hv
                   (bank_run_unfold _ _ _ _ Hv) HN)|].
  cbn [BankInvestmentSimulator.month BankInvestmentSimulator.value
       BankInvestmentSimulator.totalAmountInvested].
  split; [reflexivity|]. split; [apply round2_error|].
  split; [apply round2_error|]. intros H2. apply round2_two_decimals, H2.
Qed.

Lemma bank_deposit_history_witness :
  validBankInput 1000 100 0.05 2
  /\ exists history rec,
       BankInvestmentSimulator.simulateInvestment 1000 100 0.05 2
       = Ok history
       /\ length history = 3%nat
       /\ history !! 2%nat = Some rec
       /\ Rabs (BankInvestmentSimulator.value rec
                - balanceDepositFirst 1000 100 (1 + 0.05 / 12) 2) <= 0.005
       /\ BankInvestmentSimulator.totalAmountInvested rec = 1200.
Proof.
  assert (Hv : validBankInput 1000 100 0.05 2).
  { unfold validBankInput,
      BankInvestmentSimulator.MIN_ANNUAL_INTEREST_RATE,
      BankInvestmentSimulator.MAX_ANNUAL_INTEREST_RATE.
    repeat split; try lra. lia. }
  split; [exact Hv|].
  destruct (bank_deposit_history 1000 100 0.05 2 Hv)
    as (history & Hrun & Hlen & Hall).
  destruct (Hall 2%nat ltac:(simpl; lia))
    as (rec & Hrec & _ & Hval & _ & Hexact).
  exists history, rec. split; [exact Hrun|]. split; [exact Hlen|].
  split; [exact Hrec|]. split; [exact Hval|].
  replace 1200 with (1000 + INR 2 * 100) by (simpl; lra).
  apply Hexact. exists 120000%Z. simpl. lra.
Defined.

(** On valid inputs the value recorded by the bank simulator is never
    below the capital recorded for the same month, and neither figure
    decreases from one month to the next. *)
Theorem bank_value_bounds (init d r : R) (n : Z) :
  validBankInput init d r n ->
  exists history,
    BankInvestmentSimulator.simulateInvestment init d r (IZR n) = Ok history
    /\ forall (N : nat) (rec : BankInvestmentSimulator.MonthlyInvestmentValue),
         history !! N = Some rec ->
         0 <= BankInvestmentSimulator.totalAmountInvested rec
           <= BankInvestmentSimulator.value rec
         /\ forall next,
              history !! S N = Some next ->
              BankInvestmentSimulator.value rec
              <= BankInvestmentSimulator.value next
              /\ BankInvestmentSimulator.totalAmountInvested rec
                 <= BankInvestmentSimulator.totalAmountInvested next.
Proof.
  intros Hv.
  destruct (validBankInput_factor _ _ _ _ Hv) as (Hi & Hd & Hq).
  pose proof (bank_run_unfold _ _ _ _ Hv) as Hrun.
  eexists. split; [exact Hrun|]. intros N rec HN.
  assert (Hlen : forall M rec',
            (BankInvestmentSimulator.mkMonthlyValue 0 (JsNumber.round2 init)
               (JsNumber.round2 init)
             :: BankInvestmentSimulator.monthsLoop (Z.to_nat n) 1 d (r / 12)
                  init init) !! M = Some rec' ->
            (M <= Z.to_nat n)%nat).
  { intros M rec' HM. apply lookup_lt_Some in HM. cbn in HM.
    rewrite bank_loop_length in HM. lia. }
  rewrite (bank_run_lookup init d r n _ N Hv Hrun (Hlen _ _ HN)) in HN.
  injection HN as <-.
  cbn [BankInvestmentSimulator.totalAmountInvested
       BankInvestmentSimulator.value].
  pose proof (pos_INR N) as HposN.
  split.
  - split.
    + apply round2_nonneg. nra.
    + apply round2_mono, balanceDepositFirst_ge; assumption.
  - intros next Hnext.
    rewrite (bank_run_lookup init d r n _ (S N) Hv Hrun (Hlen _ _ Hnext))
      in Hnext.
    injection Hnext as <-.
    cbn [BankInvestmentSimulator.totalAmountInvested
         BankInvestmentSimulator.value].
    split.
    + apply round2_mono, balanceDepositFirst_grows; assumption.
    + apply round2_mono.
      change (init + INR N * d <= init + INR (S N) * d).
      rewrite S_INR. nra.
Qed.

Lemma bank_value_bounds_witness :
  validBankInput 1000 100 0.05 2
  /\ exists history,
       BankInvestmentSimulator.simulateInvestment 1000 100 0.05 2
       = Ok history.
Proof.
  assert (Hv : validBankInput 1000 100 0.05 2).
  { unfold validBankInput,
      BankInvestmentSimulator.MIN_ANNUAL_INTEREST_RATE,
      BankInvestmentSimulator.MAX_ANNUAL_INTEREST_RATE.
    repeat split; try lra. lia. }
  split; [exact Hv|].
  destruct (bank_value_bounds 1000 100 0.05 2 Hv) as (history & Hrun & _).
  exists history. exact Hrun.
Defined.

End BankDeposits.

(** * The single-asset simulator without volatility *)

Section SteadySingleAsset.

Lemma geometricSum_nonneg (q : R) (n : nat) :
  0 <= q -> 0 <= geometricSum q n.
Proof.
  intros Hq. induction n as [|n IH].
  - simpl. lra.
  - rewrite geometricSum_succ. nra.
Qed.

Lemma balanceDepositFirst_nonneg_factor (b d q : R) (m : nat) :
  0 <= b -> 0 <= d -> 0 <= q -> 0 <= balanceDepositFirst b d q m.
Proof.
  intros Hb Hd Hq. unfold balanceDepositFirst.
  pose proof (pow_le q m Hq) as Hp.
  pose proof (geometricSum_nonneg q m Hq) as Hg.
  assert (H1 : 0 <= b * q ^ m) by nra.
  assert (H2 : 0 <= d * q) by nra.
  assert (H3 : 0 <= d * q * geometricSum q m) by nra.
  lra.
Qed.

Lemma steady_return (monthlyExpectedReturn z : R) :
  -1 <= monthlyExpectedReturn ->
  StockMarketSimulator.actualMonthlyReturn AVERAGE monthlyExpectedReturn 0 z
  = monthlyExpectedReturn.
Proof.
  intros H. unfold StockMarketSimulator.actualMonthlyReturn.
  rewrite Rmult_0_r, Rplus_0_r. apply Rmax_right, H.
Qed.

Lemma steady_loop_records (init d annualExpectedReturn : R) (n : nat)
    (tape : list R) (rest : list StockMarketSimulator.MonthlyStockValue) :
  0 <= init -> 0 <= d -> -12 <= annualExpectedReturn ->
  StockMarketSimulator.monthsLoop n 1 d (annualExpectedReturn / 12) 0
    AVERAGE (StockMarketSimulator.mkRunning init init) tape = Some rest ->
  forall (k : nat) (rec : StockMarketSimulator.MonthlyStockValue),
    rest !! k = Some rec ->
    rec = StockMarketSimulator.mkMonthly (S k)
            (JsNumber.round2
               (balanceDepositFirst init d
                  (1 + annualExpectedReturn / 12) (S k)))
            (JsNumber.round2 (init + INR (S k) * d))
            (JsFixed.round4 (annualExpectedReturn / 12)).
Proof.
  intros Hi Hd Hret Hloop k rec Hk.
  assert (Hm : -1 <= annualExpectedReturn / 12) by lra.
  assert (Hq : 0 <= 1 + annualExpectedReturn / 12) by lra.
  assert (Hstep : forall m r z,
            StockMarketSimulator.runningValue r
            = balanceDepositFirst init d (1 + annualExpectedReturn / 12) m ->
            Rmax 0
              (StockMarketSimulator.runningValue r + d
               + (StockMarketSimulator.runningValue r + d)
                 * StockMarketSimulator.actualMonthlyReturn AVERAGE
                     (annualExpectedReturn / 12) 0 z)
            = balanceDepositFirst init d (1 + annualExpectedReturn / 12)
                (S m)).
  { intros m r z Hr. rewrite steady_return by exact Hm.
    rewrite balanceDepositFirst_succ, <- Hr.
    pose proof (balanceDepositFirst_nonneg_factor init d _ m Hi Hd Hq) as Hb.
    rewrite <- Hr in Hb.
    rewrite Rmax_right; [ring|]. nra. }
  destruct (single_loop_indexed d (annualExpectedReturn / 12) 0 AVERAGE
              (fun m r =>
                 (1 <= m)%nat
                 /\ StockMarketSimulator.runningValue r
                    = balanceDepositFirst init d
                        (1 + annualExpectedReturn / 12) (m - 1)
                 /\ StockMarketSimulator.runningInvested r
                    = init + INR (m - 1) * d))
    with (n := n) (m := 1%nat)
         (r := StockMarketSimulator.mkRunning init init)
         (tape := tape) (recs := rest) (k := k) (rec := rec)
    as (r0 & t1 & r1 & t2 & (_ & Hval & Hinv) & Hs).
  - intros m r t rec' r' t' (Hge & Hval & Hinv) Hs. split; [lia|].
    destruct (single_step_unfold _ _ _ _ _ _ _ _ _ _ Hs)
      as (z & _ & -> & _).
    cbn [StockMarketSimulator.runningValue
         StockMarketSimulator.runningInvested].
    replace (S m - 1)%nat with (S (m - 1)) by lia.
    split.
    + apply Hstep, Hval.
    + rewrite Hinv, S_INR. ring.
  - split; [lia|]. cbn [StockMarketSimulator.runningValue
                        StockMarketSimulator.runningInvested Nat.sub].
    rewrite balanceDepositFirst_zero. split; [reflexivity|].
    change (INR 0) with 0. ring.
  - exact Hloop.
  - exact Hk.
  - replace (1 + k - 1)%nat with k in Hval, Hinv by lia.
    destruct (single_step_unfold _ _ _ _ _ _ _ _ _ _ Hs)
      as (z & _ & _ & ->).
    cbv zeta. rewrite (Hstep k r0 z Hval), Hinv.
    rewrite steady_return by exact Hm.
    replace (init + INR k * d + d) with (init + INR (S k) * d)
      by (rewrite S_INR; ring).
    reflexivity.
Qed.

Lemma steady_run_lookup (init d annualExpectedReturn : R) (n : Z)
    (tape : list R) :
  validSingleAssetInput init d 0 n ->
  -12 <= annualExpectedReturn ->
  enoughDrawsSingle n tape ->
  exists history,
    StockMarketSimulator.simulateInvestment init d annualExpectedReturn 0
      (IZR n) AVERAGE tape = Ok history
    /\ length history = S (Z.to_nat n)
    /\ forall N : nat, (N <= Z.to_nat n)%nat ->
         history !! N
         = Some (StockMarketSimulator.mkMonthly N
                   (JsNumber.round2
                      (balanceDepositFirst init d
                         (1 + annualExpectedReturn / 12) N))
                   (JsNumber.round2 (init + INR N * d))
                   match N with
                   | O => 0
                   | S _ => JsFixed.round4 (annualExpectedReturn / 12)
                   end).
Proof.
  intros Hv Hret Hd.
  destruct (single_run_returns _ _ annualExpectedReturn _ _ AVERAGE Hv tape
              Hd) as (rest & Hloop & Hrun & Hlen).
  eexists. split; [exact Hrun|].
  split; [cbn; rewrite Hlen; reflexivity|].
  destruct Hv as (Hi & Hm & _).
  replace (0 / sqrt 12) with 0 in Hloop by (unfold Rdiv; ring).
  intros [|k] HN.
  - rewrite balanceDepositFirst_zero.
    replace (init + INR 0 * d) with init by (simpl; ring). reflexivity.
  - destruct (lookup_lt_is_Some_2 rest k) as [rec Hk]; [lia|].
    transitivity (rest !! k); [reflexivity|]. rewrite Hk. f_equal.
    apply (steady_loop_records init d annualExpectedReturn _ tape rest Hi Hm
             Hret Hloop k rec Hk).
Qed.

Lemma round4_error (x : R) : Rabs (JsFixed.round4 x - x) <= 0.00005.
Proof.
  pose proof (toFixed_error 4 x) as H.
  replace (/ 2 / 10 ^ 4) with 0.00005 in H by lra. exact H.
Qed.

(** With an annual volatility of 0 and the AVERAGE scenario the
    single-asset simulator compounds at one twelfth of the expected
    return: the value recorded for month [N] is within half a cent of the
    initial amount compounded [N] times plus each monthly amount
    compounded from the month it was added, and the return recorded from
    month 1 on is within half a ten-thousandth of that monthly rate. *)
Theorem steady_single_asset_run (init d annualExpectedReturn : R) (n : Z)
    (tape : list R) :
  validSingleAssetInput init d 0 n ->
  -12 <= annualExpectedReturn ->
  enoughDrawsSingle n tape ->
  exists history,
    StockMarketSimulator.simulateInvestment init d annualExpectedReturn 0
      (IZR n) AVERAGE tape = Ok history
    /\ length history = S (Z.to_nat n)
    /\ forall N : nat, (N <= Z.to_nat n)%nat ->
         exists rec,
           history !! N = Some rec
           /\ StockMarketSimulator.month rec = N
           /\ Rabs (StockMarketSimulator.portfolioValue rec
                    - balanceDepositFirst init d
                        (1 + annualExpectedReturn / 12) N) <= 0.005
           /\ ((0 < N)%nat ->
               Rabs (StockMarketSimulator.monthlyReturnApplied rec
                     - annualExpectedReturn / 12) <= 0.00005).
Proof.
  intros Hv Hret Hd.
  destruct (steady_run_lookup init d annualExpectedReturn n tape Hv Hret Hd)
    as (history & Hrun & Hlen & Hlook).
  exists history. split; [exact Hrun|]. split; [exact Hlen|]. intros N HN.
  eexists. split; [apply (Hlook N HN)|].
  cbn [StockMarketSimulator.month StockMarketSimulator.portfolioValue
       StockMarketSimulator.monthlyReturnApplied].
  split; [reflexivity|]. split; [apply round2_error|]. intros HposN.
  destruct N as [|k]; [lia | apply round4_error].
Qed.

Lemma steady_single_asset_run_witness :
  validSingleAssetInput 1000 100 0 2
  /\ -12 <= 0.05
  /\ enoughDrawsSingle 2 sampleTape
  /\ exists history rec,
       StockMarketSimulator.simulateInvestment 1000 100 0.05 0 2 AVERAGE
         sampleTape = Ok history
       /\ history !! 2%nat = Some rec
       /\ Rabs (StockMarketSimulator.portfolioValue rec
                - balanceDepositFirst 1000 100 (1 + 0.05 / 12) 2) <= 0.005
       /\ Rabs (StockMarketSimulator.monthlyReturnApplied rec - 0.05 / 12)
          <= 0.00005.
Proof.
  assert (Hv : validSingleAssetInput 1000 100 0 2).
  { repeat split; try lra. lia. }
  assert (Hr : -12 <= 0.05) by lra.
  assert (H1 : enoughDrawsSingle 2 sampleTape).
  { unfold enoughDrawsSingle. rewrite sampleTape_draws. simpl. lia. }
  split; [exact Hv|]. split; [exact Hr|]. split; [exact H1|].
  destruct (steady_single_asset_run 1000 100 0.05 2 sampleTape Hv Hr H1)
    as (history & Hrun & _ & Hall).
  destruct (Hall 2%nat ltac:(simpl; lia)) as (rec & Hrec & _ & Hval & Hret).
  exists history, rec. split; [exact Hrun|]. split; [exact Hrec|].
  split; [exact Hval|]. apply Hret. lia.
Defined.

(** On the inputs the bank simulator accepts, the single-asset simulator
    run with the interest rate as expected return, no volatility and the
    AVERAGE scenario returns as many records as the bank simulator; the
    two records of a month carry the same month and the same capital, and
    their values differ by one cent at most. *)
Theorem steady_run_matches_bank_simulator (init d r : R) (n : Z)
    (tape : list R) :
  validBankInput init d r n ->
  enoughDrawsSingle n tape ->
  exists stockHistory bankHistory,
    StockMarketSimulator.simulateInvestment init d r 0 (IZR n) AVERAGE tape
    = Ok stockHistory
    /\ BankInvestmentSimulator.simulateInvestment init d r (IZR n)
       = Ok bankHistory
    /\ length bankHistory = length stockHistory
    /\ forall (N : nat) stockRec bankRec,
         stockHistory !! N = Some stockRec ->
         bankHistory !! N = Some bankRec ->
         BankInvestmentSimulator.month bankRec
         = StockMarketSimulator.month stockRec
         /\ BankInvestmentSimulator.totalAmountInvested bankRec
            = StockMarketSimulator.totalAmountInvested stockRec
         /\ Rabs (BankInvestmentSimulator.value bankRec
                  - StockMarketSimulator.portfolioValue stockRec) <= 0.01.
Proof.
  intros Hv Hd.
  assert (Hvs : validSingleAssetInput init d 0 n).
  { destruct Hv as (H1 & H2 & _ & H4). repeat split; try assumption. lra. }
  assert (Hret : -12 <= r).
  { destruct Hv as (_ & _ & [H3 _] & _).
    unfold BankInvestmentSimulator.MIN_ANNUAL_INTEREST_RATE in H3. lra. }
  destruct (steady_run_lookup init d r n tape Hvs Hret Hd)
    as (stockHistory & Hrun & Hlen & Hlook).
  pose proof (bank_run_unfold _ _ _ _ Hv) as Hbank.
  eexists _, _. split; [exact Hrun|]. split; [exact Hbank|].
  split; [cbn; rewrite bank_loop_length, Hlen; reflexivity|].
  intros N stockRec bankRec Hs Hb.
  assert (HN : (N <= Z.to_nat n)%nat).
  { apply lookup_lt_Some in Hs. lia. }
  rewrite (bank_run_lookup init d r n _ N Hv Hbank HN) in Hb.
  rewrite (Hlook N HN) in Hs.
  injection Hs as <-. injection Hb as <-.
  cbn [BankInvestmentSimulator.month BankInvestmentSimulator.value
       BankInvestmentSimulator.totalAmountInvested
       StockMarketSimulator.month StockMarketSimulator.portfolioValue
       StockMarketSimulator.totalAmountInvested].
  split; [reflexivity|]. split; [reflexivity|].
  rewrite Rminus_diag, Rabs_R0. lra.
Qed.

Lemma steady_run_matches_bank_simulator_witness :
  validBankInput 1000 100 0.05 2
  /\ enoughDrawsSingle 2 sampleTape
  /\ exists stockHistory bankHistory stockRec bankRec,
       StockMarketSimulator.simulateInvestment 1000 100 0.05 0 2 AVERAGE
         sampleTape = Ok stockHistory
       /\ BankInvestmentSimulator.simulateInvestment 1000 100 0.05 2
          = Ok bankHistory
       /\ stockHistory !! 2%nat = Some stockRec
       /\ bankHistory !! 2%nat = Some bankRec
       /\ BankInvestmentSimulator.totalAmountInvested bankRec
          = StockMarketSimulator.totalAmountInvested stockRec
       /\ Rabs (BankInvestmentSimulator.value bankRec
                - StockMarketSimulator.portfolioValue stockRec) <= 0.01.
Proof.
  assert (Hv : validBankInput 1000 100 0.05 2).
  { unfold validBankInput,
      BankInvestmentSimulator.MIN_ANNUAL_INTEREST_RATE,
      BankInvestmentSimulator.MAX_ANNUAL_INTEREST_RATE.
    repeat split; try lra. lia. }
  assert (H1 : enoughDrawsSingle 2 sampleTape).
  { unfold enoughDrawsSingle. rewrite sampleTape_draws. simpl. lia. }
  split; [exact Hv|]. split; [exact H1|].
  destruct (steady_run_matches_bank_simulator 1000 100 0.05 2 sampleTape
              Hv H1) as (sh & bh & Hs & Hb & Hlen & Hall).
  assert (Hsl : length sh = 3%nat).
  { destruct (single_run_returns 1000 100 0.05 0 2 AVERAGE
                ltac:(repeat split; try lra; lia) sampleTape H1)
      as (rest & _ & Hrun & Hl).
    rewrite Hrun in Hs. injection Hs as <-. cbn. rewrite Hl. reflexivity. }
  destruct (lookup_lt_is_Some_2 sh 2) as [sr Hsr]; [lia|].
  destruct (lookup_lt_is_Some_2 bh 2) as [br Hbr]; [lia|].
  destruct (Hall 2%nat sr br Hsr Hbr) as (_ & Hinv & Hval).
  exists sh, bh, sr, br. split; [exact Hs|]. split; [exact Hb|].
  split; [exact Hsr|]. split; [exact Hbr|]. split; [exact Hinv | exact Hval].
Defined.

(** The single-asset simulator throws one of its four validation errors
    exactly on the inputs that fail a check: a negative initial amount, a
    negative monthly amount, a negative volatility, or a duration that is
    negative or not an integer.  The expected return, the scenario and the
    draws play no part in it. *)
Theorem single_asset_rejects_exactly_invalid (init d : R)
    (annualExpectedReturn annualVolatility duration : R)
    (scenario : ScenarioType) (tape : list R) :
  (exists e,
     e <> StockMarketSimulator.RandomSourceExhausted
     /\ StockMarketSimulator.simulateInvestment init d annualExpectedReturn
          annualVolatility duration scenario tape = Thrown e)
  <-> ~ (0 <= init /\ 0 <= d /\ 0 <= annualVolatility
         /\ 0 <= duration /\ JsNumber.isInteger duration).
Proof.
  split.
  - intros (e & Hne & Hrun) (H1 & H2 & H3 & H4 & H5).
    assert (Hn : (0 <= Zfloor duration)%Z).
    { apply le_IZR. unfold JsNumber.isInteger in H5. rewrite H5. exact H4. }
    assert (Hv : validSingleAssetInput init d annualVolatility
                   (Zfloor duration)) by (repeat split; assumption).
    pose proof (single_run_unfold _ _ annualExpectedReturn _ _ scenario Hv
                  tape) as Hu.
    unfold JsNumber.isInteger in H5. rewrite H5 in Hu. rewrite Hu in Hrun.
    destruct (StockMarketSimulator.monthsLoop _ _ _ _ _ _ _ _);
      [discriminate|].
    injection Hrun as <-. apply Hne. reflexivity.
  - intros Hnv. unfold StockMarketSimulator.simulateInvestment.
    destruct (decide (init < 0)) as [|H1];
      [eexists; split; [|reflexivity]; discriminate|].
    destruct (decide (d < 0)) as [|H2];
      [eexists; split; [|reflexivity]; discriminate|].
    destruct (decide (annualVolatility < 0)) as [|H3];
      [eexists; split; [|reflexivity]; discriminate|].
    destruct (decide (duration < 0 \/ ~ JsNumber.isInteger duration))
      as [|H4]; [eexists; split; [|reflexivity]; discriminate|].
    exfalso. apply Hnv.
    destruct (decide (JsNumber.isInteger duration)) as [H5|H5]; [|tauto].
    repeat split; try lra. exact H5.
Qed.

Lemma single_asset_rejects_exactly_invalid_witness :
  (exists e,
     e <> StockMarketSimulator.RandomSourceExhausted
     /\ StockMarketSimulator.simulateInvestment 1000 100 0.07 0.2 1.5
          AVERAGE sampleTape = Thrown e)
  /\ ~ exists e,
        e <> StockMarketSimulator.RandomSourceExhausted
        /\ StockMarketSimulator.simulateInvestment 1000 100 0.07 0.2 2
             AVERAGE [] = Thrown e.
Proof.
  split.
  - apply (single_asset_rejects_exactly_invalid 1000 100 0.07 0.2 1.5
             AVERAGE sampleTape).
    intros (_ & _ & _ & _ & H). exact (not_integer_one_and_half H).
  - intros H.
    apply (single_asset_rejects_exactly_invalid 1000 100 0.07 0.2 2
             AVERAGE []) in H.
    apply H. repeat split; try lra. apply (isInteger_IZR 2).
Defined.

End SteadySingleAsset.

(** * The normal sample and the checks of the portfolio simulator *)

Section DrawsAndChecks.

(** A tape with two draws other than 0 yields a sample: the draws equal
    to 0 are skipped, exactly two other draws are consumed, and the sample
    lies between -3.5 and 3.5. *)
Theorem standard_normal_sample (tape : list R) :
  (2 <= nonZeroDraws tape)%nat ->
  exists z tape',
    generateStandardNormalRandom tape = Some (z, tape')
    /\ -3.5 <= z <= 3.5
    /\ nonZeroDraws tape = S (S (nonZeroDraws tape'))
    /\ (length tape' + 2 <= length tape)%nat.
Proof.
  intros H.
  destruct (generateStandardNormalRandom_enough tape H) as (z & t' & Hz).
  exists z, t'. split; [exact Hz|].
  split; [eapply generateStandardNormalRandom_range; exact Hz|].
  pose proof (generateStandardNormalRandom_draws _ _ _ Hz) as Hd.
  split; [exact Hd|].
  assert (Hsuffix : forall (t t1 : list R) (u : R),
            nextNonZero t = Some (u, t1) -> (length t1 + 1 <= length t)%nat).
  { induction t as [|x t IH]; intros t1 u; simpl; [discriminate|].
    destruct (decide (x = 0)).
    - intros Hn. specialize (IH _ _ Hn). lia.
    - intros [= _ <-]. lia. }
  unfold generateStandardNormalRandom in Hz.
  destruct (nextNonZero tape) as [[u t1]|] eqn:H1; simpl in Hz;
    [|discriminate].
  destruct (nextNonZero t1) as [[v t2]|] eqn:H2; simpl in Hz;
    [|discriminate].
  injection Hz as _ <-.
  apply Hsuffix in H1, H2. lia.
Qed.

Lemma standard_normal_sample_witness :
  (2 <= nonZeroDraws sampleTape)%nat
  /\ exists z tape',
       generateStandardNormalRandom sampleTape = Some (z, tape')
       /\ -3.5 <= z <= 3.5.
Proof.
  assert (H : (2 <= nonZeroDraws sampleTape)%nat).
  { rewrite sampleTape_draws. lia. }
  split; [exact H|].
  destruct (standard_normal_sample sampleTape H)
    as (z & tape' & Hz & Hrange & _).
  exists z, tape'. split; [exact Hz | exact Hrange].
Defined.

(** The portfolio simulator throws one of its four validation errors
    exactly when the initial investment or the monthly deposit is
    negative, when the duration is negative or not an integer, or when
    there is no stock and the target volatility is positive.  Nothing else
    about the stocks, the bank account, the correlation or the draws makes
    it throw one of them. *)
Theorem portfolio_run_rejects_exactly_invalid
    (initialInvestment monthlyDeposit : R) (stocks : list Stock)
    (bankAccount : BankAccount) (targetOverallVolatility : R)
    (durationInMonths : R) (scenario : ScenarioType) (correlation : R)
    (tape : list R) :
  (exists e,
     e <> RandomSourceExhausted
     /\ simulateInvestmentStrategy initialInvestment monthlyDeposit stocks
          bankAccount targetOverallVolatility durationInMonths scenario
          correlation tape = Thrown e)
  <-> ~ (0 <= initialInvestment /\ 0 <= monthlyDeposit
         /\ 0 <= durationInMonths /\ JsNumber.isInteger durationInMonths
         /\ (stocks = [] -> targetOverallVolatility <= 0)).
Proof.
  unfold simulateInvestmentStrategy, simulateTrace.
  split.
  - intros (e & Hne & Hrun) (Hi & Hd & Hn & Hint & He).
    destruct (decide (initialInvestment < 0)); [lra|].
    destruct (decide (monthlyDeposit < 0)); [lra|].
    destruct (decide (durationInMonths < 0
                      \/ ~ JsNumber.isInteger durationInMonths))
      as [[?|?]|_]; [lra | contradiction |].
    destruct (decide _) as [[Hl Ht]|_].
    { apply length_zero_iff_nil in Hl. specialize (He Hl). lra. }
    destruct (monthsLoop _ _ _ _ _ _ _ _ _ _); cbn in Hrun;
      [discriminate|].
    injection Hrun as <-. apply Hne. reflexivity.
  - intros Hnv.
    destruct (decide (initialInvestment < 0)) as [|H1];
      [eexists; split; [|reflexivity]; discriminate|].
    destruct (decide (monthlyDeposit < 0)) as [|H2];
      [eexists; split; [|reflexivity]; discriminate|].
    destruct (decide (durationInMonths < 0
                      \/ ~ JsNumber.isInteger durationInMonths)) as [|H3];
      [eexists; split; [|reflexivity]; discriminate|].
    destruct (decide _) as [|H4];
      [eexists; split; [|reflexivity]; discriminate|].
    exfalso. apply Hnv.
    destruct (decide (JsNumber.isInteger durationInMonths)) as [H5|H5];
      [|tauto].
    repeat split; try lra; try exact H5.
    intros ->. destruct (Rle_lt_dec targetOverallVolatility 0); [assumption|].
    exfalso. apply H4. split; [reflexivity | lra].
Qed.

Lemma portfolio_run_rejects_exactly_invalid_witness :
  (exists e,
     e <> RandomSourceExhausted
     /\ simulateInvestmentStrategy 1000 100 [sampleStock] sampleBank 0.1 1.5
          AVERAGE 0.6 sampleTape = Thrown e)
  /\ (exists e,
        e <> RandomSourceExhausted
        /\ simulateInvestmentStrategy 1000 100 [] sampleBank 0.1 2
             AVERAGE 0.6 sampleTape = Thrown e)
  /\ ~ exists e,
        e <> RandomSourceExhausted
        /\ simulateInvestmentStrategy 1000 100 [sampleStock] sampleBank 0.1
             2 AVERAGE 0.6 [] = Thrown e.
Proof.
  split; [|split].
  - apply (portfolio_run_rejects_exactly_invalid 1000 100 [sampleStock]
             sampleBank 0.1 1.5 AVERAGE 0.6 sampleTape).
    intros (_ & _ & _ & H & _). exact (not_integer_one_and_half H).
  - apply (portfolio_run_rejects_exactly_invalid 1000 100 [] sampleBank 0.1
             2 AVERAGE 0.6 sampleTape).
    intros (_ & _ & _ & _ & H). specialize (H eq_refl). lra.
  - intros H.
    apply (portfolio_run_rejects_exactly_invalid 1000 100 [sampleStock]
             sampleBank 0.1 2 AVERAGE 0.6 []) in H.
    apply H. repeat split; try lra; [apply (isInteger_IZR 2)|].
    discriminate.
Defined.

End DrawsAndChecks.
